(** * prosodify-backend: the data-access layer of lib/database.ts

    A shallow embedding of the connection-pool manager, the retry
    executor, the record repository and the usage-quota functions of
    [lib/database.ts], and of the two routes that call them, followed by
    the properties established about them.

    Conventions.
    - JavaScript numbers are integers here ([Z]); the one place where the
      source can produce a non-number ([NaN], or an object used as a
      number) has its own type.
    - An [async] function is a state transformer that either returns a
      value or throws; effects made before a throw persist.
    - The driver ([mssql]) and the SQL server are outside the repository.
      The connection pool is taken through an interface ([Driver]); the
      statements the repository sends are given their T-SQL meaning on
      in-memory tables.
    - A run is sequential: what the event loop may interleave with it (an
      ['error'] event of a pool, a signal, another request) is not part of
      it.  The signal handlers are left out.  [initializeDatabase] has
      its two statements as parameters; the tables are the ones it
      declares. *)

From Stdlib Require Import ZArith List String Ascii Bool Lia.
From Stdlib Require Import DecimalString.
From Stdlib Require Import Sorted Permutation.
From Equations Require Import Equations.
From Equations.Prop Require Import Logic.
Import ListNotations.

Local Open Scope string_scope.
Local Open Scope list_scope.
Local Open Scope Z_scope.

(** ** JavaScript values used by the module *)

Module Js.

(** A thrown value.  [instanceofError] is the result of
    [error instanceof Error]; [message] is [error.message]. *)
Record Thrown : Type := mkThrown {
  instanceofError : bool;
  message : string
}.

(** [new Error(msg)] *)
Definition Error (msg : string) : Thrown :=
  {| instanceofError := true; message := msg |}.

(** [s.startsWith(p)] *)
Fixpoint startsWith (p s : string) : bool :=
  match p, s with
  | EmptyString, _ => true
  | String a p', String b s' => Ascii.eqb a b && startsWith p' s'
  | String _ _, EmptyString => false
  end.

(** [s.includes(p)] *)
Fixpoint includes (s p : string) : bool :=
  startsWith p s ||
  match s with
  | EmptyString => false
  | String _ s' => includes s' p
  end.

(** [c.toLowerCase()] on one code unit: the letters A..Z are mapped to
    a..z, every other code unit below 128 is left as it is. *)
Definition lower_ascii (c : ascii) : ascii :=
  let n := nat_of_ascii c in
  if (Nat.leb 65 n && Nat.leb n 90)%bool then ascii_of_nat (n + 32) else c.

(** [s.toLowerCase()] *)
Fixpoint toLowerCase (s : string) : string :=
  match s with
  | EmptyString => EmptyString
  | String c s' => String (lower_ascii c) (toLowerCase s')
  end.

(** [String(n)] for an integer [n]. *)
Definition String_of_Z (n : Z) : string :=
  NilZero.string_of_int (Z.to_int n).

(** A number, or the result of arithmetic on something that is not
    one. *)
Inductive number : Type :=
| Num (n : Z)
| NaN.

(** What a property read on an object literal with number-valued own
    properties can give: one of its numbers, or a member inherited from
    [Object.prototype] (a function, or the prototype itself for
    [__proto__]). *)
Inductive value : Type :=
| VNumber (n : Z)
| VInherited (member : string).

(** The property names every plain object inherits. *)
Definition Object_prototype : list string :=
  [ "constructor"; "hasOwnProperty"; "isPrototypeOf";
    "propertyIsEnumerable"; "toLocaleString"; "toString"; "valueOf";
    "__proto__"; "__defineGetter__"; "__defineSetter__";
    "__lookupGetter__"; "__lookupSetter__" ].

(** [obj[key]] for [obj = { k1: n1, ... }]; [None] is [undefined]. *)
Fixpoint get (obj : list (string * Z)) (key : string) : option value :=
  match obj with
  | (k, n) :: rest =>
      if String.eqb k key then Some (VNumber n) else get rest key
  | [] => if existsb (String.eqb key) Object_prototype
          then Some (VInherited key) else None
  end.

Definition truthy (v : value) : bool :=
  match v with
  | VNumber n => negb (n =? 0)
  | VInherited _ => true
  end.

(** [v || d] for a number [d]. *)
Definition or_number (v : option value) (d : Z) : value :=
  match v with
  | Some v' => if truthy v' then v' else VNumber d
  | None => VNumber d
  end.

(** The property key a nullable string is converted to. *)
Definition key_of (s : option string) : string :=
  match s with Some k => k | None => "null" end.

(** [ToNumber] of a number or [null]. *)
Definition ToNumber (x : option Z) : Z :=
  match x with Some n => n | None => 0 end.

(** [a <= v] for a number [a]: an inherited member converts to [NaN],
    and every comparison with [NaN] is false. *)
Definition le (a : Z) (v : value) : bool :=
  match v with
  | VNumber n => a <=? n
  | VInherited _ => false
  end.

(** [v - b] for a number [b]. *)
Definition minus (v : value) (b : Z) : number :=
  match v with
  | VNumber n => Num (n - b)
  | VInherited _ => NaN
  end.

(** [n || d] for a number or [null] [n]: [null] and zero are falsy. *)
Definition number_or (n : option Z) (d : Z) : Z :=
  match n with
  | Some k => if k =? 0 then d else k
  | None => d
  end.

(** [s || null] on an optional string: absent and empty are falsy. *)
Definition string_or_null (s : option string) : option string :=
  match s with
  | Some EmptyString => None
  | other => other
  end.

(** [n || null] on an optional number: absent and zero are falsy. *)
Definition number_or_null (n : option Z) : option Z :=
  match n with
  | Some k => if k =? 0 then None else Some k
  | None => None
  end.

(** A value of type [any] as far as the module looks at it: whether it
    is truthy, and the text [JSON.stringify] gives for it. *)
Record any : Type := mkAny {
  any_truthy : bool;
  JSON_stringify : string
}.

End Js.

(** ** Computations: state, return and throw *)

Module Async.

Inductive outcome (A : Type) : Type :=
| Returned (a : A)
| Threw (e : Js.Thrown).
Arguments Returned {A} a.
Arguments Threw {A} e.

Definition M (S A : Type) : Type := S -> outcome A * S.

Definition ret {S A} (a : A) : M S A := fun s => (Returned a, s).

Definition throw {S A} (e : Js.Thrown) : M S A := fun s => (Threw e, s).

Definition bind {S A B} (m : M S A) (k : A -> M S B) : M S B :=
  fun s =>
    match m s with
    | (Returned a, s') => k a s'
    | (Threw e, s') => (Threw e, s')
    end.

(** [try { m } catch (error) { h error }] *)
Definition try_catch {S A} (m : M S A) (h : Js.Thrown -> M S A) : M S A :=
  fun s =>
    match m s with
    | (Returned a, s') => (Returned a, s')
    | (Threw e, s') => h e s'
    end.

Definition gets {S A} (f : S -> A) : M S A := fun s => (Returned (f s), s).

Definition modify {S} (f : S -> S) : M S unit := fun s => (Returned tt, f s).

End Async.

Export Async.

Declare Scope async_scope.
Delimit Scope async_scope with async.
Notation "x <- m ;; k" := (bind m (fun x => k))
  (at level 61, m at next level, right associativity) : async_scope.
Notation "m ;; k" := (bind m (fun _ => k))
  (at level 61, right associativity) : async_scope.
Local Open Scope async_scope.

(** ** Connection pool manager and retry executor *)

Module Pool.

(** Identity of a [sql.ConnectionPool] object. *)
Definition PoolRef : Type := nat.

(** What the module does that can be observed from outside, newest
    first: the [console.error] lines, the timers it waits on, and (as
    instrumentation) the pool objects it creates, the assignments
    [pool = null], and the calls of the operation. *)
Inductive event : Type :=
| PoolCreated (p : PoolRef)
| PoolDiscarded
| ConnectionFailedLogged (error : Js.Thrown)
| OperationCalled (p : PoolRef)
| OperationFailedLogged (attempt total : Z) (error : Js.Thrown)
| Slept (ms : Z).

(** The part of [mssql]'s [ConnectionPool] that [getDbConnection] uses,
    over the state [Env] of everything outside the module. *)
Class Driver (Env : Type) : Type := {
  ConnectionPool_new : Env -> PoolRef * Env;
  connected : PoolRef -> Env -> bool;
  connecting : PoolRef -> Env -> bool;
  connect : PoolRef -> Env -> outcome unit * Env
}.

(** The module's own state: the variable [pool], the world outside,
    and the trace. *)
Record World (Env : Type) : Type := mkWorld {
  pool : option PoolRef;
  env : Env;
  trace : list event
}.
Arguments mkWorld {Env} _ _ _.
Arguments pool {Env} _.
Arguments env {Env} _.
Arguments trace {Env} _.

Section Manager.
Context {Env : Type} `{Driver Env}.

Definition set_pool (v : option PoolRef) : M (World Env) unit :=
  modify (fun w => mkWorld v (env w) (trace w)).

Definition emit (ev : event) : M (World Env) unit :=
  modify (fun w => mkWorld (pool w) (env w) (ev :: trace w)).

(** Run a computation of the outside world. *)
Definition outside {A} (f : Env -> outcome A * Env) : M (World Env) A :=
  fun w => let '(r, e) := f (env w) in (r, mkWorld (pool w) e (trace w)).

(** [pool = null] *)
Definition discard_pool : M (World Env) unit :=
  emit PoolDiscarded ;; set_pool None.

(** [getDbConnection].  The handler it registers with
    [pool.on('error', ...)] runs when the driver emits such an event,
    between two steps of a run and not within one. *)
Definition getDbConnection : M (World Env) PoolRef :=
  p <- (cur <- gets pool ;;
        match cur with
        | None =>
            p <- outside (fun e => let '(p, e') := ConnectionPool_new e in
                                   (Returned p, e')) ;;
            emit (PoolCreated p) ;;
            set_pool (Some p) ;;
            ret p
        | Some p => ret p
        end) ;;
  is_connected <- gets (fun w => connected p (env w)) ;;
  is_connecting <- gets (fun w => connecting p (env w)) ;;
  (if negb is_connected && negb is_connecting then
     try_catch (outside (connect p))
       (fun error =>
          emit (ConnectionFailedLogged error) ;;
          discard_pool ;;
          throw error)
   else ret tt) ;;
  ret p.

(** The test of the [catch] block of [withRetry]:
    [error instanceof Error && (message.includes(...) || ...)]. *)
Definition resets_pool (error : Js.Thrown) : bool :=
  Js.instanceofError error &&
  (Js.includes (Js.message error) "ConnectionError" ||
   Js.includes (Js.message error) "RequestError" ||
   Js.includes (Js.message error) "TimeoutError").

Section WithRetry.
Context {T : Type}.
Variable operation : PoolRef -> Env -> outcome T * Env.
Variable maxRetries : Z.

(** The [try] block: borrow the pool, call the operation on it. *)
Definition attempt : M (World Env) T :=
  p <- getDbConnection ;;
  emit (OperationCalled p) ;;
  outside (operation p).

(** The [catch] block up to the test [retryCount > maxRetries];
    [retryCount] is the value after the increment. *)
Definition on_failure (retryCount : Z) (error : Js.Thrown)
  : M (World Env) unit :=
  emit (OperationFailedLogged retryCount (maxRetries + 1) error) ;;
  (if resets_pool error then discard_pool else ret tt).

(** [await new Promise(resolve => setTimeout(resolve, ms))] *)
Definition sleep (ms : Z) : M (World Env) unit := emit (Slept ms).

Definition max_retries_exceeded : Js.Thrown :=
  Js.Error "Max retries exceeded".

(** The world after the [catch] block has logged the failure and
    reset the pool where the error asks for it. *)
Definition caught (retryCount : Z) (error : Js.Thrown) (w : World Env)
  : World Env :=
  snd (on_failure retryCount error w).

(** The world once the back-off timer has fired as well. *)
Definition backed_off (retryCount : Z) (error : Js.Thrown)
    (w : World Env) : World Env :=
  snd ((on_failure retryCount error ;; sleep (500 * retryCount)) w).

(** The [while (retryCount <= maxRetries)] loop; the recursive call
    is the next iteration, entered with the incremented counter. *)
Equations? withRetry_loop (retryCount : Z) (w : World Env)
  : outcome T * World Env
  by wf (Z.to_nat (maxRetries + 1 - retryCount)) lt :=
withRetry_loop retryCount w with inspect (retryCount <=? maxRetries) := {
  | exist _ false _ := (Threw max_retries_exceeded, w);
  | exist _ true Hle with attempt w := {
    | (Returned v, w1) := (Returned v, w1);
    | (Threw error, w1)
        with inspect (retryCount + 1 >? maxRetries) := {
      | exist _ true _ := (Threw error, caught (retryCount + 1) error w1);
      | exist _ false _ :=
          withRetry_loop (retryCount + 1)
            (backed_off (retryCount + 1) error w1) } } }.
Proof. apply Z.leb_le in Hle. lia. Qed.

Definition withRetry : M (World Env) T := withRetry_loop 0.

End WithRetry.
End Manager.

(** *** Reading a trace *)

Definition is_call (ev : event) : bool :=
  match ev with OperationCalled _ => true | _ => false end.

Definition is_discard (ev : event) : bool :=
  match ev with PoolDiscarded => true | _ => false end.

(** Number of calls of the operation. *)
Definition calls (tr : list event) : Z :=
  Z.of_nat (List.length (filter is_call tr)).

(** Number of times [pool = null] ran. *)
Definition discards (tr : list event) : Z :=
  Z.of_nat (List.length (filter is_discard tr)).

(** The failed attempts [withRetry] logged, newest first, each with
    its number and the error it caught. *)
Fixpoint failures (tr : list event) : list (Z * Js.Thrown) :=
  match tr with
  | OperationFailedLogged n _ error :: rest => (n, error) :: failures rest
  | _ :: rest => failures rest
  | [] => []
  end.

(** A stretch of trace in which the operation was not called, the pool
    was not discarded and no failed attempt was logged. *)
Definition quiet (tr : list event) : Prop :=
  calls tr = 0 /\ discards tr = 0 /\ failures tr = [].

End Pool.

(** ** The SQL server: tables, T-SQL functions, the statements of the file *)

Module Sql.

(** A [DATETIME2] value. *)
Record datetime : Type := mkDate {
  year : Z;
  month : Z;          (* 1..12 *)
  day : Z;            (* 1..31 *)
  time : Z            (* milliseconds since midnight *)
}.

(** [DATEDIFF(month, startdate, enddate)]: the number of month
    boundaries between the two dates; day and time play no part. *)
Definition DATEDIFF_month (startdate enddate : datetime) : Z :=
  (year enddate - year startdate) * 12 + (month enddate - month startdate).

(** Order of [DATETIME2] values. *)
Definition datetime_leb (a b : datetime) : bool :=
  if year a <? year b then true else
  if year b <? year a then false else
  if month a <? month b then true else
  if month b <? month a then false else
  if day a <? day b then true else
  if day b <? day a then false else
  time a <=? time b.

(** [INT] *)
Definition INT_MIN : Z := -2147483648.
Definition INT_MAX : Z := 2147483647.
Definition fits_INT (n : Z) : bool := (INT_MIN <=? n) && (n <=? INT_MAX).

(** Rows of [users], as [initializeDatabase] declares the table: the
    first four columns are [NOT NULL], the others are nullable. *)
Record UserRow : Type := mkUser {
  id : string;
  email : string;
  name : string;
  password : string;
  createdAt : option datetime;
  updatedAt : option datetime;
  last_login_at : option datetime;
  login_count : option Z;
  subscriptionStatus : option string;
  monthlyUsage : option Z;
  usageResetDate : option datetime
}.

(** Rows of [audio_files]. *)
Record AudioRow : Type := mkAudio {
  a_id : string;
  a_userId : string;
  a_filename : string;
  a_text : string;
  a_voice : option string;
  a_settings : option string;
  a_audioUrl : option string;
  a_fileSize : option Z;
  a_createdAt : option datetime
}.

(** The server as the module meets it.
    - [collate] is the comparison [=] of the database's collation on
      [NVARCHAR] values; it is a property of the database, not of the
      repository.
    - [connect_faults] and [query_faults] script the failures of the
      coming calls of [connect] and of [query], one entry per call; the
      server is healthy when both are empty.
    - [Date_now] and [Math_random] are the clock and the random source
      of the JavaScript runtime; [Math_random k] stands for the text
      [Math.random().toString(36).substr(2, 9)] of the [k]-th draw. *)
Record Server : Type := mkServer {
  collate : string -> string -> bool;
  users : list UserRow;
  audio_files : list AudioRow;
  GETDATE : datetime;
  connect_faults : list Js.Thrown;
  query_faults : list Js.Thrown;
  pools_made : nat;
  open_pools : list Pool.PoolRef;
  Date_now : Z;
  Math_random : nat -> string;
  random_draws : nat
}.

Definition set_users (us : list UserRow) (s : Server) : Server :=
  mkServer (collate s) us (audio_files s) (GETDATE s) (connect_faults s)
    (query_faults s) (pools_made s) (open_pools s) (Date_now s) (Math_random s)
    (random_draws s).

Definition set_audio_files (fs : list AudioRow) (s : Server) : Server :=
  mkServer (collate s) (users s) fs (GETDATE s) (connect_faults s)
    (query_faults s) (pools_made s) (open_pools s) (Date_now s) (Math_random s)
    (random_draws s).

Definition set_faults (c q : list Js.Thrown) (s : Server) : Server :=
  mkServer (collate s) (users s) (audio_files s) (GETDATE s) c q
    (pools_made s) (open_pools s) (Date_now s) (Math_random s)
    (random_draws s).

Definition set_pools (n : nat) (ps : list Pool.PoolRef) (s : Server)
  : Server :=
  mkServer (collate s) (users s) (audio_files s) (GETDATE s)
    (connect_faults s) (query_faults s) n ps (Date_now s) (Math_random s)
    (random_draws s).

Definition set_random_draws (n : nat) (s : Server) : Server :=
  mkServer (collate s) (users s) (audio_files s) (GETDATE s) (connect_faults s)
    (query_faults s) (pools_made s) (open_pools s) (Date_now s)
    (Math_random s) n.

(** [s'] is [s] up to the driver's bookkeeping of pools. *)
Definition same_server (s s' : Server) : Prop :=
  exists n ps, s' = set_pools n ps s.

(** *** The driver's connection pool *)

Definition is_open (p : Pool.PoolRef) (s : Server) : bool :=
  existsb (Nat.eqb p) (open_pools s).

Definition pool_connect (p : Pool.PoolRef) (s : Server)
  : outcome unit * Server :=
  match connect_faults s with
  | e :: rest => (Threw e, set_faults rest (query_faults s) s)
  | [] => (Returned tt, set_pools (pools_made s) (p :: open_pools s) s)
  end.

#[export] Instance mssql : Pool.Driver Server := {
  Pool.ConnectionPool_new :=
    fun s => (pools_made s, set_pools (S (pools_made s)) (open_pools s) s);
  Pool.connected := is_open;
  (* a call of [connect] has finished by the time its [await] resumes *)
  Pool.connecting := fun _ _ => false;
  Pool.connect := pool_connect
}.

(** Messages of the server's errors (the server's wording, without the
    constraint's generated name and the offending value). *)
Definition connection_closed : Js.Thrown :=
  Js.Error "Connection is closed.".
Definition primary_key_violation : Js.Thrown :=
  Js.Error "Violation of PRIMARY KEY constraint. Cannot insert duplicate key.".
Definition unique_key_violation : Js.Thrown :=
  Js.Error "Violation of UNIQUE KEY constraint. Cannot insert duplicate key.".
Definition foreign_key_violation : Js.Thrown :=
  Js.Error "The INSERT statement conflicted with the FOREIGN KEY constraint.".
Definition arithmetic_overflow : Js.Thrown :=
  Js.Error "Arithmetic overflow error converting expression to data type int.".
Definition parameter_validation : Js.Thrown :=
  Js.Error
    ("Validation failed for parameter. "
     ++ "Value must be between -2147483648 and 2147483647, inclusive.")%string.
Definition invalid_top : Js.Thrown :=
  Js.Error "A TOP or FETCH clause contains an invalid value.".

(** A statement: given the server's state, a result and the new
    tables, or an error that leaves the tables as they were. *)
Definition statement (A : Type) : Type := Server -> outcome A * Server.

(** [await pool.request()...query(text)] *)
Definition query {A} (p : Pool.PoolRef) (stmt : statement A)
  : Server -> outcome A * Server :=
  fun s =>
    if is_open p s then
      match query_faults s with
      | e :: rest => (Threw e, set_faults (connect_faults s) rest s)
      | [] => stmt s
      end
    else (Threw connection_closed, s).

(** *** users *)

(** The row an insert of the four columns makes at date [now]: the
    other columns take their [DEFAULT]s. *)
Definition new_user_row (now : datetime) (id' email' name' password' : string)
  : UserRow :=
  {| id := id'; email := email'; name := name'; password := password';
     createdAt := Some now;
     updatedAt := Some now;
     last_login_at := None;
     login_count := Some 0;
     subscriptionStatus := Some "free";
     monthlyUsage := Some 0;
     usageResetDate := Some now |}.

(** [INSERT INTO users (id, email, name, password) VALUES (...)]: the
    primary key and the [UNIQUE] email are checked with the collation's
    comparison. *)
Definition INSERT_INTO_users (id' email' name' password' : string)
  : statement unit :=
  fun s =>
    if existsb (fun r => collate s (id r) id') (users s) then
      (Threw primary_key_violation, s)
    else if existsb (fun r => collate s (email r) email') (users s) then
      (Threw unique_key_violation, s)
    else
      (Returned tt,
       set_users
         (users s ++ [new_user_row (GETDATE s) id' email' name' password'])
         s).

(** The rows of [WHERE id = @id]. *)
Definition matching (s : Server) (id' : string) : list UserRow :=
  filter (fun r => collate s (id r) id') (users s).

(** [SELECT * FROM users WHERE email = @email] *)
Definition SELECT_users_WHERE_email (email' : string)
  : statement (list UserRow) :=
  fun s =>
    (Returned (filter (fun r => collate s (email r) email') (users s)), s).

(** [SELECT * FROM users WHERE id = @id] *)
Definition SELECT_users_WHERE_id (id' : string)
  : statement (list UserRow) :=
  fun s => (Returned (matching s id'), s).

(** [UPDATE users SET ... WHERE ...] with an [INT] expression in the
    [SET] list: the statement fails as a whole, changing nothing, when
    the expression overflows on a row it applies to. *)
Definition UPDATE_users (where_ : UserRow -> bool)
    (in_range : UserRow -> bool) (set_ : UserRow -> UserRow)
  : statement unit :=
  fun s =>
    if forallb (fun r => negb (where_ r) || in_range r) (users s) then
      (Returned tt,
       set_users (map (fun r => if where_ r then set_ r else r) (users s)) s)
    else (Threw arithmetic_overflow, s).

(** [ISNULL(x, 0)] *)
Definition ISNULL0 (x : option Z) : Z :=
  match x with Some n => n | None => 0 end.

(** [UPDATE users SET last_login_at = GETDATE(),
     login_count = ISNULL(login_count, 0) + 1 WHERE id = @userId] *)
Definition UPDATE_login_tracking (userId : string) : statement unit :=
  fun s =>
    UPDATE_users
      (fun r => collate s (id r) userId)
      (fun r => fits_INT (ISNULL0 (login_count r) + 1))
      (fun r => mkUser (id r) (email r) (name r) (password r)
                  (createdAt r) (updatedAt r)
                  (Some (GETDATE s))
                  (Some (ISNULL0 (login_count r) + 1))
                  (subscriptionStatus r) (monthlyUsage r)
                  (usageResetDate r))
      s.

(** [x + y] on a nullable column: [NULL + y] is [NULL]. *)
Definition plus_null (x : option Z) (y : Z) : option Z :=
  match x with Some n => Some (n + y) | None => None end.

(** [UPDATE users SET monthlyUsage = monthlyUsage + @charactersUsed
     WHERE id = @userId]; the parameter is declared [sql.Int]. *)
Definition UPDATE_monthlyUsage (userId : string) (charactersUsed : Z)
  : statement unit :=
  fun s =>
    if fits_INT charactersUsed then
      UPDATE_users
        (fun r => collate s (id r) userId)
        (fun r => match plus_null (monthlyUsage r) charactersUsed with
                  | Some n => fits_INT n
                  | None => true
                  end)
        (fun r => mkUser (id r) (email r) (name r) (password r)
                    (createdAt r) (updatedAt r) (last_login_at r)
                    (login_count r) (subscriptionStatus r)
                    (plus_null (monthlyUsage r) charactersUsed)
                    (usageResetDate r))
        s
    else (Threw parameter_validation, s).

(** The [WHERE] clause of the monthly reset:
    [DATEDIFF(month, usageResetDate, GETDATE()) >= 1]; on a [NULL]
    date the comparison is unknown and the row is not selected. *)
Definition reset_due (now : datetime) (r : UserRow) : bool :=
  match usageResetDate r with
  | Some d => DATEDIFF_month d now >=? 1
  | None => false
  end.

(** [SET monthlyUsage = 0, usageResetDate = GETDATE()]: the other
    columns of the row stay. *)
Definition reset_row (now : datetime) (r : UserRow) : UserRow :=
  mkUser (id r) (email r) (name r) (password r) (createdAt r) (updatedAt r)
    (last_login_at r) (login_count r) (subscriptionStatus r)
    (Some 0) (Some now).

(** [UPDATE users SET monthlyUsage = 0, usageResetDate = GETDATE()
     WHERE DATEDIFF(month, usageResetDate, GETDATE()) >= 1] *)
Definition UPDATE_reset_usage : statement unit :=
  fun s =>
    UPDATE_users (reset_due (GETDATE s)) (fun _ => true)
      (reset_row (GETDATE s)) s.

(** Columns of [getUserLoginHistory]'s [SELECT]. *)
Record LoginHistory : Type := mkLoginHistory {
  lh_id : string;
  lh_email : string;
  lh_name : string;
  lh_last_login_at : option datetime;
  lh_login_count : option Z;
  lh_createdAt : option datetime
}.

(** Columns of [getUserWithSubscription]'s [SELECT]. *)
Record Subscription : Type := mkSubscription {
  s_id : string;
  s_email : string;
  s_name : string;
  s_subscriptionStatus : option string;
  s_monthlyUsage : option Z;
  s_usageResetDate : option datetime;
  s_last_login_at : option datetime;
  s_login_count : option Z;
  s_createdAt : option datetime
}.

Definition login_history_of (r : UserRow) : LoginHistory :=
  mkLoginHistory (id r) (email r) (name r) (last_login_at r)
    (login_count r) (createdAt r).

Definition subscription_of (r : UserRow) : Subscription :=
  mkSubscription (id r) (email r) (name r) (subscriptionStatus r)
    (monthlyUsage r) (usageResetDate r) (last_login_at r)
    (login_count r) (createdAt r).

(** [SELECT id, email, name, last_login_at, login_count, createdAt
     FROM users WHERE id = @userId] *)
Definition SELECT_login_history (userId : string)
  : statement (list LoginHistory) :=
  fun s => (Returned (map login_history_of (matching s userId)), s).

(** [SELECT id, email, name, subscriptionStatus, monthlyUsage,
     usageResetDate, last_login_at, login_count, createdAt
     FROM users WHERE id = @userId] *)
Definition SELECT_subscription (userId : string)
  : statement (list Subscription) :=
  fun s => (Returned (map subscription_of (matching s userId)), s).

(** *** audio_files *)

Definition fits_INT_param (n : option Z) : bool :=
  match n with Some k => fits_INT k | None => true end.

(** [INSERT INTO audio_files (id, userId, filename, text, voice,
     settings, audioUrl, fileSize) VALUES (...)] *)
Definition INSERT_INTO_audio_files (id' userId filename text : string)
    (voice settings audioUrl : option string) (fileSize : option Z)
  : statement unit :=
  fun s =>
    if negb (fits_INT_param fileSize) then
      (Threw parameter_validation, s)
    else if existsb (fun r => collate s (a_id r) id') (audio_files s) then
      (Threw primary_key_violation, s)
    else if negb (existsb (fun r => collate s (id r) userId) (users s)) then
      (Threw foreign_key_violation, s)
    else
      let row := mkAudio id' userId filename text voice settings audioUrl
                   fileSize (Some (GETDATE s)) in
      (Returned tt, set_audio_files (audio_files s ++ [row]) s).

(** Columns of [getUserAudioFiles]'s [SELECT]. *)
Record AudioView : Type := mkAudioView {
  v_id : string;
  v_filename : string;
  v_text : string;
  v_voice : option string;
  v_settings : option string;
  v_audioUrl : option string;
  v_fileSize : option Z;
  v_createdAt : option datetime
}.

Definition audio_view_of (r : AudioRow) : AudioView :=
  mkAudioView (a_id r) (a_filename r) (a_text r) (a_voice r)
    (a_settings r) (a_audioUrl r) (a_fileSize r) (a_createdAt r).

(** Order of a nullable [DATETIME2] column: [NULL] sorts lowest. *)
Definition created_leb (a b : option datetime) : bool :=
  match a, b with
  | None, _ => true
  | Some _, None => false
  | Some x, Some y => datetime_leb x y
  end.

(** [ORDER BY createdAt DESC]; rows with equal keys keep the order
    they have in the table. *)
Fixpoint insert_desc (x : AudioRow) (l : list AudioRow) : list AudioRow :=
  match l with
  | [] => [x]
  | y :: l' =>
      if created_leb (a_createdAt y) (a_createdAt x)
      then x :: y :: l'
      else y :: insert_desc x l'
  end.

Definition ORDER_BY_createdAt_DESC (l : list AudioRow) : list AudioRow :=
  fold_right insert_desc [] l.

(** [SELECT TOP (@limit) id, filename, text, voice, settings, audioUrl,
     fileSize, createdAt FROM audio_files WHERE userId = @userId
     ORDER BY createdAt DESC] *)
Definition SELECT_TOP_audio_files (userId : string) (limit : Z)
  : statement (list AudioView) :=
  fun s =>
    if negb (fits_INT limit) then (Threw parameter_validation, s)
    else if limit <? 0 then (Threw invalid_top, s)
    else
      (Returned
         (map audio_view_of
            (firstn (Z.to_nat limit)
               (ORDER_BY_createdAt_DESC
                  (filter (fun r => collate s (a_userId r) userId)
                     (audio_files s))))), s).

(** *** Two collations *)

(** A binary collation: [=] is equality of the code units. *)
Definition binary_collation : string -> string -> bool := String.eqb.


(** No failure is scripted. *)
Definition healthy (s : Server) : Prop :=
  connect_faults s = [] /\ query_faults s = [].

End Sql.

(** ** lib/database.ts: the exported operations *)

Module Database.
Import Pool Sql.

Definition World : Type := Pool.World Server.

(** [recordset[0] || null] *)
Definition first_or_null {A} (recordset : list A) : option A :=
  match recordset with
  | r :: _ => Some r
  | [] => None
  end.

Record NewUser : Type := mkNewUser {
  u_id : string;
  u_email : string;
  u_name : string;
  u_password : string
}.

(** The operation [createUser] hands to [withRetry]. *)
Definition insert_user (user : NewUser) (pool : PoolRef)
  : Server -> outcome unit * Server :=
  query pool (INSERT_INTO_users (u_id user) (u_email user)
                (u_name user) (u_password user)).

Definition createUser (user : NewUser) : M World unit :=
  withRetry (insert_user user) 2.

(** The row [createUser] stores at date [now]. *)
Definition created_row (now : datetime) (user : NewUser) : UserRow :=
  new_user_row now (u_id user) (u_email user) (u_name user)
    (u_password user).

Definition findUserByEmail (email : string) : M World (option UserRow) :=
  withRetry (fun pool =>
    (result <- query pool (SELECT_users_WHERE_email (Js.toLowerCase email)) ;;
     ret (first_or_null result))%async) 2.

(** The operation [findUserById] hands to [withRetry]. *)
Definition select_user (id : string) (pool : PoolRef)
  : Server -> outcome (option UserRow) * Server :=
  (result <- query pool (SELECT_users_WHERE_id id) ;;
   ret (first_or_null result))%async.

Definition findUserById (id : string) : M World (option UserRow) :=
  withRetry (select_user id) 2.

Definition updateLoginTracking (userId : string) : M World unit :=
  withRetry (fun pool => query pool (UPDATE_login_tracking userId)) 2.

Definition getUserLoginHistory (userId : string)
  : M World (option LoginHistory) :=
  withRetry (fun pool =>
    (result <- query pool (SELECT_login_history userId) ;;
     ret (first_or_null result))%async) 2.

Definition getUserWithSubscription (userId : string)
  : M World (option Subscription) :=
  withRetry (fun pool =>
    (result <- query pool (SELECT_subscription userId) ;;
     ret (first_or_null result))%async) 2.

Definition updateUserUsage (userId : string) (charactersUsed : Z)
  : M World unit :=
  withRetry (fun pool =>
    query pool (UPDATE_monthlyUsage userId charactersUsed)) 2.

(** [const limits = { free: 5000, pro: 100000, premium: 500000 }] *)
Definition limits : list (string * Z) :=
  [ ("free", 5000); ("pro", 100000); ("premium", 500000) ].

(** A tier whose property key is not a member every object inherits:
    for it [limits[tier]] is an entry of the table or [undefined]. *)
Definition own_tier (tier : option string) : Prop :=
  existsb (String.eqb (Js.key_of tier)) Js.Object_prototype = false.

Record UsageCheck : Type := mkUsageCheck {
  canUse : bool;
  currentUsage : option Z;
  limit : Js.value
}.

Definition canUserUseCharacters (userId : string) (charactersNeeded : Z)
  : M World UsageCheck :=
  user <- getUserWithSubscription userId ;;
  match user with
  | None =>
      ret {| canUse := false; currentUsage := Some 0;
             limit := Js.VNumber 0 |}
  | Some user =>
      let userLimit :=
        Js.or_number (Js.get limits (Js.key_of (s_subscriptionStatus user)))
          5000 in
      let canUse :=
        Js.le (Js.ToNumber (s_monthlyUsage user) + charactersNeeded)
          userLimit in
      ret {| canUse := canUse; currentUsage := s_monthlyUsage user;
             limit := userLimit |}
  end.

Definition resetMonthlyUsage : M World unit :=
  withRetry (fun pool => query pool UPDATE_reset_usage) 2.

Record AudioData : Type := mkAudioData {
  d_userId : string;
  d_filename : string;
  d_text : string;
  d_voice : option string;
  d_settings : option Js.any;
  d_audioUrl : option string;
  d_fileSize : option Z
}.

(** [`audio_${Date.now()}_${Math.random().toString(36).substr(2, 9)}`] *)
Definition audio_id (now : Z) (random : string) : string :=
  ("audio_" ++ Js.String_of_Z now ++ "_" ++ random)%string.

Definition new_audio_id : M Server string :=
  fun s =>
    (Returned (audio_id (Date_now s) (Math_random s (random_draws s))),
     set_random_draws (S (random_draws s)) s).

(** [settings ? JSON.stringify(settings) : null] *)
Definition settings_text (settings : option Js.any) : option string :=
  match settings with
  | Some v => if Js.any_truthy v then Some (Js.JSON_stringify v) else None
  | None => None
  end.

Definition saveAudioFile (audioData : AudioData) : M World string :=
  withRetry (fun pool =>
    (audioId <- new_audio_id ;;
     query pool
       (INSERT_INTO_audio_files audioId (d_userId audioData)
          (d_filename audioData) (d_text audioData)
          (Js.string_or_null (d_voice audioData))
          (settings_text (d_settings audioData))
          (Js.string_or_null (d_audioUrl audioData))
          (Js.number_or_null (d_fileSize audioData))) ;;
     ret audioId)%async) 2.

Definition getUserAudioFiles (userId : string) (limit : Z)
  : M World (list AudioView) :=
  withRetry (fun pool => query pool (SELECT_TOP_audio_files userId limit)) 2.

Record DashboardUser : Type := mkDashboardUser {
  du_id : option string;
  du_email : option string;
  du_name : option string;
  du_subscriptionStatus : string;
  du_monthlyUsage : Z;
  du_usageResetDate : option datetime
}.

Record DashboardUsage : Type := mkDashboardUsage {
  current : Z;
  usage_limit : Js.value;
  remaining : Js.number
}.

Record Dashboard : Type := mkDashboard {
  user : DashboardUser;
  usage : DashboardUsage;
  recentFiles : list AudioView
}.

(** [user?.subscriptionStatus] as a property key: [undefined] when
    there is no user. *)
Definition tier_key (user : option Subscription) : string :=
  match user with
  | Some u => Js.key_of (s_subscriptionStatus u)
  | None => "undefined"
  end.

(** [user?.monthlyUsage || 0] *)
Definition usage_or_0 (user : option Subscription) : Z :=
  match user with
  | Some u => Js.number_or (s_monthlyUsage u) 0
  | None => 0
  end.

(** [user?.subscriptionStatus || 'free'] *)
Definition status_or_free (user : option Subscription) : string :=
  match user with
  | Some u =>
      match Js.string_or_null (s_subscriptionStatus u) with
      | Some s => s
      | None => "free"
      end
  | None => "free"
  end.

Definition getUserDashboard (userId : string) : M World Dashboard :=
  user <- getUserWithSubscription userId ;;
  recentFiles <- getUserAudioFiles userId 5 ;;
  let userLimit := Js.or_number (Js.get limits (tier_key user)) 5000 in
  ret {| user :=
           {| du_id := option_map s_id user;
              du_email := option_map s_email user;
              du_name := option_map s_name user;
              du_subscriptionStatus := status_or_free user;
              du_monthlyUsage := usage_or_0 user;
              du_usageResetDate :=
                match user with
                | Some u => s_usageResetDate u
                | None => None
                end |};
         usage :=
           {| current := usage_or_0 user;
              usage_limit := userLimit;
              remaining := Js.minus userLimit (usage_or_0 user) |};
         recentFiles := recentFiles |}.

(** The exported operations as requests, and the world a request
    leaves. *)
Inductive request : Type :=
| CreateUser (user : NewUser)
| FindUserByEmail (email : string)
| FindUserById (id : string)
| UpdateLoginTracking (userId : string)
| GetUserLoginHistory (userId : string)
| GetUserWithSubscription (userId : string)
| UpdateUserUsage (userId : string) (charactersUsed : Z)
| CanUserUseCharacters (userId : string) (charactersNeeded : Z)
| ResetMonthlyUsage
| SaveAudioFile (audioData : AudioData)
| GetUserAudioFiles (userId : string) (limit : Z)
| GetUserDashboard (userId : string).

Definition serve (r : request) (w : World) : World :=
  match r with
  | CreateUser user => snd (createUser user w)
  | FindUserByEmail email => snd (findUserByEmail email w)
  | FindUserById id => snd (findUserById id w)
  | UpdateLoginTracking userId => snd (updateLoginTracking userId w)
  | GetUserLoginHistory userId => snd (getUserLoginHistory userId w)
  | GetUserWithSubscription userId => snd (getUserWithSubscription userId w)
  | UpdateUserUsage userId n => snd (updateUserUsage userId n w)
  | CanUserUseCharacters userId n => snd (canUserUseCharacters userId n w)
  | ResetMonthlyUsage => snd (resetMonthlyUsage w)
  | SaveAudioFile audioData => snd (saveAudioFile audioData w)
  | GetUserAudioFiles userId limit => snd (getUserAudioFiles userId limit w)
  | GetUserDashboard userId => snd (getUserDashboard userId w)
  end.

End Database.

(** ** The specification's vocabulary

    These definitions follow the words of the specification, not the
    source; the code is compared with them below. *)

Module Spec.

(** "free→5000, pro→100000, premium→500000 characters per period; an
    unrecognized or missing tier defaults to the free limit." *)
Definition tier_limit (tier : option string) : Z :=
  match tier with
  | Some t =>
      if String.eqb t "free" then 5000
      else if String.eqb t "pro" then 100000
      else if String.eqb t "premium" then 500000
      else 5000
  | None => 5000
  end.






(** "connection-related, request-related, or timeout-related": the
    classification is the one [withRetry] computes. *)
Definition transient (error : Js.Thrown) : bool :=
  Js.instanceofError error &&
  (Js.includes (Js.message error) "ConnectionError" ||
   Js.includes (Js.message error) "RequestError" ||
   Js.includes (Js.message error) "TimeoutError").

(** "[monthlyUsage] only increases": the order on a nullable usage,
    in which [NULL] stays [NULL]. *)
Definition usage_le (a b : option Z) : Prop :=
  match a, b with
  | Some x, Some y => x <= y
  | None, None => True
  | _, _ => False
  end.

(** Every row of [s] is still there in [s'], at its place and with its
    id, with a usage that is not lower. *)
Definition usage_never_less (s s' : Sql.Server) : Prop :=
  forall i r,
    nth_error (Sql.users s) i = Some r ->
    exists r',
      nth_error (Sql.users s') i = Some r'
      /\ Sql.id r' = Sql.id r
      /\ usage_le (Sql.monthlyUsage r) (Sql.monthlyUsage r').

End Spec.

(** ** Worlds and rows used as examples *)

Module Examples.
Import Pool Sql Database.

(** A healthy server with the given collation, users and date. *)
Definition server (collation : string -> string -> bool)
    (rows : list UserRow) (now : datetime) : Server :=
  mkServer collation rows [] now [] [] 0 [] 1739491200000
    (fun _ => "k3x9q0zab") 0.

(** The module before its first call: no pool yet, nothing traced. *)
Definition fresh_start (s : Server) : World := mkWorld None s [].

(** A stored user as [createUser] leaves it, with the tier, the usage
    and the reset date given. *)
Definition stored (id' email' : string) (tier : option string) (used : Z)
    (reset : datetime) : UserRow :=
  mkUser id' email' "Ada" "hash" (Some reset) (Some reset) None (Some 0)
    tier (Some used) (Some reset).

Definition jan_1 : datetime := mkDate 2025 1 1 0.
Definition jan_15 : datetime := mkDate 2025 1 15 0.
Definition jan_31 : datetime := mkDate 2025 1 31 0.
Definition feb_14 : datetime := mkDate 2025 2 14 0.
Definition feb_15 : datetime := mkDate 2025 2 15 0.

Definition ada : UserRow :=
  stored "u1" "ada@example.com" (Some "free") 4999 jan_15.

(** A server whose queries fail twice with transient errors. *)
Definition flaky : Server :=
  mkServer binary_collation [ada] [] feb_14 []
    [Js.Error "RequestError: socket hang up";
     Js.Error "TimeoutError: operation timed out"]
    0 [] 1739491200000 (fun _ => "k3x9q0zab") 0.

(** On 14 February, with [ada] stored and nothing else. *)
Definition world_of_ada : World :=
  fresh_start (server binary_collation [ada] feb_14).

(** A second user with the email of the first. *)
Definition duplicate : NewUser :=
  mkNewUser "u2" "ada@example.com" "Eve" "hash".

(** The servers on which the insert of [duplicate] fails for good:
    healthy, with [ada] stored, under the binary collation. *)
Definition duplicate_refused (s : Server) : Prop :=
  connect_faults s = [] /\ query_faults s = []
  /\ users s = [ada] /\ collate s = binary_collation.

(** A synthesis with an empty voice and a size of zero. *)
Definition silent_clip : AudioData :=
  mkAudioData "u1" "tts_1739491200000.mp3" "hello" (Some "") None None
    (Some 0).

End Examples.

(** ** Reading a trace: waits, pools, and runs that give up *)

Module Waiting.
Import Pool.

(** The time spent on timers, in milliseconds. *)
Fixpoint slept (tr : list event) : Z :=
  match tr with
  | Slept ms :: rest => ms + slept rest
  | _ :: rest => slept rest
  | [] => 0
  end.

(** Number of pool objects created. *)
Fixpoint pools_created (tr : list event) : Z :=
  match tr with
  | PoolCreated _ :: rest => 1 + pools_created rest
  | _ :: rest => pools_created rest
  | [] => 0
  end.

(** What [getDbConnection] adds to the trace before it connects: the
    pool it made, when the module held none. *)
Definition made_for (held : option PoolRef) (p : PoolRef) : list event :=
  match held with
  | Some _ => []
  | None => [PoolCreated p]
  end.

(** The trace [after] extends the trace [before] by a run that logged
    [attempts] failed attempts and waited [waited] milliseconds. *)
Definition gave_up_after (attempts : nat) (waited : Z)
    (before after : list event) : Prop :=
  exists fresh,
    after = fresh ++ before
    /\ List.length (failures fresh) = attempts
    /\ slept fresh = waited.

End Waiting.

(** ** initializeDatabase *)

Module Setup.
Import Pool.

Section Initialize.
Context {Env : Type} `{Driver Env}.

(** The two statements, [IF NOT EXISTS (...) CREATE TABLE users (...)]
    and [IF NOT EXISTS (...) CREATE TABLE audio_files (...)], each sent
    with [pool.request().query(...)]: what they do to the world outside
    is a parameter. *)
Variable create_users : PoolRef -> Env -> outcome unit * Env.
Variable create_audio_files : PoolRef -> Env -> outcome unit * Env.

(** The [try] block: borrow the pool, create the two tables. *)
Definition create_tables : M (World Env) unit :=
  p <- getDbConnection ;;
  outside (create_users p) ;;
  outside (create_audio_files p).

Section Loop.
Variable maxRetries : Z.

(** The [console.error] line of the [catch] block,
    [Database initialization error (attempt k/n)], traced with its
    attempt number, the total and the error. *)
Definition log_failure (retryCount : Z) (error : Js.Thrown)
  : M (World Env) unit :=
  emit (OperationFailedLogged retryCount maxRetries error).

(** The [while (retryCount < maxRetries)] loop; a normal exit of the
    loop returns [undefined]. *)
Equations? initializeDatabase_loop (retryCount : Z) (w : World Env)
  : outcome unit * World Env
  by wf (Z.to_nat (maxRetries - retryCount)) lt :=
initializeDatabase_loop retryCount w
    with inspect (retryCount <? maxRetries) := {
  | exist _ false _ := (Returned tt, w);
  | exist _ true Hlt with create_tables w := {
    | (Returned _, w1) := (Returned tt, w1);
    | (Threw error, w1)
        with inspect (retryCount + 1 >=? maxRetries) := {
      | exist _ true _ :=
          (Threw error, snd (log_failure (retryCount + 1) error w1));
      | exist _ false _ :=
          initializeDatabase_loop (retryCount + 1)
            (snd ((log_failure (retryCount + 1) error ;;
                   sleep (1000 * (retryCount + 1))) w1)) } } }.
Proof. apply Z.ltb_lt in Hlt. lia. Qed.

End Loop.

(** [let retryCount = 0; const maxRetries = 3] *)
Definition initializeDatabase : M (World Env) unit :=
  initializeDatabase_loop 3 0.

End Initialize.
End Setup.

(** ** Vocabulary for the repository's operations *)

Module Frame.
Import Sql Database.

(** The two tables hold the same rows. *)
Definition same_tables (s s' : Server) : Prop :=
  users s' = users s /\ audio_files s' = audio_files s.

(** The requests whose statements are all [SELECT]s. *)
Definition read_only (r : request) : bool :=
  match r with
  | FindUserByEmail _ | FindUserById _ | GetUserLoginHistory _
  | GetUserWithSubscription _ | CanUserUseCharacters _ _
  | GetUserAudioFiles _ _ | GetUserDashboard _ => true
  | CreateUser _ | UpdateLoginTracking _ | UpdateUserUsage _ _
  | ResetMonthlyUsage | SaveAudioFile _ => false
  end.

(** [SET last_login_at = GETDATE(),
     login_count = ISNULL(login_count, 0) + 1] on one row. *)
Definition logged_in (now : datetime) (r : UserRow) : UserRow :=
  mkUser (id r) (email r) (name r) (password r) (createdAt r) (updatedAt r)
    (Some now) (Some (ISNULL0 (login_count r) + 1))
    (subscriptionStatus r) (monthlyUsage r) (usageResetDate r).

(** [SET monthlyUsage = monthlyUsage + @charactersUsed] on one row. *)
Definition charged (charactersUsed : Z) (r : UserRow) : UserRow :=
  mkUser (id r) (email r) (name r) (password r) (createdAt r) (updatedAt r)
    (last_login_at r) (login_count r) (subscriptionStatus r)
    (plus_null (monthlyUsage r) charactersUsed) (usageResetDate r).

(** [a] was created no earlier than [b]. *)
Definition newer_first (a b : AudioRow) : Prop :=
  created_leb (a_createdAt b) (a_createdAt a) = true.

(** The audio rows of a user. *)
Definition files_of (s : Server) (userId : string) : list AudioRow :=
  filter (fun r => collate s (a_userId r) userId) (audio_files s).

End Frame.

(** ** The routes that call the module

    [app/api/user/dashboard/route.ts] and [app/api/tts/generate/route.ts].
    What lies outside the repository is a parameter: the verification
    of the token, and the speech service, which is given the parsed
    body and answers with a synthesis or throws.  The lines the handlers
    write to the console are not traced. *)

Module Routes.
Import Pool Sql Database.

(** [s.split(sep)] for a separator of one code unit. *)
Fixpoint split (sep : ascii) (s : string) : list string :=
  match s with
  | EmptyString => [EmptyString]
  | String c s' =>
      if Ascii.eqb c sep then EmptyString :: split sep s'
      else match split sep s' with
           | segment :: rest => String c segment :: rest
           | [] => [String c EmptyString]
           end
  end.

(** [!s] for a string or [null]. *)
Definition falsy (s : option string) : bool :=
  match s with
  | Some (String _ _) => false
  | Some EmptyString | None => true
  end.

(** White space and line terminators among the code units below 256:
    the ones [trim] removes. *)
Definition is_white_space (c : ascii) : bool :=
  let n := nat_of_ascii c in
  (Nat.leb 9 n && Nat.leb n 13) || Nat.eqb n 32 || Nat.eqb n 160.

(** [s.trim().length === 0] *)
Fixpoint blank (s : string) : bool :=
  match s with
  | EmptyString => true
  | String c s' => is_white_space c && blank s'
  end.

(** [s || d] for a string [d]. *)
Definition string_or (s : option string) (d : string) : string :=
  match Js.string_or_null s with
  | Some v => v
  | None => d
  end.

Record JWTPayload : Type := mkJWTPayload {
  userId : string;
  jwt_email : string
}.

(** [NextResponse.json(body, { status })]; the status is 200 when none
    is given. *)
Record Response (B : Type) : Type := mkResponse {
  status : Z;
  body : B
}.
Arguments mkResponse {B} _ _.
Arguments status {B} _.
Arguments body {B} _.

Inductive Authentication : Type :=
| AuthenticationRequired
| InvalidToken
| Authenticated (decoded : JWTPayload).

(** The body of a request to the speech route, as the handler
    destructures it: [text] and [voice] are strings where they are
    present; [style], [rate], [pitch] and [volume] are JSON values of a
    type [J] the handler passes on; [isPreview] is the truth value of
    the field, false when it is absent. *)
Record GenerateRequest (J : Type) : Type := mkGenerateRequest {
  text : option string;
  voice : option string;
  style : J;
  rate : J;
  pitch : J;
  volume : J;
  isPreview : bool
}.
Arguments text {J} _.
Arguments voice {J} _.
Arguments style {J} _.
Arguments rate {J} _.
Arguments pitch {J} _.
Arguments volume {J} _.
Arguments isPreview {J} _.

(** The result of [speakSsmlAsync]: whether [result.reason] is
    [SynthesizingAudioCompleted], the bytes of [result.audioData], and
    [result.errorDetails]. *)
Record Synthesis : Type := mkSynthesis {
  completed : bool;
  audioData : string;
  errorDetails : string
}.

(** The bodies the dashboard route answers with. *)
Inductive DashboardBody : Type :=
| DashboardError (error : string)
| DashboardData (success : bool) (dashboardData : Dashboard).

(** The bodies the speech route answers with; [audio] stands for the
    bytes, which the handler sends in base64 with [format: 'mp3']. *)
Inductive GenerateBody : Type :=
| GenerateError (error : string)
| UsageLimitExceeded (current : option Z) (limit : Js.value) (needed : Z)
| SynthesisFailed (details : string)
| Generated (success : bool) (audio : string) (usage : DashboardUsage).

Section Handlers.

(** [jwt.verify(token, process.env.JWT_SECRET)]: the payload, or [None]
    when it throws. *)
Variable jwt_verify : option string -> option JWTPayload.

(** The first step of both handlers: the [authorization] header, and
    the token behind [Bearer]. *)
Definition authenticate (authHeader : option string) : Authentication :=
  if falsy authHeader
     || negb (Js.startsWith "Bearer " (string_or authHeader ""))
  then AuthenticationRequired
  else
    let token := nth_error (split " " (string_or authHeader "")) 1 in
    match jwt_verify token with
    | Some decoded => Authenticated decoded
    | None => InvalidToken
    end.

(** [GET] of [app/api/user/dashboard/route.ts] *)
Definition GET (authHeader : option string)
  : World -> Response DashboardBody * World :=
  fun w =>
    match authenticate authHeader with
    | AuthenticationRequired =>
        (mkResponse 401 (DashboardError "Authentication required"), w)
    | InvalidToken => (mkResponse 401 (DashboardError "Invalid token"), w)
    | Authenticated decoded =>
        match getUserDashboard (userId decoded) w with
        | (Returned dashboardData, w') =>
            (mkResponse 200 (DashboardData true dashboardData), w')
        | (Threw error, w') =>
            (mkResponse 500 (DashboardError "Internal server error"), w')
        end
    end.

Context {J : Type}.

(** Steps 4 to 6 of the speech route: the speech service's answer to
    the request. *)
Variable synthesize : GenerateRequest J -> outcome Synthesis.

(** [JSON.stringify({ style, rate, pitch, volume })] *)
Variable JSON_stringify : J -> J -> J -> J -> string.

(** Step 3: the refusal of a request over the limit, none for a
    preview. *)
Definition check_usage (decoded : JWTPayload) (request : GenerateRequest J)
    (characterCount : Z) : M World (option (Response GenerateBody)) :=
  if negb (isPreview request) then
    usageCheck <- canUserUseCharacters (userId decoded) characterCount ;;
    if negb (canUse usageCheck) then
      ret (Some (mkResponse 429
                   (UsageLimitExceeded (currentUsage usageCheck)
                      (limit usageCheck) characterCount)))
    else ret None
  else ret None.

(** Step 7: the charge and the record, none for a preview. *)
Definition record_usage (decoded : JWTPayload) (request : GenerateRequest J)
    (text' : string) (characterCount : Z) (result : Synthesis)
  : M World unit :=
  if negb (isPreview request) then
    updateUserUsage (userId decoded) characterCount ;;
    now <- gets (fun w => Date_now (env w)) ;;
    saveAudioFile
      {| d_userId := userId decoded;
         d_filename := ("tts_" ++ Js.String_of_Z now ++ ".mp3")%string;
         d_text := text';
         d_voice := Some (string_or (voice request) "en-US-JennyNeural");
         d_settings :=
           Some (Js.mkAny true
                   (JSON_stringify (style request) (rate request)
                      (pitch request) (volume request)));
         d_audioUrl := None;
         d_fileSize := Some (Z.of_nat (String.length (audioData result))) |} ;;
    ret tt
  else ret tt.

(** Step 8: the usage reported with the audio. *)
Definition usage_summary (user : option Subscription) : DashboardUsage :=
  let userLimit := Js.or_number (Js.get limits (tier_key user)) 5000 in
  {| current := usage_or_0 user;
     usage_limit := userLimit;
     remaining := Js.minus userLimit (usage_or_0 user) |}.

(** Steps 6 to 8: the synthesis and, when it completes, the charge, the
    record and the answer. *)
Definition synthesized (decoded : JWTPayload) (request : GenerateRequest J)
    (text' : string) (characterCount : Z) : M World (Response GenerateBody) :=
  result <- (fun w => (synthesize request, w)) ;;
  if completed result then
    record_usage decoded request text' characterCount result ;;
    user <- getUserWithSubscription (userId decoded) ;;
    ret (mkResponse 200
           (Generated true (audioData result) (usage_summary user)))
  else
    ret (mkResponse 500 (SynthesisFailed (errorDetails result))).

(** The [try] block of [POST] after the authentication. *)
Definition generate (decoded : JWTPayload)
    (json : outcome (GenerateRequest J)) : M World (Response GenerateBody) :=
  request <- (fun w => (json, w)) ;;
  if falsy (text request) || blank (string_or (text request) "") then
    ret (mkResponse 400 (GenerateError "Text is required"))
  else
    let text' := string_or (text request) "" in
    let characterCount := Z.of_nat (String.length text') in
    refusal <- check_usage decoded request characterCount ;;
    match refusal with
    | Some response => ret response
    | None => synthesized decoded request text' characterCount
    end.

(** [POST] of [app/api/tts/generate/route.ts]; [json] is the outcome
    of [request.json()]. *)
Definition POST (authHeader : option string)
    (json : outcome (GenerateRequest J))
  : World -> Response GenerateBody * World :=
  fun w =>
    match authenticate authHeader with
    | AuthenticationRequired =>
        (mkResponse 401 (GenerateError "Authentication required"), w)
    | InvalidToken => (mkResponse 401 (GenerateError "Invalid token"), w)
    | Authenticated decoded =>
        match generate decoded json w with
        | (Returned response, w') => (response, w')
        | (Threw error, w') =>
            (mkResponse 500 (GenerateError "Internal server error"), w')
        end
    end.

(** A request the handler charges for unless something fails: not a
    preview, and the synthesis completes. *)
Definition chargeable (json : outcome (GenerateRequest J)) : bool :=
  match json with
  | Returned request =>
      negb (isPreview request)
      && match synthesize request with
         | Returned result => completed result
         | Threw _ => false
         end
  | Threw _ => false
  end.

End Handlers.

End Routes.

(** ** More example worlds *)

Module Scenarios.
Import Pool Sql Database Routes Examples.

(** A user that is not stored yet. *)
Definition eve : NewUser :=
  mkNewUser "u2" "eve@example.com" "Eve" "hash".


(** An audio record of [userId'] made on [date]. *)
Definition clip (id' userId' : string) (date : datetime) : AudioRow :=
  mkAudio id' userId' "tts.mp3" "hello" (Some "en-US-JennyNeural") None None
    (Some 2048) (Some date).

Definition bob : UserRow :=
  stored "u3" "bob@example.com" (Some "pro") 0 jan_1.

(** On 14 February, with two users, three records of the first, in the
    order they were stored, and one of the second. *)
Definition world_of_clips : World :=
  fresh_start
    (mkServer binary_collation [ada; bob]
       [clip "a1" "u1" jan_15; clip "a2" "u1" feb_14; clip "b1" "u3" feb_14;
        clip "a3" "u1" jan_31]
       feb_14 [] [] 0 [] 1739491200000 (fun _ => "k3x9q0zab") 0).

(** The day after the reset of [world_of_ada] on 14 February. *)
Definition world_after_reset : World :=
  fresh_start (server binary_collation [reset_row feb_14 ada] feb_15).

(** A verification that accepts one token, issued to [ada]. *)
Definition accept_ada (token : option string) : option JWTPayload :=
  match token with
  | Some t =>
      if String.eqb t "t0k3n"
      then Some (mkJWTPayload "u1" "ada@example.com") else None
  | None => None
  end.

(** A speech service that completes every synthesis with four bytes. *)
Definition four_bytes (request : GenerateRequest unit)
  : outcome Synthesis :=
  Returned (mkSynthesis true "ID3a" "").

Definition no_settings (style rate pitch volume : unit) : string := "{}".

(** A request for one character of speech, and its preview. *)
Definition say_h : GenerateRequest unit :=
  mkGenerateRequest unit (Some "h") None tt tt tt tt false.

Definition preview_h : GenerateRequest unit :=
  mkGenerateRequest unit (Some "h") None tt tt tt tt true.

End Scenarios.

(** * Properties *)

(** ** The retry executor *)

Module RetryFacts.
Import Pool.

(** Unfold the combinators of a computation applied to a state. *)
Ltac run :=
  unfold attempt, on_failure, sleep, discard_pool, emit, set_pool, outside,
    bind, ret, throw, try_catch, gets, modify in *;
  cbn in *.

Lemma calls_app (a b : list event) : calls (a ++ b) = calls a + calls b.
Proof.
  unfold calls. rewrite filter_app, length_app. lia.
Qed.

Lemma discards_app (a b : list event) :
  discards (a ++ b) = discards a + discards b.
Proof.
  unfold discards. rewrite filter_app, length_app. lia.
Qed.

Lemma failures_app (a b : list event) :
  failures (a ++ b) = failures a ++ failures b.
Proof.
  induction a as [|ev a IH]; [reflexivity|].
  destruct ev; cbn; rewrite ?IH; reflexivity.
Qed.

Lemma calls_cons (ev : event) (tr : list event) :
  calls (ev :: tr) = (if is_call ev then 1 else 0) + calls tr.
Proof.
  unfold calls. cbn [filter]. destruct (is_call ev); cbn [List.length]; lia.
Qed.

Lemma discards_cons (ev : event) (tr : list event) :
  discards (ev :: tr) = (if is_discard ev then 1 else 0) + discards tr.
Proof.
  unfold discards. cbn [filter].
  destruct (is_discard ev); cbn [List.length]; lia.
Qed.

Lemma calls_nil : calls [] = 0.
Proof. reflexivity. Qed.

Lemma discards_nil : discards [] = 0.
Proof. reflexivity. Qed.

Create Rewrite HintDb trace.
#[export] Hint Rewrite calls_app discards_app failures_app calls_cons
  discards_cons calls_nil discards_nil : trace.

(** Count the events of a trace whose recent part is explicit. *)
Ltac count :=
  autorewrite with trace;
  cbn [is_call is_discard failures List.length app];
  repeat match goal with
         | E : calls _ = _ |- _ => rewrite E
         | E : discards _ = _ |- _ => rewrite E
         | E : failures _ = _ |- _ => rewrite E
         end;
  cbn [List.length app hd_error];
  try reflexivity; try lia.

Section Facts.
Context {Env : Type} `{Driver Env}.


Section Loop.
Context {T : Type}.
Variable operation : PoolRef -> Env -> outcome T * Env.
Variable maxRetries : Z.

(** One iteration of the loop, as an equation. *)
Lemma withRetry_loop_unfold (retryCount : Z) (w : World Env) :
  withRetry_loop operation maxRetries retryCount w =
  if retryCount <=? maxRetries then
    match attempt operation w with
    | (Returned v, w1) => (Returned v, w1)
    | (Threw error, w1) =>
        if retryCount + 1 >? maxRetries
        then (Threw error, caught maxRetries (retryCount + 1) error w1)
        else withRetry_loop operation maxRetries (retryCount + 1)
               (backed_off maxRetries (retryCount + 1) error w1)
    end
  else (Threw max_retries_exceeded, w).
Proof.
  enough (forall b c,
            b = (retryCount <=? maxRetries) ->
            c = (retryCount + 1 >? maxRetries) ->
            withRetry_loop operation maxRetries retryCount w =
            if b then
              match attempt operation w with
              | (Returned v, w1) => (Returned v, w1)
              | (Threw error, w1) =>
                  if c
                  then (Threw error,
                        caught maxRetries (retryCount + 1) error w1)
                  else withRetry_loop operation maxRetries
                         (retryCount + 1)
                         (backed_off maxRetries (retryCount + 1) error w1)
              end
            else (Threw max_retries_exceeded, w))
    as Hgen by (apply Hgen; reflexivity).
  intros b c Hb Hc.
  rewrite withRetry_loop_equation_1.
  unfold withRetry_loop_unfold_clause_1.
  destruct (inspect (retryCount <=? maxRetries)) as [[|] E];
    (assert (Hb' : b = _) by (rewrite Hb; exact E)); clear Hb; subst b;
    [|reflexivity].
  unfold withRetry_loop_unfold_clause_1_clause_2.
  destruct (attempt operation w) as [[v|error] w1]; [reflexivity|].
  unfold withRetry_loop_unfold_clause_1_clause_2_clause_2.
  destruct (inspect (retryCount + 1 >? maxRetries)) as [[|] E'];
    (assert (Hc' : c = _) by (rewrite Hc; exact E')); clear Hc; subst c;
    reflexivity.
Qed.

(** The state the [catch] block leaves. *)
Lemma caught_eq (k : Z) (error : Js.Thrown) (w : World Env) :
  caught maxRetries k error w =
  if resets_pool error
  then mkWorld None (env w)
         (PoolDiscarded
            :: OperationFailedLogged k (maxRetries + 1) error :: trace w)
  else mkWorld (pool w) (env w)
         (OperationFailedLogged k (maxRetries + 1) error :: trace w).
Proof.
  unfold caught. run. destruct (resets_pool error); reflexivity.
Qed.

Lemma backed_off_eq (k : Z) (error : Js.Thrown) (w : World Env) :
  backed_off maxRetries k error w =
  let w' := caught maxRetries k error w in
  mkWorld (pool w') (env w') (Slept (500 * k) :: trace w').
Proof.
  unfold backed_off, caught. run. destruct (resets_pool error); reflexivity.
Qed.


(** A first attempt that returns ends the run. *)
Lemma withRetry_first_attempt (w w1 : World Env) (v : T) :
  0 <= maxRetries ->
  attempt operation w = (Returned v, w1) ->
  withRetry operation maxRetries w = (Returned v, w1).
Proof.
  intros Hmax Ha. unfold withRetry. rewrite withRetry_loop_unfold.
  replace (0 <=? maxRetries) with true by (symmetry; apply Z.leb_le; lia).
  rewrite Ha. reflexivity.
Qed.


(** With a negative bound the loop is not entered: no attempt is made
    and the error after the loop is thrown.  Every call in the file
    leaves the bound at its default, 2. *)
Lemma withRetry_negative_bound (w : World Env) :
  maxRetries < 0 ->
  withRetry operation maxRetries w = (Threw max_retries_exceeded, w).
Proof.
  intros Hneg. unfold withRetry. rewrite withRetry_loop_unfold.
  replace (0 <=? maxRetries) with false by (symmetry; apply Z.leb_gt; lia).
  reflexivity.
Qed.

(** *** Every attempt fails *)

Section Exhaustion.
(** [good] holds of the outside world for as long as the pool can
    be borrowed and the operation fails. *)
Variable good : Env -> Prop.
Hypothesis new_good :
  forall e, good e -> good (snd (ConnectionPool_new e)).
Hypothesis connect_good :
  forall p e, good e ->
    exists e', connect p e = (Returned tt, e') /\ good e'.
Hypothesis operation_fails :
  forall p e, good e ->
    exists error e', operation p e = (Threw error, e') /\ good e'.

Lemma getDbConnection_good (w : World Env) :
  good (env w) ->
  exists p e fresh,
    getDbConnection w =
      (Returned p, mkWorld (Some p) e (fresh ++ trace w))
    /\ quiet fresh /\ good e.
Proof.
  intros Hgood. unfold getDbConnection.
  destruct w as [[p|] e tr]; run.
  - destruct (negb (connected p e) && negb (connecting p e)); cbn.
    + destruct (connect_good p e Hgood) as (e' & -> & Hgood').
      exists p, e', []. repeat split. exact Hgood'.
    + exists p, e, []. repeat split. exact Hgood.
  - pose proof (new_good e Hgood) as Hnew.
    destruct (ConnectionPool_new e) as [p e0]. cbn in *.
    destruct (negb (connected p e0) && negb (connecting p e0)); cbn.
    + destruct (connect_good p e0 Hnew) as (e' & -> & Hgood').
      exists p, e', [PoolCreated p]. repeat split. exact Hgood'.
    + exists p, e0, [PoolCreated p]. repeat split. exact Hnew.
Qed.

Lemma attempt_good (w : World Env) :
  good (env w) ->
  exists error p e e' fresh,
    attempt operation w =
      (Threw error,
       mkWorld (Some p) e' (OperationCalled p :: fresh ++ trace w))
    /\ quiet fresh /\ good e'
    /\ operation p e = (Threw error, e').
Proof.
  intros Hgood.
  destruct (getDbConnection_good w Hgood) as (p & e & fresh & Hg & Hq & He).
  destruct (operation_fails p e He) as (error & e' & Hop & He').
  exists error, p, e, e', fresh. repeat split; try apply Hq; auto.
  unfold attempt, bind. rewrite Hg. run. rewrite Hop. reflexivity.
Qed.

Lemma withRetry_loop_exhausted (n : nat) :
  forall (retryCount : Z) (w : World Env),
    0 <= retryCount ->
    Z.of_nat n = maxRetries - retryCount ->
    good (env w) ->
    exists error w' fresh p e,
      withRetry_loop operation maxRetries retryCount w = (Threw error, w')
      /\ trace w' = fresh ++ trace w
      /\ calls fresh = maxRetries + 1 - retryCount
      /\ Z.of_nat (List.length (failures fresh))
         = maxRetries + 1 - retryCount
      /\ hd_error (failures fresh) = Some (maxRetries + 1, error)
      /\ operation p e = (Threw error, env w').
Proof.
  induction n as [|n IH]; intros retryCount w Hpos Hn Hgood;
    rewrite withRetry_loop_unfold;
    (replace (retryCount <=? maxRetries) with true
       by (symmetry; apply Z.leb_le; lia));
    destruct (attempt_good w Hgood)
      as (error & p & e & e' & quiet_part & -> & (Hc & Hd & Hf) & He' & Hop).
  - replace (retryCount + 1 >? maxRetries) with true
      by (symmetry; apply Z.gtb_lt; lia).
    rewrite caught_eq. cbn [pool env trace].
    replace retryCount with maxRetries in * by lia.
    destruct (resets_pool error);
      exists error; eexists; eexists; exists p, e;
      (split; [reflexivity|]); cbn [trace env];
      (split; [rewrite !app_comm_cons; reflexivity|]);
      repeat split; auto; count.
  - replace (retryCount + 1 >? maxRetries) with false
      by (symmetry; rewrite Z.gtb_ltb; apply Z.ltb_ge; lia).
    rewrite backed_off_eq, caught_eq. cbn zeta.
    set (w1 := mkWorld (Some p) e'
                 (OperationCalled p :: quiet_part ++ trace w)).
    set (w2 := mkWorld _ _ _).
    assert (Hw2 : env w2 = e' /\
                  exists mid, trace w2 = mid ++ trace w
                              /\ calls mid = 1
                              /\ failures mid = [(retryCount + 1, error)]).
    { subst w2 w1. destruct (resets_pool error); cbn [pool env trace];
        (split; [reflexivity|]); eexists;
        (split; [rewrite !app_comm_cons; reflexivity|]);
        split; count. }
    destruct Hw2 as (Henv & mid & Hmid & Hcm & Hfm).
    destruct (IH (retryCount + 1) w2) as
      (error' & w' & fresh & p' & e0 & Hrun & Htr & Hcalls & Hlen & Hhd & Hop');
      [lia | lia | rewrite Henv; exact He' |].
    exists error', w', (fresh ++ mid), p', e0.
    repeat split; auto.
    + rewrite Htr, Hmid, app_assoc. reflexivity.
    + rewrite calls_app. lia.
    + rewrite failures_app, length_app, Hfm. cbn [List.length]. lia.
    + rewrite failures_app. destruct (failures fresh); [discriminate|].
      exact Hhd.
Qed.


(** C2.  When the pool can be borrowed and the operation fails on
    every attempt, [withRetry] calls the operation exactly
    [maxRetries + 1] times, logs that many failed attempts, and
    then throws the error of the last of them: the error of the
    call of the operation that left the outside world as it is at
    the end. *)
Theorem withRetry_exhausted (w : World Env) :
  0 <= maxRetries ->
  good (env w) ->
  exists error w' fresh p e,
    withRetry operation maxRetries w = (Threw error, w')
    /\ trace w' = fresh ++ trace w
    /\ calls fresh = maxRetries + 1
    /\ Z.of_nat (List.length (failures fresh)) = maxRetries + 1
    /\ hd_error (failures fresh) = Some (maxRetries + 1, error)
    /\ operation p e = (Threw error, env w').
Proof.
  intros Hmax Hgood. unfold withRetry.
  destruct (withRetry_loop_exhausted (Z.to_nat maxRetries) 0 w)
    as (error & w' & fresh & p & e & Hrun & Htr & Hc & Hl & Hh & Hop);
    [lia | lia | exact Hgood |].
  exists error, w', fresh, p, e.
  rewrite Z.sub_0_r in Hc, Hl. auto 10.
Qed.

End Exhaustion.


(** *** A failure followed by another attempt *)

(** The pool after the [catch] block. *)
Lemma pool_caught (k : Z) (error : Js.Thrown) (w : World Env) :
  pool (caught maxRetries k error w)
  = if resets_pool error then None else pool w.
Proof.
  rewrite caught_eq. destruct (resets_pool error); reflexivity.
Qed.

(** C1, as the code has it.  A failed attempt is followed by another
    attempt whenever one is left, whatever the class of the error:
    the run goes on from the state the back-off leaves, and a later
    success is the result of the run.  The error reaches the caller
    only from attempt [maxRetries + 1].  The class of the error
    decides one thing, whether the pool is discarded. *)
Theorem withRetry_retries_every_failure
    (retryCount : Z) (w w1 : World Env) (error : Js.Thrown) :
  0 <= retryCount <= maxRetries ->
  attempt operation w = (Threw error, w1) ->
  pool (caught maxRetries (retryCount + 1) error w1)
    = (if Spec.transient error then None else pool w1)
  /\ (retryCount < maxRetries ->
      withRetry_loop operation maxRetries retryCount w
        = withRetry_loop operation maxRetries (retryCount + 1)
            (backed_off maxRetries (retryCount + 1) error w1)
      /\ forall v w2,
           attempt operation
             (backed_off maxRetries (retryCount + 1) error w1)
             = (Returned v, w2) ->
           withRetry_loop operation maxRetries retryCount w
             = (Returned v, w2))
  /\ (retryCount = maxRetries ->
      withRetry_loop operation maxRetries retryCount w
        = (Threw error, caught maxRetries (retryCount + 1) error w1)).
Proof.
  intros Hrange Ha. split; [apply pool_caught|]. split.
  - intros Hlt.
    assert (Hstep :
              withRetry_loop operation maxRetries retryCount w
              = withRetry_loop operation maxRetries (retryCount + 1)
                  (backed_off maxRetries (retryCount + 1) error w1)).
    { rewrite withRetry_loop_unfold, Ha.
      replace (retryCount <=? maxRetries) with true
        by (symmetry; apply Z.leb_le; lia).
      replace (retryCount + 1 >? maxRetries) with false
        by (symmetry; rewrite Z.gtb_ltb; apply Z.ltb_ge; lia).
      reflexivity. }
    split; [exact Hstep|].
    intros v w2 Hnext. rewrite Hstep, withRetry_loop_unfold, Hnext.
    replace (retryCount + 1 <=? maxRetries) with true
      by (symmetry; apply Z.leb_le; lia).
    reflexivity.
  - intros ->. rewrite withRetry_loop_unfold, Ha.
    replace (maxRetries <=? maxRetries) with true
      by (symmetry; apply Z.leb_le; lia).
    replace (maxRetries + 1 >? maxRetries) with true
      by (symmetry; apply Z.gtb_lt; lia).
    reflexivity.
Qed.

(** *** What every run preserves *)

Section Preservation.
Variable R : Env -> Env -> Prop.
Hypothesis R_refl : forall e, R e e.
Hypothesis R_trans : forall a b c, R a b -> R b c -> R a c.
Hypothesis new_R : forall e, R e (snd (ConnectionPool_new e)).
Hypothesis connect_R : forall p e, R e (snd (connect p e)).
Hypothesis operation_R : forall p e, R e (snd (operation p e)).

Lemma getDbConnection_preserves (w : World Env) :
  R (env w) (env (snd (getDbConnection w))).
Proof.
  unfold getDbConnection. destruct w as [[p|] e tr]; run.
  - destruct (negb (connected p e) && negb (connecting p e)); cbn;
      [|apply R_refl].
    pose proof (connect_R p e) as Hc.
    destruct (connect p e) as [[[]|error] e']; exact Hc.
  - pose proof (new_R e) as Hn.
    destruct (ConnectionPool_new e) as [p e0]. cbn in *.
    destruct (negb (connected p e0) && negb (connecting p e0)); cbn;
      [|exact Hn].
    pose proof (connect_R p e0) as Hc.
    destruct (connect p e0) as [[[]|error] e']; cbn in *;
      eapply R_trans; eauto.
Qed.

Lemma attempt_preserves (w : World Env) :
  R (env w) (env (snd (attempt operation w))).
Proof.
  pose proof (getDbConnection_preserves w) as Hg.
  unfold attempt, bind.
  destruct (getDbConnection w) as [[p|error] w0]; [|exact Hg].
  run. pose proof (operation_R p (env w0)) as Ho.
  destruct (operation p (env w0)) as [r e']. cbn in *.
  eapply R_trans; eauto.
Qed.

Lemma env_caught (k : Z) (error : Js.Thrown) (w : World Env) :
  env (caught maxRetries k error w) = env w.
Proof.
  rewrite caught_eq. destruct (resets_pool error); reflexivity.
Qed.

Lemma env_backed_off (k : Z) (error : Js.Thrown) (w : World Env) :
  env (backed_off maxRetries k error w) = env w.
Proof.
  rewrite backed_off_eq. cbn. apply env_caught.
Qed.

Lemma withRetry_loop_preserves (n : nat) :
  forall (retryCount : Z) (w : World Env),
    (Z.to_nat (maxRetries + 1 - retryCount) <= n)%nat ->
    R (env w)
      (env (snd (withRetry_loop operation maxRetries retryCount w))).
Proof.
  induction n as [|n IH]; intros retryCount w Hn;
    rewrite withRetry_loop_unfold;
    destruct (Z.leb_spec retryCount maxRetries) as [Hle|Hgt];
    try apply R_refl; try lia.
  pose proof (attempt_preserves w) as Ha.
  destruct (attempt operation w) as [[v|error] w1]; [exact Ha|].
  cbn in Ha. destruct (retryCount + 1 >? maxRetries).
  - cbn. rewrite env_caught. exact Ha.
  - eapply R_trans; [exact Ha|].
    rewrite <- (env_backed_off (retryCount + 1) error w1).
    apply IH. lia.
Qed.

Lemma withRetry_preserves (w : World Env) :
  R (env w) (env (snd (withRetry operation maxRetries w))).
Proof.
  unfold withRetry. eapply withRetry_loop_preserves. reflexivity.
Qed.

End Preservation.

End Loop.

(** *** Two transient failures, then a success *)

Section ThirdAttempt.
Context {T : Type}.
Variable operation : PoolRef -> Env -> outcome T * Env.




End ThirdAttempt.
End Facts.
End RetryFacts.

(** ** The repository on a healthy server *)

Module DatabaseFacts.
Import Pool Sql Database Spec RetryFacts.

(** Borrowing the pool on a server whose [connect] does not fail: the
    tables, the clock and the scripts are as before, and the pool that
    is returned is open. *)
Lemma getDbConnection_healthy (w : World) :
  connect_faults (env w) = [] ->
  exists p n ps fresh,
    getDbConnection w =
      (Returned p,
       mkWorld (Some p) (set_pools n ps (env w)) (fresh ++ trace w))
    /\ is_open p (set_pools n ps (env w)) = true
    /\ quiet fresh.
Proof.
  intros Hc. unfold getDbConnection.
  destruct w as [[p|] s tr]; cbn [env] in Hc; run.
  - destruct (is_open p s) eqn:Hopen; cbn.
    + exists p, (pools_made s), (open_pools s), [].
      destruct s; repeat split. exact Hopen.
    + unfold pool_connect. rewrite Hc. cbn.
      exists p, (pools_made s), (p :: open_pools s), [].
      repeat split. unfold is_open. cbn. rewrite Nat.eqb_refl. reflexivity.
  - set (p := pools_made s).
    destruct (existsb (Nat.eqb p) (open_pools s)) eqn:Hopen; cbn.
    + exists p, (S p), (open_pools s), [PoolCreated p].
      repeat split. exact Hopen.
    + unfold pool_connect. cbn. rewrite Hc. cbn.
      exists p, (S p), (p :: open_pools s), [PoolCreated p].
      repeat split. unfold is_open. cbn. rewrite Nat.eqb_refl. reflexivity.
Qed.

(** A run on a healthy server whose operation returns: one attempt. *)
Lemma withRetry_healthy {T}
    (operation : PoolRef -> Server -> outcome T * Server) (w : World) :
  connect_faults (env w) = [] ->
  exists p n ps fresh,
    is_open p (set_pools n ps (env w)) = true
    /\ quiet fresh
    /\ forall v s',
         operation p (set_pools n ps (env w)) = (Returned v, s') ->
         withRetry operation 2 w =
           (Returned v,
            mkWorld (Some p) s' (OperationCalled p :: fresh ++ trace w)).
Proof.
  intros Hc.
  destruct (getDbConnection_healthy w Hc)
    as (p & n & ps & fresh & Hg & Ho & Hq).
  exists p, n, ps, fresh. repeat split; try apply Hq; [exact Ho|].
  intros v s' Hop. apply withRetry_first_attempt; [lia|].
  unfold attempt, bind. rewrite Hg. run. rewrite Hop. reflexivity.
Qed.

(** A statement sent over an open pool of a server with no query fault
    scripted is executed. *)
Lemma query_healthy {A} (p : PoolRef) (stmt : statement A) (s : Server) :
  is_open p s = true -> query_faults s = [] -> query p stmt s = stmt s.
Proof.
  intros Ho Hq. unfold query. rewrite Ho, Hq. reflexivity.
Qed.


Lemma same_server_trans (a b c : Server) :
  same_server a b -> same_server b c -> same_server a c.
Proof.
  intros (n & ps & ->) (n' & ps' & ->). exists n', ps'. reflexivity.
Qed.

Lemma same_server_healthy (s s' : Server) :
  same_server s s' -> healthy s -> healthy s'.
Proof.
  intros (n & ps & ->) Hh. exact Hh.
Qed.

(** A read-only statement on a healthy server: one attempt, the result
    of the statement, the server as before. *)
Lemma read_healthy {A B} (stmt : statement A) (f : A -> B)
    (rows : Server -> A) (w : World) :
  healthy (env w) ->
  (forall s, stmt s = (Returned (rows s), s)) ->
  (forall n ps s, rows (set_pools n ps s) = rows s) ->
  exists w',
    withRetry (fun pool => (result <- query pool stmt ;; ret (f result))%async)
      2 w
    = (Returned (f (rows (env w))), w')
    /\ same_server (env w) (env w').
Proof.
  intros [Hc Hq] Hstmt Hrows.
  destruct (withRetry_healthy
              (fun pool => (result <- query pool stmt ;; ret (f result))%async)
              w Hc)
    as (p & n & ps & fresh & Ho & _ & Hrun).
  eexists. split.
  - rewrite (Hrun (f (rows (env w))) (set_pools n ps (env w))); [reflexivity|].
    unfold bind, ret. rewrite query_healthy, Hstmt, Hrows; auto.
  - exists n, ps. reflexivity.
Qed.

Lemma getUserWithSubscription_healthy (w : World) (userId : string) :
  healthy (env w) ->
  exists w',
    getUserWithSubscription userId w
    = (Returned (option_map subscription_of
                   (first_or_null (matching (env w) userId))), w')
    /\ same_server (env w) (env w').
Proof.
  intros Hh. unfold getUserWithSubscription.
  destruct (read_healthy (SELECT_subscription userId) first_or_null
              (fun s => map subscription_of (matching s userId)) w Hh)
    as (w' & Hrun & Hsame); try reflexivity.
  exists w'. split; [|exact Hsame].
  rewrite Hrun. destruct (matching (env w) userId); reflexivity.
Qed.

Lemma matching_none (s : Server) (userId : string) :
  (forall r, In r (users s) -> collate s (id r) userId = false) ->
  matching s userId = [].
Proof.
  unfold matching. induction (users s) as [|r rs IH]; intros Hno;
    [reflexivity|].
  cbn. rewrite (Hno r (or_introl eq_refl)). apply IH.
  intros r' Hin. apply Hno. right. exact Hin.
Qed.

(** Whenever the lookup comes back with [null], on whichever attempt,
    the check answers the closed result and does not throw. *)
Lemma canUserUseCharacters_of_null (w w' : World) (userId : string)
    (charactersNeeded : Z) :
  getUserWithSubscription userId w = (Returned None, w') ->
  canUserUseCharacters userId charactersNeeded w
  = (Returned {| canUse := false; currentUsage := Some 0;
                 limit := Js.VNumber 0 |}, w').
Proof.
  intros Hl. unfold canUserUseCharacters, bind. rewrite Hl. reflexivity.
Qed.

(** C5.  For a [userId] that matches no stored user, and any
    [charactersNeeded], [canUserUseCharacters] returns
    [{canUse: false, currentUsage: 0, limit: 0}]; it does not throw. *)
Theorem canUserUseCharacters_unknown_user (w : World) (userId : string)
    (charactersNeeded : Z) :
  healthy (env w) ->
  (forall r, In r (users (env w)) -> collate (env w) (id r) userId = false) ->
  exists w',
    canUserUseCharacters userId charactersNeeded w
    = (Returned {| canUse := false; currentUsage := Some 0;
                   limit := Js.VNumber 0 |}, w')
    /\ same_server (env w) (env w').
Proof.
  intros Hh Hno.
  destruct (getUserWithSubscription_healthy w userId Hh) as (w' & Hl & Hs).
  rewrite (matching_none _ _ Hno) in Hl.
  exists w'. split; [|exact Hs].
  apply canUserUseCharacters_of_null. exact Hl.
Qed.

(** *** The tier limits *)

(** For such a tier the lookup [limits[tier] || 5000] is the limit of
    the specification. *)
Lemma userLimit_own_tier (tier : option string) :
  own_tier tier ->
  Js.or_number (Js.get limits (Js.key_of tier)) 5000
  = Js.VNumber (Spec.tier_limit tier).
Proof.
  unfold own_tier, limits. intros Hown.
  assert (Hget : forall key,
             existsb (String.eqb key) Js.Object_prototype = false ->
             Js.or_number
               (Js.get [("free", 5000); ("pro", 100000); ("premium", 500000)]
                  key) 5000
             = Js.VNumber
                 (if String.eqb key "free" then 5000
                  else if String.eqb key "pro" then 100000
                  else if String.eqb key "premium" then 500000
                  else 5000)).
  { intros key Hkey. cbn [Js.get].
    rewrite (String.eqb_sym "free"), (String.eqb_sym "pro"),
      (String.eqb_sym "premium").
    destruct (String.eqb key "free"); [reflexivity|].
    destruct (String.eqb key "pro"); [reflexivity|].
    destruct (String.eqb key "premium"); [reflexivity|].
    rewrite Hkey. reflexivity. }
  destruct tier as [t|]; cbn [Js.key_of Spec.tier_limit] in *.
  - apply Hget. exact Hown.
  - rewrite Hget by exact Hown. reflexivity.
Qed.

(** X1.  The check for a stored user whose tier is not an inherited name:
    the formula and the limits of the specification. *)
Lemma canUserUseCharacters_own_tier (w : World) (userId : string)
    (charactersNeeded : Z) (u : UserRow) (others : list UserRow) :
  healthy (env w) ->
  matching (env w) userId = u :: others ->
  own_tier (subscriptionStatus u) ->
  exists w',
    canUserUseCharacters userId charactersNeeded w
    = (Returned
         {| canUse :=
              Js.ToNumber (monthlyUsage u) + charactersNeeded
                <=? Spec.tier_limit (subscriptionStatus u);
            currentUsage := monthlyUsage u;
            limit := Js.VNumber (Spec.tier_limit (subscriptionStatus u)) |},
       w')
    /\ same_server (env w) (env w').
Proof.
  intros Hh Hm Hown.
  destruct (getUserWithSubscription_healthy w userId Hh) as (w' & Hl & Hs).
  rewrite Hm in Hl. exists w'. split; [|exact Hs].
  unfold canUserUseCharacters, bind. rewrite Hl.
  cbn [option_map first_or_null subscription_of s_subscriptionStatus
         s_monthlyUsage].
  rewrite userLimit_own_tier by exact Hown. reflexivity.
Qed.


(** *** The dashboard *)

Lemma number_or_0 (x : option Z) : Js.number_or x 0 = Js.ToNumber x.
Proof.
  destruct x as [n|]; cbn; [|reflexivity].
  destruct (Z.eqb_spec n 0); congruence.
Qed.

(** A statement sent alone on a healthy server: one attempt, and the
    server the statement leaves. *)
Lemma statement_healthy {A} (stmt : statement A) (w : World) :
  healthy (env w) ->
  exists n ps w',
    (forall v s',
        stmt (set_pools n ps (env w)) = (Returned v, s') ->
        withRetry (fun pool => query pool stmt) 2 w = (Returned v, w')
        /\ env w' = s').
Proof.
  intros [Hc Hq].
  destruct (withRetry_healthy (fun pool => query pool stmt) w Hc)
    as (p & n & ps & fresh & Ho & _ & Hrun).
  exists n, ps.
  destruct (stmt (set_pools n ps (env w))) as [[v|error] s'] eqn:Hs.
  - eexists. intros v0 s0 [= <- <-]. split.
    + apply Hrun. rewrite query_healthy by auto. exact Hs.
    + reflexivity.
  - exists w. intros v0 s0 [=].
Qed.




(** *** The monthly reset *)

Lemma resetMonthlyUsage_healthy (w : World) :
  healthy (env w) ->
  exists w',
    resetMonthlyUsage w = (Returned tt, w')
    /\ users (env w')
       = map (fun r => if reset_due (GETDATE (env w)) r
                       then reset_row (GETDATE (env w)) r else r)
           (users (env w)).
Proof.
  intros Hh. unfold resetMonthlyUsage.
  destruct (statement_healthy UPDATE_reset_usage w Hh) as (n & ps & w' & Hrun).
  exists w'.
  edestruct Hrun as [Hr He].
  - unfold UPDATE_reset_usage, UPDATE_users.
    replace (forallb _ _) with true; [reflexivity|].
    symmetry. apply forallb_forall. intros r _. apply orb_true_r.
  - split; [exact Hr|]. rewrite He. reflexivity.
Qed.







(** *** What no request lowers *)

Lemma usage_le_refl (a : option Z) : usage_le a a.
Proof. destruct a; cbn; [lia|exact I]. Qed.

Lemma usage_le_trans (a b c : option Z) :
  usage_le a b -> usage_le b c -> usage_le a c.
Proof. destruct a, b, c; cbn; try tauto; lia. Qed.

Lemma never_less_same (s s' : Server) :
  users s' = users s -> usage_never_less s s'.
Proof.
  intros Hu i r Hi. exists r. rewrite Hu.
  split; [exact Hi|]. split; [reflexivity|apply usage_le_refl].
Qed.

Lemma never_less_refl (s : Server) : usage_never_less s s.
Proof. apply never_less_same. reflexivity. Qed.

Lemma never_less_trans (a b c : Server) :
  usage_never_less a b -> usage_never_less b c -> usage_never_less a c.
Proof.
  intros Hab Hbc i r Hi.
  destruct (Hab i r Hi) as (r1 & Hi1 & Hid1 & Hle1).
  destruct (Hbc i r1 Hi1) as (r2 & Hi2 & Hid2 & Hle2).
  exists r2. split; [exact Hi2|]. split; [congruence|].
  eapply usage_le_trans; eauto.
Qed.

Lemma never_less_app (s s' : Server) (extra : list UserRow) :
  users s' = users s ++ extra -> usage_never_less s s'.
Proof.
  intros Hu i r Hi. exists r. rewrite Hu.
  split; [|split; [reflexivity|apply usage_le_refl]].
  rewrite nth_error_app1; [exact Hi|].
  apply nth_error_Some. congruence.
Qed.

Lemma never_less_map (s s' : Server) (f : UserRow -> UserRow) :
  (forall r, id (f r) = id r
             /\ usage_le (monthlyUsage r) (monthlyUsage (f r))) ->
  users s' = map f (users s) ->
  usage_never_less s s'.
Proof.
  intros Hf Hu i r Hi. exists (f r). rewrite Hu.
  split; [|apply Hf]. rewrite nth_error_map, Hi. reflexivity.
Qed.

Create HintDb never_less.
#[export] Hint Resolve never_less_refl never_less_same usage_le_refl
  : never_less.

Lemma connect_never_less (p : PoolRef) (s : Server) :
  usage_never_less s (snd (connect p s)).
Proof.
  cbn. unfold pool_connect. destruct (connect_faults s); auto with never_less.
Qed.

Lemma new_never_less (s : Server) :
  usage_never_less s (snd (ConnectionPool_new s)).
Proof. cbn. auto with never_less. Qed.

Lemma query_never_less {A} (p : PoolRef) (stmt : statement A) (s : Server) :
  (forall s0, usage_never_less s0 (snd (stmt s0))) ->
  usage_never_less s (snd (query p stmt s)).
Proof.
  intros Hs. unfold query. destruct (is_open p s); [|auto with never_less].
  destruct (query_faults s); [apply Hs|auto with never_less].
Qed.

Lemma UPDATE_users_never_less (where_ in_range : UserRow -> bool)
    (set_ : UserRow -> UserRow) (s : Server) :
  (forall r, id (set_ r) = id r
             /\ usage_le (monthlyUsage r) (monthlyUsage (set_ r))) ->
  usage_never_less s (snd (UPDATE_users where_ in_range set_ s)).
Proof.
  intros Hset. unfold UPDATE_users.
  destruct (forallb _ _); [|auto with never_less].
  eapply never_less_map; [|reflexivity].
  intros r. cbn beta. destruct (where_ r); [apply Hset|].
  split; [reflexivity|apply usage_le_refl].
Qed.

Lemma plus_null_le (x : option Z) (n : Z) :
  0 <= n -> usage_le x (plus_null x n).
Proof. destruct x; cbn; [lia|trivial]. Qed.

(** The run of a statement, alone or followed by a pure step. *)
Lemma withRetry_never_less {T}
    (operation : PoolRef -> Server -> outcome T * Server) (w : World) :
  (forall p s, usage_never_less s (snd (operation p s))) ->
  usage_never_less (env w) (env (snd (withRetry operation 2 w))).
Proof.
  intros Hop.
  apply (withRetry_preserves operation 2 usage_never_less
           never_less_refl never_less_trans new_never_less
           connect_never_less Hop).
Qed.

Lemma then_ret_snd {A B} (m : Server -> outcome A * Server) (f : A -> B)
    (s : Server) :
  snd ((x <- m ;; ret (f x))%async s) = snd (m s).
Proof.
  unfold bind, ret. destruct (m s) as [[a|error] s']; reflexivity.
Qed.

Lemma select_never_less {A B} (p : PoolRef) (stmt : statement A)
    (f : A -> B) (s : Server) :
  (forall s0, snd (stmt s0) = s0) ->
  usage_never_less s
    (snd ((result <- query p stmt ;; ret (f result))%async s)).
Proof.
  intros Hs. rewrite then_ret_snd. apply query_never_less.
  intros s0. rewrite Hs. apply never_less_refl.
Qed.

Lemma getUserWithSubscription_never_less (userId : string) (w : World) :
  usage_never_less (env w) (env (snd (getUserWithSubscription userId w))).
Proof.
  apply withRetry_never_less. intros p s.
  apply select_never_less. reflexivity.
Qed.

Lemma getUserAudioFiles_never_less (userId : string) (limit : Z) (w : World) :
  usage_never_less (env w) (env (snd (getUserAudioFiles userId limit w))).
Proof.
  apply withRetry_never_less. intros p s. apply query_never_less.
  intros s0. unfold SELECT_TOP_audio_files.
  destruct (negb (fits_INT limit)); [apply never_less_refl|].
  destruct (limit <? 0); apply never_less_refl.
Qed.

(** C7, as the code has it.  No request other than the monthly reset
    lowers the [monthlyUsage] of a stored user, as long as
    [updateUserUsage] is given a [charactersUsed] that is not negative:
    every row keeps its place and its id, and its usage afterwards is
    at least what it was.  This holds whatever the outcome of the
    request, failures and retries included. *)
Theorem monthlyUsage_never_decreases (r : request) (w : World) :
  r <> ResetMonthlyUsage ->
  (forall userId charactersUsed,
      r = UpdateUserUsage userId charactersUsed -> 0 <= charactersUsed) ->
  usage_never_less (env w) (env (serve r w)).
Proof.
  intros Hreset Hused.
  destruct r; cbn [serve]; try congruence.
  - (* createUser *)
    apply withRetry_never_less. intros p s. apply query_never_less.
    intros s0. unfold INSERT_INTO_users.
    destruct (existsb _ _); [apply never_less_refl|].
    destruct (existsb _ _); [apply never_less_refl|].
    eapply never_less_app. reflexivity.
  - (* findUserByEmail *)
    apply withRetry_never_less. intros p s.
    apply select_never_less. reflexivity.
  - (* findUserById *)
    apply withRetry_never_less. intros p s.
    apply select_never_less. reflexivity.
  - (* updateLoginTracking *)
    apply withRetry_never_less. intros p s. apply query_never_less.
    intros s0. apply UPDATE_users_never_less.
    intros r. split; [reflexivity|apply usage_le_refl].
  - (* getUserLoginHistory *)
    apply withRetry_never_less. intros p s.
    apply select_never_less. reflexivity.
  - apply getUserWithSubscription_never_less.
  - (* updateUserUsage *)
    specialize (Hused userId charactersUsed eq_refl).
    apply withRetry_never_less. intros p s. apply query_never_less.
    intros s0. unfold UPDATE_monthlyUsage.
    destruct (fits_INT charactersUsed); [|apply never_less_refl].
    apply UPDATE_users_never_less.
    intros r. split; [reflexivity|apply plus_null_le; exact Hused].
  - (* canUserUseCharacters *)
    unfold canUserUseCharacters, bind.
    pose proof (getUserWithSubscription_never_less userId w) as Hl.
    destruct (getUserWithSubscription userId w) as [[[u|]|error] w'];
      exact Hl.
  - (* saveAudioFile *)
    apply withRetry_never_less. intros p s.
    unfold bind, new_audio_id, ret.
    match goal with
    | |- context [query p ?stmt ?s1] =>
        pose proof (query_never_less p stmt s1) as Hq;
        destruct (query p stmt s1) as [[[]|error] s2]
    end; cbn [snd] in *;
      (eapply never_less_trans; [|apply Hq]);
      try (apply never_less_same; reflexivity);
      intros s0; unfold INSERT_INTO_audio_files;
      repeat match goal with
             | |- context [if ?b then _ else _] => destruct b
             end; apply never_less_same; reflexivity.
  - apply getUserAudioFiles_never_less.
  - (* getUserDashboard *)
    unfold getUserDashboard, bind.
    pose proof (getUserWithSubscription_never_less userId w) as Hl.
    destruct (getUserWithSubscription userId w) as [[u|error] w1];
      [|exact Hl].
    pose proof (getUserAudioFiles_never_less userId 5 w1) as Hf.
    cbn [snd] in Hl.
    destruct (getUserAudioFiles userId 5 w1) as [[files|error] w2];
      cbn [snd] in *; eapply never_less_trans; eauto.
Qed.


(** *** Audio records *)

Lemma existsb_none {A} (f : A -> bool) (l : list A) :
  (forall x, In x l -> f x = false) -> existsb f l = false.
Proof.
  intros Hno. destruct (existsb f l) eqn:He; [|reflexivity].
  apply existsb_exists in He. destruct He as (x & Hin & Hx).
  rewrite (Hno x Hin) in Hx. discriminate.
Qed.

Lemma filter_none {A} (f : A -> bool) (l : list A) :
  (forall x, In x l -> f x = false) -> filter f l = [].
Proof.
  induction l as [|x l IH]; intros Hno; [reflexivity|].
  cbn. rewrite (Hno x (or_introl eq_refl)). apply IH.
  intros y Hy. apply Hno. right. exact Hy.
Qed.

(** C9.  [saveAudioFile] turns falsy optional fields into [NULL]
    before the insert: a [fileSize] of 0 is stored as [NULL] and an
    empty [voice] is stored as [NULL]; and the function returns the id
    it generated, which is the id of the row it stored.  The insert
    goes through on a healthy server when the user exists, the id is
    new and the size is an [INT]. *)
Theorem saveAudioFile_stores_null (w : World) (audioData : AudioData) :
  let audioId :=
    audio_id (Date_now (env w))
      (Math_random (env w) (random_draws (env w))) in
  healthy (env w) ->
  (exists r, In r (users (env w))
             /\ collate (env w) (id r) (d_userId audioData) = true) ->
  (forall r, In r (audio_files (env w)) ->
             collate (env w) (a_id r) audioId = false) ->
  (forall n, d_fileSize audioData = Some n -> fits_INT n = true) ->
  exists w' row,
    saveAudioFile audioData w = (Returned audioId, w')
    /\ audio_files (env w') = audio_files (env w) ++ [row]
    /\ a_id row = audioId
    /\ a_voice row = Js.string_or_null (d_voice audioData)
    /\ a_fileSize row = Js.number_or_null (d_fileSize audioData)
    /\ (d_fileSize audioData = Some 0 -> a_fileSize row = None)
    /\ (d_voice audioData = Some "" -> a_voice row = None).
Proof.
  intros audioId [Hc Hq] (r & Hin & Hr) Hnew Hsize. subst audioId.
  unfold saveAudioFile.
  match goal with
  | |- context [withRetry ?op 2 w] =>
      destruct (withRetry_healthy op w Hc)
        as (p & n & ps & fresh & Ho & _ & Hrun)
  end.
  eexists _, _. split.
  - apply Hrun. unfold bind, new_audio_id, ret.
    rewrite query_healthy; [|exact Ho|exact Hq].
    unfold INSERT_INTO_audio_files.
    cbn [collate users audio_files set_random_draws set_pools Date_now
           Math_random random_draws GETDATE].
    replace (fits_INT_param (Js.number_or_null (d_fileSize audioData)))
      with true.
    2:{ symmetry. destruct (d_fileSize audioData) as [k|]; cbn; auto.
        destruct (k =? 0); cbn; auto. }
    rewrite (existsb_none _ _ Hnew).
    replace (existsb _ (users (env w))) with true.
    2:{ symmetry. apply existsb_exists. exists r. auto. }
    cbn [negb]. reflexivity.
  - cbn [env audio_files set_audio_files a_id a_voice a_fileSize].
    repeat split.
    + intros ->. reflexivity.
    + intros ->. reflexivity.
Qed.

(** *** Creating a user and finding it by email *)

(** [createUser] stores the email as it is given. *)
Lemma createUser_healthy (w : World) (user : NewUser) :
  healthy (env w) ->
  (forall r, In r (users (env w)) ->
             collate (env w) (id r) (u_id user) = false) ->
  (forall r, In r (users (env w)) ->
             collate (env w) (email r) (u_email user) = false) ->
  exists n ps w',
    createUser user w = (Returned tt, w')
    /\ env w'
       = set_users (users (env w) ++ [created_row (GETDATE (env w)) user])
           (set_pools n ps (env w)).
Proof.
  intros Hh Hid Hemail. unfold createUser.
  destruct (statement_healthy
              (INSERT_INTO_users (u_id user) (u_email user) (u_name user)
                 (u_password user)) w Hh) as (n & ps & w' & Hrun).
  exists n, ps, w'. apply Hrun.
  unfold INSERT_INTO_users. cbn [collate users set_pools GETDATE].
  rewrite (existsb_none _ _ Hid), (existsb_none _ _ Hemail). reflexivity.
Qed.








End DatabaseFacts.

(** ** The properties on the example worlds *)

Module Checks.
Import Pool Sql Database Spec Examples RetryFacts DatabaseFacts.

(** C1 fails as stated: a unique-constraint violation is not a
    transient error, and yet [createUser] runs the insert three times
    before the error reaches the caller; and a failure that is not
    transient, followed by an attempt that returns, does not reach the
    caller at all. *)
Lemma permanent_failure_is_retried :
  Spec.transient unique_key_violation = false
  /\ fst (createUser duplicate world_of_ada) = Threw unique_key_violation
  /\ calls (trace (snd (createUser duplicate world_of_ada))) = 3
  /\ failures (trace (snd (createUser duplicate world_of_ada)))
     = [(3, unique_key_violation); (2, unique_key_violation);
        (1, unique_key_violation)]
  /\ let deadlock := Js.Error "Transaction was deadlocked." in
     let w := fresh_start
                (mkServer binary_collation [ada] [] feb_14 [] [deadlock]
                   0 [] 0 (fun _ => "") 0) in
     Spec.transient deadlock = false
     /\ fst (attempt (select_user "u1") w) = Threw deadlock
     /\ fst (findUserById "u1" w) = Returned (Some ada)
     /\ calls (trace (snd (findUserById "u1" w))) = 2.
Proof. vm_compute. repeat split; reflexivity. Qed.

(** C1, amended, on the insert of a duplicate: the first attempt fails
    with the constraint violation, the pool is kept, and the run goes on
    with a second attempt. *)
Lemma withRetry_retries_every_failure_witness :
  let w1 := snd (attempt (insert_user duplicate) world_of_ada) in
  attempt (insert_user duplicate) world_of_ada
    = (Threw unique_key_violation, w1)
  /\ pool (caught 2 1 unique_key_violation w1) = pool w1
  /\ withRetry_loop (insert_user duplicate) 2 0 world_of_ada
     = withRetry_loop (insert_user duplicate) 2 1
         (backed_off 2 1 unique_key_violation w1).
Proof.
  intros w1.
  assert (Ha : attempt (insert_user duplicate) world_of_ada
               = (Threw unique_key_violation, w1)) by reflexivity.
  split; [exact Ha|].
  destruct (withRetry_retries_every_failure (insert_user duplicate) 2 0
              world_of_ada w1 unique_key_violation
              ltac:(lia) Ha) as (Hpool & Hnext & _).
  split; [exact Hpool|]. apply Hnext. lia.
Defined.

(** C2 on the insert of a duplicate, which fails on every attempt. *)
Lemma withRetry_exhausted_witness :
  exists error w' fresh p e,
    withRetry (insert_user duplicate) 2 world_of_ada = (Threw error, w')
    /\ trace w' = fresh ++ trace world_of_ada
    /\ calls fresh = 2 + 1
    /\ Z.of_nat (List.length (failures fresh)) = 2 + 1
    /\ hd_error (failures fresh) = Some (2 + 1, error)
    /\ insert_user duplicate p e = (Threw error, env w').
Proof.
  apply (withRetry_exhausted (insert_user duplicate) 2 duplicate_refused).
  - intros e (Hc & Hq & Hu & Hcol). repeat split; assumption.
  - intros p e (Hc & Hq & Hu & Hcol). cbn. unfold pool_connect.
    rewrite Hc. eexists. split; [reflexivity|]. repeat split; assumption.
  - intros p e (Hc & Hq & Hu & Hcol).
    unfold insert_user, query, INSERT_INTO_users.
    rewrite Hq, Hu, Hcol.
    destruct (is_open p e); eexists _, e;
      (split; [reflexivity|repeat split; assumption]).
  - lia.
  - repeat split; reflexivity.
Defined.


(** C3 at a tier named like an inherited member: the user has used
    nothing and asks for one character, the limit of the specification
    is 5000, and the check refuses, reporting as limit the inherited
    member and not 5000. *)
Theorem canUserUseCharacters_inherited_tier :
  let u := stored "u1" "ada@example.com" (Some "constructor") 0 jan_15 in
  let w := fresh_start (server binary_collation [u] feb_14) in
  fst (canUserUseCharacters "u1" 1 w)
    = Returned {| canUse := false; currentUsage := Some 0;
                  limit := Js.VInherited "constructor" |}
  /\ Spec.tier_limit (Some "constructor") = 5000
  /\ (0 + 1 <=? Spec.tier_limit (Some "constructor")) = true.
Proof. vm_compute. repeat split; reflexivity. Qed.

(** The examples of the specification: a free user at 4999. *)
Example canUserUseCharacters_4999 :
  fst (canUserUseCharacters "u1" 2 world_of_ada)
    = Returned {| canUse := false; currentUsage := Some 4999;
                  limit := Js.VNumber 5000 |}
  /\ fst (canUserUseCharacters "u1" 1 world_of_ada)
     = Returned {| canUse := true; currentUsage := Some 4999;
                   limit := Js.VNumber 5000 |}.
Proof. vm_compute. split; reflexivity. Qed.


(** A row stamped on 1 January is left alone on 31 January. *)
Example no_reset_within_the_calendar_month :
  let w := fresh_start
             (server binary_collation
                [stored "u1" "ada@example.com" (Some "free") 4999 jan_1]
                jan_31) in
  users (env (snd (resetMonthlyUsage w))) = users (env w).
Proof. vm_compute. reflexivity. Qed.


(** C5 for an id that is not stored. *)
Lemma canUserUseCharacters_unknown_user_witness :
  exists w',
    canUserUseCharacters "nobody" 10 world_of_ada
    = (Returned {| canUse := false; currentUsage := Some 0;
                   limit := Js.VNumber 0 |}, w').
Proof.
  destruct (canUserUseCharacters_unknown_user world_of_ada "nobody" 10)
    as (w' & Hrun & _).
  - split; reflexivity.
  - intros r [<-|[]]. reflexivity.
  - exists w'. exact Hrun.
Defined.

(** C6 on a database whose collation is binary: the user is created
    with the email as given, capital letter included, and the lookup by
    an email that differs in case only finds no one. *)
Theorem findUserByEmail_misses_mixed_case_email :
  let w := fresh_start (server binary_collation [] feb_14) in
  let created := createUser (mkNewUser "u1" "a@B.com" "Ada" "hash") w in
  fst created = Returned tt
  /\ map email (users (env (snd created))) = ["a@B.com"]
  /\ Js.toLowerCase "A@b.COM" = Js.toLowerCase "a@B.com"
  /\ fst (findUserByEmail "A@b.COM" (snd created)) = Returned None
  /\ fst (findUserByEmail "a@B.com" (snd created)) = Returned None.
Proof. vm_compute. repeat split; reflexivity. Qed.

(** C7 fails as stated: a negative [charactersUsed] lowers the usage. *)
Lemma updateUserUsage_negative_lowers_usage :
  map monthlyUsage (users (env world_of_ada)) = [Some 4999]
  /\ fst (updateUserUsage "u1" (-1) world_of_ada) = Returned tt
  /\ map monthlyUsage
       (users (env (snd (updateUserUsage "u1" (-1) world_of_ada))))
     = [Some 4998].
Proof. vm_compute. repeat split; reflexivity. Qed.

(** C7, amended, for a usage of two characters. *)
Lemma monthlyUsage_never_decreases_witness :
  usage_never_less (env world_of_ada)
    (env (serve (UpdateUserUsage "u1" 2) world_of_ada)).
Proof.
  apply (monthlyUsage_never_decreases (UpdateUserUsage "u1" 2) world_of_ada).
  - discriminate.
  - intros userId n [= _ <-]. lia.
Defined.

(** C9 on [silent_clip]. *)
Lemma saveAudioFile_stores_null_witness :
  exists w' row,
    saveAudioFile silent_clip world_of_ada
      = (Returned "audio_1739491200000_k3x9q0zab", w')
    /\ audio_files (env w') = [row]
    /\ a_id row = "audio_1739491200000_k3x9q0zab"
    /\ a_fileSize row = None
    /\ a_voice row = None.
Proof.
  destruct (saveAudioFile_stores_null world_of_ada silent_clip)
    as (w' & row & Hrun & Hfiles & Hid & _ & _ & Hsize & Hvoice).
  - split; reflexivity.
  - exists ada. split; [left; reflexivity|reflexivity].
  - intros r [].
  - intros n [= <-]. reflexivity.
  - exists w', row. repeat split; auto.
Defined.


End Checks.

(** ** The pool manager and the retry executor, in every run *)

Module PoolFacts.
Import Pool Waiting RetryFacts.

Lemma slept_app (a b : list event) : slept (a ++ b) = slept a + slept b.
Proof.
  induction a as [|ev a IH]; [reflexivity|].
  destruct ev; cbn [app slept]; rewrite ?IH; lia.
Qed.

Lemma pools_created_app (a b : list event) :
  pools_created (a ++ b) = pools_created a + pools_created b.
Proof.
  induction a as [|ev a IH]; [reflexivity|].
  destruct ev; cbn [app pools_created]; rewrite ?IH; lia.
Qed.

Section Manager.
Context {Env : Type} `{Driver Env}.

Lemma getDbConnection_made (w : World Env) :
  exists p e,
    (forall q, pool w = Some q -> p = q)
    /\ (getDbConnection w
        = (Returned p, mkWorld (Some p) e (made_for (pool w) p ++ trace w))
        \/ exists error,
             getDbConnection w
             = (Threw error,
                mkWorld None e
                  (PoolDiscarded :: ConnectionFailedLogged error
                     :: made_for (pool w) p ++ trace w))).
Proof.
  unfold getDbConnection. destruct w as [[q|] e tr]; run.
  - exists q.
    destruct (negb (connected q e) && negb (connecting q e)); cbn.
    + destruct (connect q e) as [[[]|error] e']; exists e';
        (split; [intros ? [= <-]; reflexivity|]); [left|right; exists error];
        reflexivity.
    + exists e. split; [intros ? [= <-]; reflexivity|]. left. reflexivity.
  - destruct (ConnectionPool_new e) as [p e0]. cbn. exists p.
    destruct (negb (connected p e0) && negb (connecting p e0)); cbn.
    + destruct (connect p e0) as [[[]|error] e']; exists e';
        (split; [discriminate|]); [left|right; exists error]; reflexivity.
    + exists e0. split; [discriminate|]. left. reflexivity.
Qed.

(** X4.  [getDbConnection] keeps the pool a singleton: a pool the module
    holds is returned as it is, with no other pool made; a pool is made
    only when the module holds none, and it is then the one the module
    holds; after a failure the module holds none. *)
Theorem getDbConnection_singleton (w : World Env) :
  match getDbConnection w with
  | (Returned p, w') =>
      pool w' = Some p
      /\ match pool w with
         | Some q => p = q /\ trace w' = trace w
         | None => trace w' = PoolCreated p :: trace w
         end
  | (Threw error, w') =>
      pool w' = None
      /\ exists made,
           trace w'
           = PoolDiscarded :: ConnectionFailedLogged error :: made ++ trace w
           /\ pools_created made = match pool w with Some _ => 0 | None => 1 end
  end.
Proof.
  destruct (getDbConnection_made w) as (p & e & Hheld & [->|(error & ->)]).
  - split; [reflexivity|]. cbn [trace]. destruct (pool w) as [q|].
    + split; [apply Hheld|]; reflexivity.
    + reflexivity.
  - split; [reflexivity|]. exists (made_for (pool w) p).
    split; [reflexivity|]. destruct (pool w); reflexivity.
Qed.

Section Run.
Context {T : Type}.
Variable operation : PoolRef -> Env -> outcome T * Env.
Variable maxRetries : Z.

(** One attempt extends the trace by the pool it may have made and
    then either by the failed connection or by the call. *)
Lemma attempt_trace (w : World Env) :
  exists fresh,
    trace (snd (attempt operation w)) = fresh ++ trace w
    /\ 0 <= calls fresh <= 1
    /\ slept fresh = 0
    /\ failures fresh = []
    /\ (forall v, fst (attempt operation w) = Returned v -> calls fresh = 1).
Proof.
  unfold attempt, bind.
  destruct (getDbConnection_made w) as (p & e & _ & [->|(error & ->)]).
  - run. destruct (operation p e) as [r e']. cbn [snd fst trace].
    exists (OperationCalled p :: made_for (pool w) p).
    destruct (pool w); repeat split; cbn; lia.
  - cbn [snd fst trace].
    exists (PoolDiscarded :: ConnectionFailedLogged error
              :: made_for (pool w) p).
    destruct (pool w); repeat split; cbn; try lia; discriminate.
Qed.

(** The failed attempts and the waits of the iterations from
    [retryCount] on. *)
Lemma withRetry_loop_bounded (n : nat) :
  forall (retryCount : Z) (w : World Env),
    0 <= retryCount <= maxRetries ->
    Z.of_nat n = maxRetries - retryCount ->
    exists fresh,
      trace (snd (withRetry_loop operation maxRetries retryCount w))
      = fresh ++ trace w
      /\ let k := Z.of_nat (List.length (failures fresh)) in
         let r := retryCount in
         match fst (withRetry_loop operation maxRetries retryCount w) with
         | Returned _ =>
             r + k <= maxRetries
             /\ 1 <= calls fresh <= k + 1
             /\ slept fresh = 250 * ((r + k) * (r + k + 1) - r * (r + 1))
         | Threw _ =>
             r + k = maxRetries + 1
             /\ 0 <= calls fresh <= k
             /\ slept fresh
                = 250 * (maxRetries * (maxRetries + 1) - r * (r + 1))
         end.
Proof.
  induction n as [|n IH]; intros retryCount w Hr Hn;
    rewrite withRetry_loop_unfold;
    (replace (retryCount <=? maxRetries) with true
       by (symmetry; apply Z.leb_le; lia));
    destruct (attempt_trace w) as (first & Ht & Hc & Hs & Hf & Hret);
    destruct (attempt operation w) as [[v|error] w1]; cbn [fst snd] in *.
  - exists first. split; [exact Ht|]. cbn zeta. rewrite Hf, Hs.
    specialize (Hret v eq_refl). cbn [List.length]. lia.
  - replace (retryCount + 1 >? maxRetries) with true
      by (symmetry; apply Z.gtb_lt; lia).
    cbn [fst snd]. rewrite caught_eq.
    destruct (resets_pool error); cbn [trace]; rewrite Ht;
      eexists; (split; [rewrite !app_comm_cons; reflexivity|]);
      cbn zeta; cbn [failures slept List.length]; rewrite ?calls_cons;
      cbn [is_call]; rewrite Hf, Hs; cbn [List.length]; nia.
  - exists first. split; [exact Ht|]. cbn zeta. rewrite Hf, Hs.
    specialize (Hret v eq_refl). cbn [List.length]. lia.
  - replace (retryCount + 1 >? maxRetries) with false
      by (symmetry; rewrite Z.gtb_ltb; apply Z.ltb_ge; lia).
    assert (Hmid : exists mid,
               trace (backed_off maxRetries (retryCount + 1) error w1)
               = mid ++ trace w
               /\ calls mid = calls first
               /\ slept mid = 500 * (retryCount + 1)
               /\ failures mid = [(retryCount + 1, error)]).
    { rewrite backed_off_eq, caught_eq. cbn zeta.
      destruct (resets_pool error); cbn [pool env trace]; rewrite Ht;
        eexists; (split; [rewrite !app_comm_cons; reflexivity|]);
        cbn [failures slept]; rewrite ?calls_cons; cbn [is_call];
        rewrite Hf, Hs; repeat split; lia. }
    destruct (IH (retryCount + 1)
                (backed_off maxRetries (retryCount + 1) error w1))
      as (rest & Hrest & Hres); [lia|lia|].
    set (next := withRetry_loop operation maxRetries (retryCount + 1) _)
      in *.
    destruct Hmid as (mid & Hmid & Hcm & Hsm & Hfm).
    exists (rest ++ mid). split; [rewrite Hrest, Hmid, app_assoc; reflexivity|].
    cbn zeta in *. rewrite failures_app, length_app, calls_app, slept_app.
    rewrite Hfm, Hcm, Hsm. cbn [List.length].
    destruct (fst next); nia.
Qed.

(** X5.  In every run with a bound that is not negative, [withRetry] makes
    at most [maxRetries + 1] attempts and logs each failed one.  A run
    that returns has failed [k <= maxRetries] times, called the operation
    at least once, and waited 500, 1000, ..., 500 k milliseconds; a run
    that throws has failed [maxRetries + 1] times and waited 500, ...,
    500 maxRetries milliseconds: there is no wait after the last
    attempt. *)
Theorem withRetry_bounded (w : World Env) :
  0 <= maxRetries ->
  exists fresh,
    trace (snd (withRetry operation maxRetries w)) = fresh ++ trace w
    /\ let k := Z.of_nat (List.length (failures fresh)) in
       match fst (withRetry operation maxRetries w) with
       | Returned _ =>
           k <= maxRetries
           /\ 1 <= calls fresh <= k + 1
           /\ slept fresh = 250 * (k * (k + 1))
       | Threw _ =>
           k = maxRetries + 1
           /\ 0 <= calls fresh <= k
           /\ slept fresh = 250 * (maxRetries * (maxRetries + 1))
       end.
Proof.
  intros Hmax. unfold withRetry.
  destruct (withRetry_loop_bounded (Z.to_nat maxRetries) 0 w)
    as (fresh & Ht & Hres); [lia|lia|].
  exists fresh. split; [exact Ht|]. cbn zeta in *.
  destruct (fst (withRetry_loop operation maxRetries 0 w));
    rewrite ?Z.add_0_l in Hres; nia.
Qed.

(** A run that throws has logged [maxRetries + 1] failed attempts and
    waited after all but the last. *)
Lemma withRetry_thrown (w w' : World Env) (error : Js.Thrown) :
  0 <= maxRetries ->
  withRetry operation maxRetries w = (Threw error, w') ->
  gave_up_after (Z.to_nat (maxRetries + 1))
    (250 * (maxRetries * (maxRetries + 1))) (trace w) (trace w').
Proof.
  intros Hmax Hrun. unfold withRetry in Hrun.
  destruct (withRetry_loop_bounded (Z.to_nat maxRetries) 0 w)
    as (fresh & Ht & Hres); [lia|lia|].
  rewrite Hrun in Ht, Hres. cbn [fst snd] in *. cbn zeta in Hres.
  exists fresh. split; [exact Ht|]. split; [lia|].
  rewrite ?Z.add_0_l in Hres. nia.
Qed.

Lemma withRetry_loop_thrown (n : nat) :
  forall (retryCount : Z) (w w' : World Env) (error : Js.Thrown),
    0 <= retryCount <= maxRetries ->
    Z.of_nat n = maxRetries - retryCount ->
    withRetry_loop operation maxRetries retryCount w = (Threw error, w') ->
    exists w0 w1,
      attempt operation w0 = (Threw error, w1)
      /\ w' = caught maxRetries (maxRetries + 1) error w1.
Proof.
  induction n as [|n IH]; intros retryCount w w' error Hr Hn;
    rewrite withRetry_loop_unfold;
    (replace (retryCount <=? maxRetries) with true
       by (symmetry; apply Z.leb_le; lia));
    destruct (attempt operation w) as [[v|e] w1] eqn:Ha; try discriminate.
  - replace (retryCount + 1 >? maxRetries) with true
      by (symmetry; apply Z.gtb_lt; lia).
    intros [= <- <-]. exists w, w1. split; [exact Ha|].
    replace (maxRetries + 1) with (retryCount + 1) by lia. reflexivity.
  - replace (retryCount + 1 >? maxRetries) with false
      by (symmetry; rewrite Z.gtb_ltb; apply Z.ltb_ge; lia).
    apply IH; lia.
Qed.

(** X6.  [withRetry] does not replace the error: with a bound that is not
    negative, what a run throws is what its last attempt threw, the
    error of [connect] or of the operation, and the world is the one
    that attempt left, with the failure logged.  So the final
    [throw new Error('Max retries exceeded')] is not reached. *)
Theorem withRetry_rethrows_the_last_error (w w' : World Env)
    (error : Js.Thrown) :
  0 <= maxRetries ->
  withRetry operation maxRetries w = (Threw error, w') ->
  exists w0 w1,
    attempt operation w0 = (Threw error, w1)
    /\ w' = caught maxRetries (maxRetries + 1) error w1.
Proof.
  intros Hmax Hrun. unfold withRetry in Hrun.
  apply (withRetry_loop_thrown (Z.to_nat maxRetries) 0 w w' error);
    [lia|lia|exact Hrun].
Qed.

(** *** An operation that is refused every time *)

Section Refused.
Variable good : Env -> Prop.
Variable refusal : Js.Thrown.
Hypothesis attempt_refused :
  forall w, good (env w) ->
    exists w1, attempt operation w = (Threw refusal, w1) /\ good (env w1).

Lemma withRetry_loop_refused (n : nat) :
  forall (retryCount : Z) (w : World Env),
    0 <= retryCount <= maxRetries ->
    Z.of_nat n = maxRetries - retryCount ->
    good (env w) ->
    exists w',
      withRetry_loop operation maxRetries retryCount w = (Threw refusal, w')
      /\ good (env w').
Proof.
  induction n as [|n IH]; intros retryCount w Hr Hn Hgood;
    rewrite withRetry_loop_unfold;
    (replace (retryCount <=? maxRetries) with true
       by (symmetry; apply Z.leb_le; lia));
    destruct (attempt_refused w Hgood) as (w1 & -> & Hgood1).
  - replace (retryCount + 1 >? maxRetries) with true
      by (symmetry; apply Z.gtb_lt; lia).
    eexists. split; [reflexivity|]. rewrite caught_eq.
    destruct (resets_pool refusal); exact Hgood1.
  - replace (retryCount + 1 >? maxRetries) with false
      by (symmetry; rewrite Z.gtb_ltb; apply Z.ltb_ge; lia).
    apply IH; [lia|lia|].
    rewrite backed_off_eq, caught_eq. cbn zeta.
    destruct (resets_pool refusal); exact Hgood1.
Qed.

Lemma withRetry_refused (w : World Env) :
  0 <= maxRetries ->
  good (env w) ->
  exists w',
    withRetry operation maxRetries w = (Threw refusal, w') /\ good (env w').
Proof.
  intros Hmax Hgood. unfold withRetry.
  apply (withRetry_loop_refused (Z.to_nat maxRetries)); auto; lia.
Qed.

End Refused.

End Run.
End Manager.
End PoolFacts.

(** ** The repository: lookups, conflicts, and what reads leave alone *)

Module RepositoryFacts.
Import Pool Sql Database Spec Waiting Frame RetryFacts PoolFacts.
Import DatabaseFacts.

Lemma same_tables_refl (s : Server) : same_tables s s.
Proof. split; reflexivity. Qed.

Lemma same_tables_trans (a b c : Server) :
  same_tables a b -> same_tables b c -> same_tables a c.
Proof. intros [Hu Ha] [Hu' Ha']. split; congruence. Qed.

Lemma connect_same_tables (p : PoolRef) (s : Server) :
  same_tables s (snd (connect p s)).
Proof.
  cbn. unfold pool_connect. destruct (connect_faults s); split; reflexivity.
Qed.

Lemma new_same_tables (s : Server) :
  same_tables s (snd (ConnectionPool_new s)).
Proof. split; reflexivity. Qed.

Lemma query_same_tables {A} (p : PoolRef) (stmt : statement A) (s : Server) :
  (forall s0, same_tables s0 (snd (stmt s0))) ->
  same_tables s (snd (query p stmt s)).
Proof.
  intros Hs. unfold query. destruct (is_open p s); [|apply same_tables_refl].
  destruct (query_faults s); [apply Hs|split; reflexivity].
Qed.

Lemma withRetry_same_tables {T}
    (operation : PoolRef -> Server -> outcome T * Server) (w : World) :
  (forall p s, same_tables s (snd (operation p s))) ->
  same_tables (env w) (env (snd (withRetry operation 2 w))).
Proof.
  intros Hop.
  apply (withRetry_preserves operation 2 same_tables same_tables_refl
           same_tables_trans new_same_tables connect_same_tables Hop).
Qed.

Lemma select_same_tables {A B} (p : PoolRef) (stmt : statement A)
    (f : A -> B) (s : Server) :
  (forall s0, snd (stmt s0) = s0) ->
  same_tables s (snd ((result <- query p stmt ;; ret (f result))%async s)).
Proof.
  intros Hs. rewrite then_ret_snd. apply query_same_tables.
  intros s0. rewrite Hs. apply same_tables_refl.
Qed.

Lemma getUserWithSubscription_same_tables (userId : string) (w : World) :
  same_tables (env w) (env (snd (getUserWithSubscription userId w))).
Proof.
  apply withRetry_same_tables. intros p s.
  apply select_same_tables. reflexivity.
Qed.

Lemma getUserAudioFiles_same_tables (userId : string) (limit : Z)
    (w : World) :
  same_tables (env w) (env (snd (getUserAudioFiles userId limit w))).
Proof.
  apply withRetry_same_tables. intros p s. apply query_same_tables.
  intros s0. unfold SELECT_TOP_audio_files.
  destruct (negb (fits_INT limit)); [apply same_tables_refl|].
  destruct (limit <? 0); apply same_tables_refl.
Qed.

Lemma canUserUseCharacters_same_tables (userId : string) (n : Z)
    (w : World) :
  same_tables (env w) (env (snd (canUserUseCharacters userId n w))).
Proof.
  unfold canUserUseCharacters, bind.
  pose proof (getUserWithSubscription_same_tables userId w) as Hl.
  destruct (getUserWithSubscription userId w) as [[[u|]|error] w'];
    exact Hl.
Qed.

Lemma getUserDashboard_same_tables (userId : string) (w : World) :
  same_tables (env w) (env (snd (getUserDashboard userId w))).
Proof.
  unfold getUserDashboard, bind.
  pose proof (getUserWithSubscription_same_tables userId w) as Hl.
  destruct (getUserWithSubscription userId w) as [[u|error] w1];
    [|exact Hl].
  pose proof (getUserAudioFiles_same_tables userId 5 w1) as Hf.
  cbn [snd] in Hl.
  destruct (getUserAudioFiles userId 5 w1) as [[files|error] w2];
    cbn [snd] in *; eapply same_tables_trans; eauto.
Qed.

(** X7.  The lookups, the quota check, the listing and the dashboard change
    no row of either table, whatever their outcome: not when they find
    nothing, not when the server fails, not when they are retried. *)
Theorem reads_change_no_row (r : request) (w : World) :
  read_only r = true ->
  same_tables (env w) (env (serve r w)).
Proof.
  intros Hread. destruct r; try discriminate; cbn [serve].
  - apply withRetry_same_tables. intros p s.
    apply select_same_tables. reflexivity.
  - apply withRetry_same_tables. intros p s.
    apply select_same_tables. reflexivity.
  - apply withRetry_same_tables. intros p s.
    apply select_same_tables. reflexivity.
  - apply getUserWithSubscription_same_tables.
  - apply canUserUseCharacters_same_tables.
  - apply getUserAudioFiles_same_tables.
  - apply getUserDashboard_same_tables.
Qed.

(** *** Lookups by id *)

Lemma findUserById_healthy (w : World) (id' : string) :
  healthy (env w) ->
  exists w',
    findUserById id' w
    = (Returned (first_or_null (matching (env w) id')), w')
    /\ same_server (env w) (env w').
Proof.
  intros Hh. unfold findUserById, select_user.
  apply (read_healthy (SELECT_users_WHERE_id id') first_or_null
           (fun s => matching s id') w Hh); reflexivity.
Qed.

Lemma getUserLoginHistory_healthy (w : World) (userId : string) :
  healthy (env w) ->
  exists w',
    getUserLoginHistory userId w
    = (Returned (option_map login_history_of
                   (first_or_null (matching (env w) userId))), w')
    /\ same_server (env w) (env w').
Proof.
  intros Hh. unfold getUserLoginHistory.
  destruct (read_healthy (SELECT_login_history userId) first_or_null
              (fun s => map login_history_of (matching s userId)) w Hh)
    as (w' & Hrun & Hsame); try reflexivity.
  exists w'. split; [|exact Hsame].
  rewrite Hrun. destruct (matching (env w) userId); reflexivity.
Qed.

(** X8.  On a server that answers, the three lookups by id agree: what
    [getUserLoginHistory] and [getUserWithSubscription] return are the
    columns of the row [findUserById] returns, and all three return
    [null], without throwing, exactly when the id matches no stored
    row. *)
Theorem lookups_by_id_agree (w : World) (userId : string) :
  healthy (env w) ->
  exists found,
    fst (findUserById userId w) = Returned found
    /\ fst (getUserLoginHistory userId w)
       = Returned (option_map login_history_of found)
    /\ fst (getUserWithSubscription userId w)
       = Returned (option_map subscription_of found)
    /\ (found = None <->
        forall r, In r (users (env w)) ->
                  collate (env w) (id r) userId = false)
    /\ (forall r, found = Some r ->
                  In r (users (env w))
                  /\ collate (env w) (id r) userId = true).
Proof.
  intros Hh.
  destruct (findUserById_healthy w userId Hh) as (w1 & H1 & _).
  destruct (getUserLoginHistory_healthy w userId Hh) as (w2 & H2 & _).
  destruct (getUserWithSubscription_healthy w userId Hh) as (w3 & H3 & _).
  exists (first_or_null (matching (env w) userId)).
  rewrite H1, H2, H3. repeat split; try reflexivity.
  - unfold matching. intros Hnone r Hin.
    destruct (collate (env w) (id r) userId) eqn:Hr; [|reflexivity].
    assert (Hf : In r (filter (fun r0 => collate (env w) (id r0) userId)
                         (users (env w))))
      by (apply filter_In; auto).
    destruct (filter _ _); [destruct Hf|discriminate].
  - intros Hno. rewrite matching_none by exact Hno. reflexivity.
  - unfold matching in H.
    destruct (filter _ _) as [|r0 rs] eqn:Hf; [discriminate|].
    injection H as ->.
    assert (Hin : In r (r :: rs)) by (left; reflexivity).
    rewrite <- Hf in Hin. apply filter_In in Hin. apply Hin.
  - unfold matching in H.
    destruct (filter _ _) as [|r0 rs] eqn:Hf; [discriminate|].
    injection H as ->.
    assert (Hin : In r (r :: rs)) by (left; reflexivity).
    rewrite <- Hf in Hin. apply filter_In in Hin. apply Hin.
Qed.

(** *** Creating a user *)

(** X9.  A user that [createUser] has stored is found by its id, as the row
    with the columns given and the defaults of the table: the free tier,
    no usage, no login. *)
Theorem createUser_then_findUserById (w : World) (user : NewUser) :
  healthy (env w) ->
  collate (env w) (u_id user) (u_id user) = true ->
  (forall r, In r (users (env w)) ->
             collate (env w) (id r) (u_id user) = false) ->
  (forall r, In r (users (env w)) ->
             collate (env w) (email r) (u_email user) = false) ->
  exists w1 w2 row,
    createUser user w = (Returned tt, w1)
    /\ findUserById (u_id user) w1 = (Returned (Some row), w2)
    /\ id row = u_id user /\ email row = u_email user
    /\ name row = u_name user /\ password row = u_password user
    /\ subscriptionStatus row = Some "free"
    /\ monthlyUsage row = Some 0
    /\ login_count row = Some 0
    /\ last_login_at row = None
    /\ usageResetDate row = Some (GETDATE (env w)).
Proof.
  intros Hh Hrefl Hid Hemail.
  destruct (createUser_healthy w user Hh Hid Hemail)
    as (n & ps & w1 & Hcreate & Henv).
  assert (Hh1 : healthy (env w1)) by (rewrite Henv; exact Hh).
  destruct (findUserById_healthy w1 (u_id user) Hh1) as (w2 & Hfind & _).
  exists w1, w2, (created_row (GETDATE (env w)) user).
  split; [exact Hcreate|]. split; [|repeat split].
  rewrite Hfind, Henv. unfold matching.
  cbn [collate users set_users set_pools]. rewrite filter_app.
  rewrite (filter_none _ _ Hid).
  cbn [filter created_row new_user_row id app]. rewrite Hrefl. reflexivity.
Qed.

(** An attempt on a server that answers, whose operation is refused. *)
Lemma refused_healthy {T}
    (operation : PoolRef -> Server -> outcome T * Server)
    (s0 : Server) (refusal : Js.Thrown) (w : World) :
  healthy s0 ->
  (forall p s, same_server s0 s -> is_open p s = true ->
               operation p s = (Threw refusal, s)) ->
  same_server s0 (env w) ->
  exists w',
    withRetry operation 2 w = (Threw refusal, w')
    /\ same_server s0 (env w')
    /\ gave_up_after 3 1500 (trace w) (trace w').
Proof.
  intros Hh Hop Hsame.
  enough (exists w',
             withRetry operation 2 w = (Threw refusal, w')
             /\ same_server s0 (env w')) as (w' & Hrun & Hs).
  { exists w'. split; [exact Hrun|]. split; [exact Hs|].
    apply (withRetry_thrown operation 2 w w' refusal); [lia|exact Hrun]. }
  apply (withRetry_refused operation 2 (same_server s0) refusal); auto;
    [|lia].
  intros w0 Hs0.
  assert (Hc : connect_faults (env w0) = [])
    by (apply (same_server_healthy _ _ Hs0 Hh)).
  destruct (getDbConnection_healthy w0 Hc)
    as (p & n & ps & fresh & Hg & Ho & _).
  assert (Hs1 : same_server s0 (set_pools n ps (env w0))).
  { eapply same_server_trans; [exact Hs0|]. exists n, ps. reflexivity. }
  eexists. split.
  - unfold attempt, bind. rewrite Hg. run. rewrite (Hop p _ Hs1 Ho).
    reflexivity.
  - exact Hs1.
Qed.

(** X10.  [createUser] refuses a user whose id or email the database equates
    with a stored one: it throws the violation of the primary key when
    the id is taken, of the unique key when only the email is, and the
    table is as before.  The refusal comes after three attempts and 1.5
    s of waiting: the insert is retried although it cannot succeed. *)
Theorem createUser_conflict (w : World) (user : NewUser) :
  healthy (env w) ->
  (exists r, In r (users (env w))
             /\ (collate (env w) (id r) (u_id user) = true
                 \/ collate (env w) (email r) (u_email user) = true)) ->
  exists w',
    createUser user w
    = (Threw (if existsb (fun r => collate (env w) (id r) (u_id user))
                   (users (env w))
              then primary_key_violation else unique_key_violation), w')
    /\ users (env w') = users (env w)
    /\ gave_up_after 3 1500 (trace w) (trace w').
Proof.
  intros Hh (r & Hin & Hclash). unfold createUser.
  destruct (refused_healthy (insert_user user) (env w)
              (if existsb (fun r => collate (env w) (id r) (u_id user))
                    (users (env w))
               then primary_key_violation else unique_key_violation) w Hh)
    as (w' & Hrun & (n & ps & Henv) & Hgave).
  - intros p s (n & ps & ->) Ho.
    unfold insert_user. rewrite query_healthy; [|exact Ho|apply Hh].
    unfold INSERT_INTO_users. cbn [collate users set_pools].
    destruct (existsb (fun r0 => collate (env w) (id r0) (u_id user))
                (users (env w))) eqn:Hid; [reflexivity|].
    replace (existsb _ (users (env w))) with true; [reflexivity|].
    symmetry. apply existsb_exists. exists r. split; [exact Hin|].
    destruct Hclash as [Hc|Hc]; [|exact Hc].
    assert (Hex : existsb (fun r0 => collate (env w) (id r0) (u_id user))
                    (users (env w)) = true)
      by (apply existsb_exists; eauto).
    congruence.
  - exists (pools_made (env w)), (open_pools (env w)).
    destruct (env w); reflexivity.
  - exists w'. split; [exact Hrun|]. split; [|exact Hgave].
    rewrite Henv. reflexivity.
Qed.

End RepositoryFacts.

(** ** Logins and usage *)

Module UsageFacts.
Import Pool Sql Database Spec Frame RetryFacts PoolFacts DatabaseFacts.
Import RepositoryFacts.

Lemma UPDATE_users_applies (where_ in_range : UserRow -> bool)
    (set_ : UserRow -> UserRow) (s : Server) :
  (forall r, In r (users s) -> where_ r = true -> in_range r = true) ->
  UPDATE_users where_ in_range set_ s
  = (Returned tt,
     set_users (map (fun r => if where_ r then set_ r else r) (users s)) s).
Proof.
  intros Hin. unfold UPDATE_users.
  replace (forallb _ (users s)) with true; [reflexivity|].
  symmetry. apply forallb_forall. intros r Hr.
  destruct (where_ r) eqn:Hw; [|reflexivity]. cbn. auto.
Qed.

Lemma UPDATE_users_overflows (where_ in_range : UserRow -> bool)
    (set_ : UserRow -> UserRow) (s : Server) (r : UserRow) :
  In r (users s) -> where_ r = true -> in_range r = false ->
  UPDATE_users where_ in_range set_ s = (Threw arithmetic_overflow, s).
Proof.
  intros Hin Hw Hr. unfold UPDATE_users.
  replace (forallb _ (users s)) with false; [reflexivity|].
  symmetry. apply not_true_is_false. intros Hall.
  rewrite forallb_forall in Hall. specialize (Hall r Hin).
  rewrite Hw, Hr in Hall. discriminate.
Qed.

(** An update that keeps the ids selects the same rows afterwards. *)
Lemma matching_map (c : string -> string -> bool) (userId : string)
    (f : UserRow -> UserRow) (rows : list UserRow) :
  (forall r, id (f r) = id r) ->
  filter (fun r => c (id r) userId)
    (map (fun r => if c (id r) userId then f r else r) rows)
  = map f (filter (fun r => c (id r) userId) rows).
Proof.
  intros Hid. induction rows as [|r rows IH]; [reflexivity|].
  cbn [map filter]. destruct (c (id r) userId) eqn:Hr.
  - rewrite Hid, Hr. cbn [map]. rewrite IH. reflexivity.
  - rewrite Hr. exact IH.
Qed.

Lemma map_untouched {A} (where_ : A -> bool) (f : A -> A) (l : list A) :
  (forall x, In x l -> where_ x = false) ->
  map (fun x => if where_ x then f x else x) l = l.
Proof.
  intros Hno. induction l as [|x l IH]; [reflexivity|].
  cbn [map]. rewrite (Hno x (or_introl eq_refl)), IH; [reflexivity|].
  intros y Hy. apply Hno. right. exact Hy.
Qed.

Lemma first_or_null_map {A B} (f : A -> B) (l : list A) :
  first_or_null (map f l) = option_map f (first_or_null l).
Proof. destruct l; reflexivity. Qed.

Lemma option_map_compose {A B C} (f : A -> B) (g : B -> C) (x : option A) :
  option_map g (option_map f x) = option_map (fun a => g (f a)) x.
Proof. destruct x; reflexivity. Qed.

Lemma updateLoginTracking_healthy (w : World) (userId : string) :
  healthy (env w) ->
  (forall r, In r (users (env w)) ->
             collate (env w) (id r) userId = true ->
             fits_INT (ISNULL0 (login_count r) + 1) = true) ->
  exists n ps w',
    updateLoginTracking userId w = (Returned tt, w')
    /\ env w'
       = set_users
           (map (fun r => if collate (env w) (id r) userId
                          then logged_in (GETDATE (env w)) r else r)
              (users (env w)))
           (set_pools n ps (env w)).
Proof.
  intros Hh Hfit. unfold updateLoginTracking.
  destruct (statement_healthy (UPDATE_login_tracking userId) w Hh)
    as (n & ps & w' & Hrun).
  exists n, ps, w'. apply Hrun.
  unfold UPDATE_login_tracking. rewrite UPDATE_users_applies; [reflexivity|].
  exact Hfit.
Qed.

Lemma updateUserUsage_healthy (w : World) (userId : string) (n : Z) :
  healthy (env w) ->
  fits_INT n = true ->
  (forall r u, In r (users (env w)) ->
               collate (env w) (id r) userId = true ->
               monthlyUsage r = Some u -> fits_INT (u + n) = true) ->
  exists k ps w',
    updateUserUsage userId n w = (Returned tt, w')
    /\ env w'
       = set_users
           (map (fun r => if collate (env w) (id r) userId
                          then charged n r else r)
              (users (env w)))
           (set_pools k ps (env w)).
Proof.
  intros Hh Hn Hfit. unfold updateUserUsage.
  destruct (statement_healthy (UPDATE_monthlyUsage userId n) w Hh)
    as (k & ps & w' & Hrun).
  exists k, ps, w'. apply Hrun.
  unfold UPDATE_monthlyUsage. rewrite Hn.
  rewrite UPDATE_users_applies; [reflexivity|].
  cbn [collate users set_pools]. intros r Hin Hr.
  destruct (monthlyUsage r) as [u|] eqn:Hu; cbn [plus_null]; [|reflexivity].
  apply (Hfit r u Hin Hr Hu).
Qed.

(** *** Logins *)

(** X11.  A login is counted: after [updateLoginTracking], the history
    [getUserLoginHistory] returns for the id is the one it returned
    before with [login_count] one higher, a [NULL] count taken as 0, and
    [last_login_at] set to the server's date; the other columns are the
    same, and an id with no history before has none after. *)
Theorem updateLoginTracking_counts_the_login (w : World) (userId : string) :
  healthy (env w) ->
  (forall r, In r (users (env w)) ->
             collate (env w) (id r) userId = true ->
             fits_INT (ISNULL0 (login_count r) + 1) = true) ->
  exists before w0 w1 w2,
    getUserLoginHistory userId w = (Returned before, w0)
    /\ updateLoginTracking userId w0 = (Returned tt, w1)
    /\ getUserLoginHistory userId w1
       = (Returned
            (option_map
               (fun h => mkLoginHistory (lh_id h) (lh_email h) (lh_name h)
                           (Some (GETDATE (env w)))
                           (Some (ISNULL0 (lh_login_count h) + 1))
                           (lh_createdAt h))
               before), w2).
Proof.
  intros Hh Hfit.
  destruct (getUserLoginHistory_healthy w userId Hh)
    as (w0 & Hread & n0 & ps0 & He0).
  assert (Hh0 : healthy (env w0)) by (rewrite He0; exact Hh).
  destruct (updateLoginTracking_healthy w0 userId Hh0)
    as (n & ps & w1 & Hupd & He1).
  { rewrite He0. exact Hfit. }
  assert (Hh1 : healthy (env w1)) by (rewrite He1, He0; exact Hh).
  destruct (getUserLoginHistory_healthy w1 userId Hh1) as (w2 & Hread' & _).
  eexists _, w0, w1, w2. split; [exact Hread|]. split; [exact Hupd|].
  rewrite Hread'. f_equal. f_equal.
  rewrite He1, He0. unfold matching.
  cbn [collate users set_users set_pools GETDATE].
  rewrite matching_map by reflexivity.
  rewrite first_or_null_map, !option_map_compose. reflexivity.
Qed.

(** *** Usage *)

(** X12.  A charge is read back: after [updateUserUsage], the subscription
    [getUserWithSubscription] returns for the id is the one it returned
    before with [monthlyUsage] raised by the amount; a [NULL] usage
    stays [NULL]. *)
Theorem updateUserUsage_is_read_back (w : World) (userId : string) (n : Z) :
  healthy (env w) ->
  fits_INT n = true ->
  (forall r u, In r (users (env w)) ->
               collate (env w) (id r) userId = true ->
               monthlyUsage r = Some u -> fits_INT (u + n) = true) ->
  exists before w0 w1 w2,
    getUserWithSubscription userId w = (Returned before, w0)
    /\ updateUserUsage userId n w0 = (Returned tt, w1)
    /\ getUserWithSubscription userId w1
       = (Returned
            (option_map
               (fun u => mkSubscription (s_id u) (s_email u) (s_name u)
                           (s_subscriptionStatus u)
                           (plus_null (s_monthlyUsage u) n)
                           (s_usageResetDate u) (s_last_login_at u)
                           (s_login_count u) (s_createdAt u))
               before), w2).
Proof.
  intros Hh Hn Hfit.
  destruct (getUserWithSubscription_healthy w userId Hh)
    as (w0 & Hread & n0 & ps0 & He0).
  assert (Hh0 : healthy (env w0)) by (rewrite He0; exact Hh).
  destruct (updateUserUsage_healthy w0 userId n Hh0 Hn)
    as (k & ps & w1 & Hupd & He1).
  { rewrite He0. exact Hfit. }
  assert (Hh1 : healthy (env w1)) by (rewrite He1, He0; exact Hh).
  destruct (getUserWithSubscription_healthy w1 userId Hh1)
    as (w2 & Hread' & _).
  eexists _, w0, w1, w2. split; [exact Hread|]. split; [exact Hupd|].
  rewrite Hread'. f_equal. f_equal.
  rewrite He1, He0. unfold matching.
  cbn [collate users set_users set_pools].
  rewrite matching_map by reflexivity.
  rewrite first_or_null_map, !option_map_compose. reflexivity.
Qed.

Lemma charged_twice (a b : Z) (r : UserRow) :
  charged b (charged a r) = charged (a + b) r.
Proof.
  unfold charged. cbn. destruct (monthlyUsage r); cbn; [|reflexivity].
  rewrite Z.add_assoc. reflexivity.
Qed.

(** X13.  Charges add up: two charges in a row leave the table that one
    charge of their sum leaves. *)
Theorem updateUserUsage_adds_up (w : World) (userId : string) (a b : Z) :
  healthy (env w) ->
  fits_INT a = true -> fits_INT b = true -> fits_INT (a + b) = true ->
  (forall r u, In r (users (env w)) ->
               collate (env w) (id r) userId = true ->
               monthlyUsage r = Some u ->
               fits_INT (u + a) = true /\ fits_INT (u + a + b) = true) ->
  exists w1 w2 w',
    updateUserUsage userId a w = (Returned tt, w1)
    /\ updateUserUsage userId b w1 = (Returned tt, w2)
    /\ updateUserUsage userId (a + b) w = (Returned tt, w')
    /\ users (env w2) = users (env w').
Proof.
  intros Hh Ha Hb Hab Hfit.
  destruct (updateUserUsage_healthy w userId a Hh Ha)
    as (k1 & ps1 & w1 & Hupd1 & He1).
  { intros r u Hin Hr Hu. apply (Hfit r u Hin Hr Hu). }
  assert (Hh1 : healthy (env w1)) by (rewrite He1; exact Hh).
  destruct (updateUserUsage_healthy w1 userId b Hh1 Hb)
    as (k2 & ps2 & w2 & Hupd2 & He2).
  { rewrite He1. cbn [collate users set_users set_pools].
    intros r u Hin Hr Hu. apply in_map_iff in Hin.
    destruct Hin as (r0 & Hr0 & Hin0).
    destruct (collate (env w) (id r0) userId) eqn:Hc; subst r.
    - cbn [charged id monthlyUsage] in *.
      destruct (monthlyUsage r0) as [u0|] eqn:Hu0; [|discriminate].
      injection Hu as <-. apply (Hfit r0 u0 Hin0 Hc Hu0).
    - congruence. }
  destruct (updateUserUsage_healthy w userId (a + b) Hh Hab)
    as (k & ps & w' & Hupd & He).
  { intros r u Hin Hr Hu. rewrite Z.add_assoc. apply (Hfit r u Hin Hr Hu). }
  exists w1, w2, w'. repeat split; try assumption.
  rewrite He2, He, He1. cbn [collate users set_users set_pools].
  rewrite map_map. apply map_ext. intros r.
  destruct (collate (env w) (id r) userId) eqn:Hc.
  - cbn [charged id]. rewrite Hc. apply charged_twice.
  - rewrite Hc. reflexivity.
Qed.

(** X14.  An update for an id that matches no row is not an error: both
    [updateLoginTracking] and [updateUserUsage] return, and the table is
    as before. *)
Theorem updates_ignore_an_unknown_user (w : World) (userId : string)
    (n : Z) :
  healthy (env w) ->
  fits_INT n = true ->
  (forall r, In r (users (env w)) ->
             collate (env w) (id r) userId = false) ->
  exists w1 w2,
    updateLoginTracking userId w = (Returned tt, w1)
    /\ users (env w1) = users (env w)
    /\ updateUserUsage userId n w = (Returned tt, w2)
    /\ users (env w2) = users (env w).
Proof.
  intros Hh Hn Hno.
  destruct (updateLoginTracking_healthy w userId Hh)
    as (k1 & ps1 & w1 & Hupd1 & He1).
  { intros r Hin Hr. rewrite (Hno r Hin) in Hr. discriminate. }
  destruct (updateUserUsage_healthy w userId n Hh Hn)
    as (k2 & ps2 & w2 & Hupd2 & He2).
  { intros r u Hin Hr. rewrite (Hno r Hin) in Hr. discriminate. }
  exists w1, w2. repeat split; try assumption.
  - rewrite He1. cbn [users set_users]. apply map_untouched. exact Hno.
  - rewrite He2. cbn [users set_users]. apply map_untouched. exact Hno.
Qed.

(** X15.  A charge that does not fit the [INT] column is refused and no row
    changes: an amount outside the range of [INT] fails the validation
    of the parameter, and an amount that takes the usage of a row of the
    id outside it overflows on the server. *)
Theorem updateUserUsage_refuses_an_overflow (w : World) (userId : string)
    (n : Z) :
  healthy (env w) ->
  (fits_INT n = false
   \/ exists r u, In r (users (env w))
                  /\ collate (env w) (id r) userId = true
                  /\ monthlyUsage r = Some u
                  /\ fits_INT (u + n) = false) ->
  exists w',
    updateUserUsage userId n w
    = (Threw (if fits_INT n then arithmetic_overflow
              else parameter_validation), w')
    /\ users (env w') = users (env w).
Proof.
  intros Hh Hbad. unfold updateUserUsage.
  destruct (refused_healthy
              (fun pool => query pool (UPDATE_monthlyUsage userId n))
              (env w)
              (if fits_INT n then arithmetic_overflow
               else parameter_validation) w Hh)
    as (w' & Hrun & (k & ps & Henv) & _).
  - intros p s (k & ps & ->) Ho.
    rewrite query_healthy; [|exact Ho|apply Hh].
    unfold UPDATE_monthlyUsage.
    destruct (fits_INT n) eqn:Hn; [|reflexivity].
    destruct Hbad as [Hbad|(r & u & Hin & Hr & Hu & Hover)];
      [discriminate|].
    apply (UPDATE_users_overflows _ _ _ _ r); cbn [collate users set_pools];
      auto.
    rewrite Hu. exact Hover.
  - exists (pools_made (env w)), (open_pools (env w)).
    destruct (env w); reflexivity.
  - exists w'. split; [exact Hrun|]. rewrite Henv. reflexivity.
Qed.

Lemma userLimit_in_table (key : string) (l : Z) :
  Js.or_number (Js.get limits key) 5000 = Js.VNumber l ->
  l = 5000 \/ l = 100000 \/ l = 500000.
Proof.
  unfold limits. cbn [Js.get].
  destruct (String.eqb "free" key); [cbn; intros [= <-]; auto|].
  destruct (String.eqb "pro" key); [cbn; intros [= <-]; auto|].
  destruct (String.eqb "premium" key); [cbn; intros [= <-]; auto|].
  destruct (existsb (String.eqb key) Js.Object_prototype); cbn;
    [discriminate|intros [= <-]; auto].
Qed.

(** X16.  A charge the quota check has allowed keeps the user within the
    limit: when [canUserUseCharacters] answers [canUse] for an amount
    that is not negative, [updateUserUsage] of that amount goes through,
    and the usage read afterwards is the usage the check reported plus
    the amount, and is at most the limit the check reported. *)
Theorem allowed_charge_stays_within_limit (w : World) (userId : string)
    (n : Z) :
  healthy (env w) ->
  0 <= n ->
  (List.length (matching (env w) userId) <= 1)%nat ->
  (forall r u, In r (matching (env w) userId) ->
               monthlyUsage r = Some u -> 0 <= u) ->
  exists check w0,
    canUserUseCharacters userId n w = (Returned check, w0)
    /\ (canUse check = true ->
        exists l w1 after w2,
          limit check = Js.VNumber l
          /\ updateUserUsage userId n w0 = (Returned tt, w1)
          /\ getUserWithSubscription userId w1 = (Returned (Some after), w2)
          /\ s_monthlyUsage after = plus_null (currentUsage check) n
          /\ Js.ToNumber (s_monthlyUsage after) <= l).
Proof.
  intros Hh Hn Hkey Hpos.
  destruct (getUserWithSubscription_healthy w userId Hh)
    as (w0 & Hread & n0 & ps0 & He0).
  assert (Hh0 : healthy (env w0)) by (rewrite He0; exact Hh).
  unfold canUserUseCharacters, bind. rewrite Hread.
  destruct (matching (env w) userId) as [|r rest] eqn:Hm;
    cbn [first_or_null option_map].
  { eexists _, w0. split; [reflexivity|]. cbn. discriminate. }
  destruct rest as [|r' rest]; [|cbn in Hkey; lia].
  eexists _, w0. split; [reflexivity|].
  cbn [canUse limit currentUsage subscription_of s_monthlyUsage
         s_subscriptionStatus].
  intros Hcan.
  destruct (Js.or_number (Js.get limits (Js.key_of (subscriptionStatus r)))
              5000) as [l|member] eqn:Hl; [|discriminate].
  cbn [Js.le] in Hcan. apply Z.leb_le in Hcan.
  pose proof (userLimit_in_table _ _ Hl) as Htable.
  assert (Hmatch : forall r0, In r0 (users (env w)) ->
                     collate (env w) (id r0) userId = true -> r0 = r).
  { intros r0 Hin Hr0.
    assert (Hin0 : In r0 (matching (env w) userId))
      by (apply filter_In; auto).
    rewrite Hm in Hin0. destruct Hin0 as [<-|[]]. reflexivity. }
  assert (Hu : forall u, monthlyUsage r = Some u -> 0 <= u).
  { intros u. apply Hpos. left. reflexivity. }
  assert (Hfit : fits_INT n = true).
  { unfold fits_INT, INT_MIN, INT_MAX. apply andb_true_iff.
    destruct (monthlyUsage r) as [u|]; [specialize (Hu u eq_refl)|];
      cbn [Js.ToNumber] in Hcan; split; apply Z.leb_le; lia. }
  destruct (updateUserUsage_healthy w0 userId n Hh0 Hfit)
    as (k & ps & w1 & Hupd & He1).
  { rewrite He0. cbn [collate users set_pools]. intros r0 u Hin Hr0 Hu0.
    rewrite (Hmatch r0 Hin Hr0) in Hu0. rewrite Hu0 in Hcan.
    specialize (Hu u Hu0). cbn [Js.ToNumber] in Hcan.
    unfold fits_INT, INT_MIN, INT_MAX. apply andb_true_iff.
    split; apply Z.leb_le; lia. }
  assert (Hh1 : healthy (env w1)) by (rewrite He1, He0; exact Hh).
  destruct (getUserWithSubscription_healthy w1 userId Hh1)
    as (w2 & Hread' & _).
  exists l, w1, (subscription_of (charged n r)), w2.
  split; [reflexivity|]. split; [exact Hupd|]. split.
  - rewrite Hread'. f_equal. f_equal.
    rewrite He1, He0. unfold matching in *.
    cbn [collate users set_users set_pools].
    rewrite matching_map by reflexivity. rewrite Hm. reflexivity.
  - cbn [subscription_of charged s_monthlyUsage monthlyUsage].
    split; [reflexivity|].
    destruct (monthlyUsage r) as [u|]; cbn [plus_null Js.ToNumber] in *; lia.
Qed.

End UsageFacts.

(** ** The monthly reset, the audio records and the dashboard *)

Module RecordFacts.
Import Pool Sql Database Spec Waiting Frame RetryFacts PoolFacts.
Import DatabaseFacts RepositoryFacts UsageFacts.

(** *** The monthly reset *)

Lemma DATEDIFF_month_add (a b c : datetime) :
  DATEDIFF_month a c = DATEDIFF_month a b + DATEDIFF_month b c.
Proof. unfold DATEDIFF_month. lia. Qed.

(** X17.  A reset is not repeated within the month: once [resetMonthlyUsage]
    has run, a second run at a date of the same calendar month (for
    one, right away) changes no row. *)
Theorem resetMonthlyUsage_once_a_month (w later : World) :
  healthy (env w) ->
  healthy (env later) ->
  DATEDIFF_month (GETDATE (env w)) (GETDATE (env later)) = 0 ->
  users (env later) = users (env (snd (resetMonthlyUsage w))) ->
  exists w',
    resetMonthlyUsage later = (Returned tt, w')
    /\ users (env w') = users (env later).
Proof.
  intros Hh Hl Hsame Hrows.
  destruct (resetMonthlyUsage_healthy w Hh) as (w1 & Hrun & Hu).
  rewrite Hrun in Hrows. cbn [snd] in Hrows. rewrite Hu in Hrows.
  destruct (resetMonthlyUsage_healthy later Hl) as (w' & Hrun' & Hu').
  exists w'. split; [exact Hrun'|]. rewrite Hu'.
  apply map_untouched. intros r Hin. rewrite Hrows in Hin.
  apply in_map_iff in Hin. destruct Hin as (r0 & <- & _).
  unfold reset_due at 2.
  destruct (usageResetDate r0) as [d|] eqn:Hd.
  - destruct (DATEDIFF_month d (GETDATE (env w)) >=? 1) eqn:Hdue.
    + unfold reset_due. cbn [reset_row usageResetDate]. rewrite Hsame.
      reflexivity.
    + unfold reset_due. rewrite Hd.
      rewrite (DATEDIFF_month_add d (GETDATE (env w))), Hsame.
      rewrite Z.add_0_r. exact Hdue.
  - unfold reset_due. rewrite Hd. reflexivity.
Qed.

(** *** Listing the audio records *)

Lemma datetime_leb_total (a b : datetime) :
  datetime_leb a b = false -> datetime_leb b a = true.
Proof.
  unfold datetime_leb.
  repeat match goal with
         | |- context [?x <? ?y] => destruct (Z.ltb_spec x y)
         | |- context [?x <=? ?y] => destruct (Z.leb_spec x y)
         end; try discriminate; try reflexivity; intros; lia.
Qed.

Lemma datetime_leb_trans (a b c : datetime) :
  datetime_leb a b = true -> datetime_leb b c = true ->
  datetime_leb a c = true.
Proof.
  unfold datetime_leb.
  repeat match goal with
         | |- context [?x <? ?y] => destruct (Z.ltb_spec x y)
         | |- context [?x <=? ?y] => destruct (Z.leb_spec x y)
         end; try discriminate; try reflexivity; intros; lia.
Qed.

Lemma created_leb_total (a b : option datetime) :
  created_leb a b = false -> created_leb b a = true.
Proof.
  destruct a, b; cbn; try discriminate; try reflexivity.
  apply datetime_leb_total.
Qed.

Lemma created_leb_trans (a b c : option datetime) :
  created_leb a b = true -> created_leb b c = true ->
  created_leb a c = true.
Proof.
  destruct a, b, c; cbn; try discriminate; try reflexivity.
  apply datetime_leb_trans.
Qed.

Lemma insert_desc_permutation (x : AudioRow) (l : list AudioRow) :
  Permutation (insert_desc x l) (x :: l).
Proof.
  induction l as [|y l IH]; cbn [insert_desc]; [reflexivity|].
  destruct (created_leb (a_createdAt y) (a_createdAt x)); [reflexivity|].
  rewrite IH. apply perm_swap.
Qed.

Lemma ORDER_BY_permutation (l : list AudioRow) :
  Permutation (ORDER_BY_createdAt_DESC l) l.
Proof.
  induction l as [|x l IH]; [reflexivity|].
  unfold ORDER_BY_createdAt_DESC in *. cbn [fold_right].
  rewrite insert_desc_permutation, IH. reflexivity.
Qed.

Lemma insert_desc_sorted (x : AudioRow) (l : list AudioRow) :
  StronglySorted newer_first l ->
  StronglySorted newer_first (insert_desc x l).
Proof.
  induction 1 as [|y l Hs IH Hall]; cbn [insert_desc].
  - constructor; constructor.
  - destruct (created_leb (a_createdAt y) (a_createdAt x)) eqn:Hyx.
    + constructor; [constructor; assumption|].
      constructor; [exact Hyx|].
      eapply Forall_impl; [|exact Hall]. intros z Hz.
      unfold newer_first in *. eapply created_leb_trans; eauto.
    + constructor; [exact IH|].
      rewrite insert_desc_permutation.
      constructor; [|exact Hall].
      apply created_leb_total. exact Hyx.
Qed.

Lemma ORDER_BY_sorted (l : list AudioRow) :
  StronglySorted newer_first (ORDER_BY_createdAt_DESC l).
Proof.
  induction l as [|x l IH]; [constructor|].
  unfold ORDER_BY_createdAt_DESC in *. cbn [fold_right].
  apply insert_desc_sorted. exact IH.
Qed.

Lemma fits_INT_limit (limit : Z) :
  0 <= limit <= INT_MAX -> fits_INT limit = true /\ (limit <? 0) = false.
Proof.
  unfold fits_INT, INT_MIN, INT_MAX. intros Hl. split.
  - apply andb_true_iff. split; apply Z.leb_le; lia.
  - apply Z.ltb_ge. lia.
Qed.

Lemma getUserAudioFiles_rows (w : World) (userId : string) (limit : Z) :
  healthy (env w) ->
  0 <= limit <= INT_MAX ->
  exists w',
    getUserAudioFiles userId limit w
    = (Returned
         (map audio_view_of
            (firstn (Z.to_nat limit)
               (ORDER_BY_createdAt_DESC (files_of (env w) userId)))), w')
    /\ same_server (env w) (env w').
Proof.
  intros Hh Hl. unfold getUserAudioFiles.
  destruct (statement_healthy (SELECT_TOP_audio_files userId limit) w Hh)
    as (n & ps & w' & Hrun).
  destruct (fits_INT_limit limit Hl) as [Hfit Hneg].
  edestruct Hrun as [Hr He].
  - unfold SELECT_TOP_audio_files. rewrite Hfit, Hneg. cbn [negb].
    reflexivity.
  - exists w'. split; [exact Hr|]. exists n, ps. exact He.
Qed.

(** X18.  [getUserAudioFiles] returns the user's newest records, newest
    first: the views of the first [limit] rows of the user's rows put in
    descending order of [createdAt]; so it returns [limit] records, or
    all of them when the user has fewer, and none for a limit of 0. *)
Theorem getUserAudioFiles_newest_first (w : World) (userId : string)
    (limit : Z) :
  healthy (env w) ->
  0 <= limit <= INT_MAX ->
  exists sorted w',
    getUserAudioFiles userId limit w
    = (Returned (map audio_view_of (firstn (Z.to_nat limit) sorted)), w')
    /\ Permutation sorted (files_of (env w) userId)
    /\ StronglySorted newer_first sorted
    /\ List.length (firstn (Z.to_nat limit) sorted)
       = Nat.min (Z.to_nat limit)
           (List.length (files_of (env w) userId)).
Proof.
  intros Hh Hl.
  destruct (getUserAudioFiles_rows w userId limit Hh Hl) as (w' & Hrun & _).
  exists (ORDER_BY_createdAt_DESC (files_of (env w) userId)), w'.
  split; [exact Hrun|]. split; [apply ORDER_BY_permutation|].
  split; [apply ORDER_BY_sorted|].
  rewrite length_firstn.
  rewrite (Permutation_length (ORDER_BY_permutation _)). reflexivity.
Qed.

(** X19.  A limit that is negative or beyond the range of [INT] makes
    [getUserAudioFiles] throw instead of listing anything, after three
    attempts and 1.5 s of waiting. *)
Theorem getUserAudioFiles_refuses_a_bad_limit (w : World) (userId : string)
    (limit : Z) :
  healthy (env w) ->
  limit < 0 \/ INT_MAX < limit ->
  exists w',
    getUserAudioFiles userId limit w
    = (Threw (if fits_INT limit then invalid_top else parameter_validation),
       w')
    /\ same_server (env w) (env w')
    /\ gave_up_after 3 1500 (trace w) (trace w').
Proof.
  intros Hh Hbad. unfold getUserAudioFiles.
  apply (refused_healthy
           (fun pool => query pool (SELECT_TOP_audio_files userId limit))
           (env w)); auto.
  - intros p s (k & ps & ->) Ho.
    rewrite query_healthy; [|exact Ho|apply Hh].
    unfold SELECT_TOP_audio_files.
    destruct (fits_INT limit) eqn:Hfit; cbn [negb]; [|reflexivity].
    replace (limit <? 0) with true; [reflexivity|].
    symmetry. apply Z.ltb_lt. destruct Hbad as [Hneg|Hbig]; [exact Hneg|].
    unfold fits_INT in Hfit. apply andb_true_iff in Hfit.
    destruct Hfit as [_ Hle]. apply Z.leb_le in Hle. lia.
  - exists (pools_made (env w)), (open_pools (env w)).
    destruct (env w); reflexivity.
Qed.

(** *** Saving an audio record *)

Lemma saveAudioFile_healthy (w : World) (audioData : AudioData) :
  healthy (env w) ->
  (exists r, In r (users (env w))
             /\ collate (env w) (id r) (d_userId audioData) = true) ->
  (forall r, In r (audio_files (env w)) ->
             collate (env w) (a_id r)
               (audio_id (Date_now (env w))
                  (Math_random (env w) (random_draws (env w)))) = false) ->
  (forall n, d_fileSize audioData = Some n -> fits_INT n = true) ->
  exists w' row,
    saveAudioFile audioData w
    = (Returned (audio_id (Date_now (env w))
                   (Math_random (env w) (random_draws (env w)))), w')
    /\ healthy (env w')
    /\ collate (env w') = collate (env w)
    /\ users (env w') = users (env w)
    /\ audio_files (env w') = audio_files (env w) ++ [row]
    /\ audio_view_of row
       = mkAudioView
           (audio_id (Date_now (env w))
              (Math_random (env w) (random_draws (env w))))
           (d_filename audioData) (d_text audioData)
           (Js.string_or_null (d_voice audioData))
           (settings_text (d_settings audioData))
           (Js.string_or_null (d_audioUrl audioData))
           (Js.number_or_null (d_fileSize audioData))
           (Some (GETDATE (env w)))
    /\ a_userId row = d_userId audioData.
Proof.
  intros [Hc Hq] (r & Hin & Hr) Hnew Hsize.
  unfold saveAudioFile.
  match goal with
  | |- context [withRetry ?op 2 w] =>
      destruct (withRetry_healthy op w Hc)
        as (p & n & ps & fresh & Ho & _ & Hrun)
  end.
  eexists _, _. split.
  - apply Hrun. unfold bind, new_audio_id, ret.
    rewrite query_healthy; [|exact Ho|exact Hq].
    unfold INSERT_INTO_audio_files.
    cbn [collate users audio_files set_random_draws set_pools Date_now
           Math_random random_draws GETDATE].
    replace (fits_INT_param (Js.number_or_null (d_fileSize audioData)))
      with true.
    2:{ symmetry. destruct (d_fileSize audioData) as [k|]; cbn; auto.
        destruct (k =? 0); cbn; auto. }
    rewrite (existsb_none _ _ Hnew).
    replace (existsb _ (users (env w))) with true.
    2:{ symmetry. apply existsb_exists. exists r. auto. }
    cbn [negb]. reflexivity.
  - cbn. repeat split; assumption.
Qed.

(** X20.  [saveAudioFile] stores no record for an id that is not a stored
    user: each of its three attempts is refused with the foreign-key
    violation, which is what the caller catches after 1.5 s of
    waiting. *)
Theorem saveAudioFile_requires_a_stored_user (w : World)
    (audioData : AudioData) :
  healthy (env w) ->
  (forall r, In r (users (env w)) ->
             collate (env w) (id r) (d_userId audioData) = false) ->
  (forall k r, In r (audio_files (env w)) ->
               collate (env w) (a_id r)
                 (audio_id (Date_now (env w)) (Math_random (env w) k))
               = false) ->
  (forall n, d_fileSize audioData = Some n -> fits_INT n = true) ->
  exists w',
    saveAudioFile audioData w = (Threw foreign_key_violation, w')
    /\ same_tables (env w) (env w')
    /\ gave_up_after 3 1500 (trace w) (trace w').
Proof.
  intros Hh Hno Hfresh Hsize. unfold saveAudioFile.
  match goal with
  | |- context [withRetry ?op 2 w] => set (operation := op)
  end.
  set (good := fun s : Server =>
                 healthy s /\ collate s = collate (env w)
                 /\ users s = users (env w)
                 /\ audio_files s = audio_files (env w)
                 /\ Date_now s = Date_now (env w)
                 /\ Math_random s = Math_random (env w)).
  destruct (withRetry_refused operation 2 good foreign_key_violation)
    with (w := w) as (w' & Hrun & Hgood); [|lia|repeat split; apply Hh|].
  - intros w0 ([Hc Hq] & Hcol & Hus & Hfs & Hnow & Hrand).
    destruct (getDbConnection_healthy w0 Hc)
      as (p & n & ps & fresh & Hg & Ho & _).
    eexists. split.
    + unfold attempt, bind. rewrite Hg. run.
      unfold operation, bind, new_audio_id, ret.
      rewrite query_healthy; [|exact Ho|exact Hq].
      unfold INSERT_INTO_audio_files.
      cbn [collate users audio_files set_random_draws set_pools Date_now
             Math_random random_draws GETDATE].
      replace (fits_INT_param (Js.number_or_null (d_fileSize audioData)))
        with true.
      2:{ symmetry. destruct (d_fileSize audioData) as [k|]; cbn; auto.
          destruct (k =? 0); cbn; auto. }
      rewrite Hcol, Hus, Hfs, Hnow, Hrand.
      rewrite (existsb_none _ _ (Hfresh _)), (existsb_none _ _ Hno).
      cbn [negb]. reflexivity.
    + cbn [env]. repeat split; assumption.
  - exists w'. split; [exact Hrun|]. split.
    + destruct Hgood as (_ & _ & Hus & Hfs & _). split; assumption.
    + apply (withRetry_thrown operation 2 w w' foreign_key_violation);
        [lia|exact Hrun].
Qed.

(** X21.  A saved record is listed: after [saveAudioFile], a listing of the
    user's records with a limit above their number holds one record
    more than the user had, and among them the one with the id that
    [saveAudioFile] returned, with the name and the text given and the
    server's date. *)
Theorem saveAudioFile_then_getUserAudioFiles (w : World)
    (audioData : AudioData) (limit : Z) :
  healthy (env w) ->
  (exists r, In r (users (env w))
             /\ collate (env w) (id r) (d_userId audioData) = true) ->
  (forall r, In r (audio_files (env w)) ->
             collate (env w) (a_id r)
               (audio_id (Date_now (env w))
                  (Math_random (env w) (random_draws (env w)))) = false) ->
  (forall n, d_fileSize audioData = Some n -> fits_INT n = true) ->
  collate (env w) (d_userId audioData) (d_userId audioData) = true ->
  Z.of_nat (List.length (files_of (env w) (d_userId audioData))) < limit
  <= INT_MAX ->
  exists audioId w1 files w2 view,
    saveAudioFile audioData w = (Returned audioId, w1)
    /\ getUserAudioFiles (d_userId audioData) limit w1
       = (Returned files, w2)
    /\ List.length files
       = S (List.length (files_of (env w) (d_userId audioData)))
    /\ In view files
    /\ v_id view = audioId
    /\ v_filename view = d_filename audioData
    /\ v_text view = d_text audioData
    /\ v_createdAt view = Some (GETDATE (env w)).
Proof.
  intros Hh Huser Hnew Hsize Hrefl Hlimit.
  destruct (saveAudioFile_healthy w audioData Hh Huser Hnew Hsize)
    as (w1 & row & Hsave & Hh1 & Hcol & Hus & Hfiles & Hview & Hrow).
  destruct (getUserAudioFiles_rows w1 (d_userId audioData) limit Hh1)
    as (w2 & Hlist & _); [lia|].
  assert (Hof : files_of (env w1) (d_userId audioData)
                = files_of (env w) (d_userId audioData) ++ [row]).
  { unfold files_of. rewrite Hcol, Hfiles, filter_app. cbn [filter].
    rewrite Hrow, Hrefl. reflexivity. }
  assert (Hlen : List.length
                   (ORDER_BY_createdAt_DESC
                      (files_of (env w1) (d_userId audioData)))
                 = S (List.length (files_of (env w) (d_userId audioData)))).
  { rewrite (Permutation_length (ORDER_BY_permutation _)), Hof, length_app.
    cbn [List.length]. lia. }
  eexists _, w1, _, w2, (audio_view_of row).
  split; [exact Hsave|]. split; [exact Hlist|].
  rewrite firstn_all2 by lia. split; [rewrite length_map; exact Hlen|].
  split.
  - apply in_map. apply (Permutation_in _ (Permutation_sym
                                             (ORDER_BY_permutation _))).
    rewrite Hof. apply in_or_app. right. left. reflexivity.
  - rewrite Hview. repeat split.
Qed.

(** *** The dashboard of an id that is not stored *)

Lemma getUserDashboard_of_null (w : World) (userId : string) :
  healthy (env w) ->
  (forall r, In r (users (env w)) ->
             collate (env w) (id r) userId = false) ->
  exists files w',
    getUserDashboard userId w
    = (Returned
         {| user := mkDashboardUser None None None "free" 0 None;
            usage := mkDashboardUsage 0 (Js.VNumber 5000) (Js.Num 5000);
            recentFiles := files |}, w').
Proof.
  intros Hh Hno.
  destruct (getUserWithSubscription_healthy w userId Hh)
    as (w0 & Hread & Hsame).
  rewrite (matching_none _ _ Hno) in Hread. cbn in Hread.
  assert (Hh0 : healthy (env w0))
    by (apply (same_server_healthy _ _ Hsame Hh)).
  destruct (getUserAudioFiles_rows w0 userId 5 Hh0) as (w' & Hlist & _);
    [unfold INT_MAX; lia|].
  eexists _, w'.
  unfold getUserDashboard, bind. rewrite Hread, Hlist. reflexivity.
Qed.

(** X22.  For an id that matches no user, [getUserDashboard] does not fail:
    it reports a user with no id, email or name on the free tier, with
    no usage, the limit of the free tier and all of it remaining,
    whereas [canUserUseCharacters] answers the same id with a limit of
    0. *)
Theorem getUserDashboard_unknown_user (w : World) (userId : string) :
  healthy (env w) ->
  (forall r, In r (users (env w)) ->
             collate (env w) (id r) userId = false) ->
  exists files w',
    getUserDashboard userId w
    = (Returned
         {| user := mkDashboardUser None None None "free" 0 None;
            usage := mkDashboardUsage 0 (Js.VNumber 5000) (Js.Num 5000);
            recentFiles := files |}, w')
    /\ exists check w0,
         canUserUseCharacters userId 0 w = (Returned check, w0)
         /\ canUse check = false /\ limit check = Js.VNumber 0.
Proof.
  intros Hh Hno.
  destruct (getUserDashboard_of_null w userId Hh Hno)
    as (files & w' & Hrun).
  exists files, w'. split; [exact Hrun|].
  destruct (getUserWithSubscription_healthy w userId Hh)
    as (w0 & Hread & Hsame).
  rewrite (matching_none _ _ Hno) in Hread. cbn in Hread.
  eexists _, w0. unfold canUserUseCharacters, bind. rewrite Hread.
  repeat split.
Qed.

End RecordFacts.

(** ** initializeDatabase *)

Module SetupFacts.
Import Pool Waiting Setup RetryFacts PoolFacts.

Section Initialize.
Context {Env : Type} `{Driver Env}.
Variable create_users : PoolRef -> Env -> outcome unit * Env.
Variable create_audio_files : PoolRef -> Env -> outcome unit * Env.

Lemma initializeDatabase_loop_unfold (maxRetries retryCount : Z)
    (w : World Env) :
  initializeDatabase_loop create_users create_audio_files maxRetries
    retryCount w =
  if retryCount <? maxRetries then
    match create_tables create_users create_audio_files w with
    | (Returned _, w1) => (Returned tt, w1)
    | (Threw error, w1) =>
        if retryCount + 1 >=? maxRetries
        then (Threw error,
              snd (log_failure maxRetries (retryCount + 1) error w1))
        else initializeDatabase_loop create_users create_audio_files
               maxRetries (retryCount + 1)
               (snd ((log_failure maxRetries (retryCount + 1) error ;;
                      sleep (1000 * (retryCount + 1))) w1))
    end
  else (Returned tt, w).
Proof.
  enough (forall b c,
            b = (retryCount <? maxRetries) ->
            c = (retryCount + 1 >=? maxRetries) ->
            initializeDatabase_loop create_users create_audio_files
              maxRetries retryCount w =
            if b then
              match create_tables create_users create_audio_files w with
              | (Returned _, w1) => (Returned tt, w1)
              | (Threw error, w1) =>
                  if c
                  then (Threw error,
                        snd (log_failure maxRetries (retryCount + 1) error w1))
                  else initializeDatabase_loop create_users
                         create_audio_files maxRetries (retryCount + 1)
                         (snd ((log_failure maxRetries (retryCount + 1) error ;;
                                sleep (1000 * (retryCount + 1))) w1))
              end
            else (Returned tt, w))
    as Hgen by (apply Hgen; reflexivity).
  intros b c Hb Hc.
  rewrite initializeDatabase_loop_equation_1.
  unfold initializeDatabase_loop_unfold_clause_1.
  destruct (inspect (retryCount <? maxRetries)) as [[|] E];
    (assert (Hb' : b = _) by (rewrite Hb; exact E)); clear Hb; subst b;
    [|reflexivity].
  unfold initializeDatabase_loop_unfold_clause_1_clause_2.
  destruct (create_tables create_users create_audio_files w)
    as [[v|error] w1]; [reflexivity|].
  unfold initializeDatabase_loop_unfold_clause_1_clause_2_clause_2.
  destruct (inspect (retryCount + 1 >=? maxRetries)) as [[|] E'];
    (assert (Hc' : c = _) by (rewrite Hc; exact E')); clear Hc; subst c;
    reflexivity.
Qed.

(** The [try] block waits on no timer and logs no failed attempt. *)
Lemma create_tables_trace (w : World Env) :
  exists fresh,
    trace (snd (create_tables create_users create_audio_files w))
    = fresh ++ trace w
    /\ slept fresh = 0 /\ failures fresh = [].
Proof.
  unfold create_tables, bind.
  destruct (getDbConnection_made w) as (p & e & _ & [->|(error & ->)]).
  - run. destruct (create_users p e) as [[[]|error] e1]; cbn.
    + destruct (create_audio_files p e1) as [r e2]. cbn.
      exists (made_for (pool w) p). destruct (pool w); repeat split.
    + exists (made_for (pool w) p). destruct (pool w); repeat split.
  - cbn [snd trace].
    exists (PoolDiscarded :: ConnectionFailedLogged error
              :: made_for (pool w) p).
    destruct (pool w); repeat split.
Qed.

Lemma logged_trace (k : Z) (error : Js.Thrown) (w : World Env) :
  trace (snd (log_failure 3 k error w))
  = OperationFailedLogged k 3 error :: trace w.
Proof. reflexivity. Qed.

Lemma waited_trace (k : Z) (error : Js.Thrown) (w : World Env) :
  trace (snd ((log_failure 3 k error ;; sleep (1000 * k)) w))
  = Slept (1000 * k) :: OperationFailedLogged k 3 error :: trace w.
Proof. reflexivity. Qed.

(** X23.  [initializeDatabase] makes at most three attempts.  It returns
    after the first attempt that creates both tables: at once, or after
    one failure and a wait of 1 s, or after two failures and waits of 1
    s and 2 s.  After a third failure it throws the error of that
    attempt without waiting again. *)
Theorem initializeDatabase_three_attempts (w : World Env) :
  exists fresh,
    trace (snd (initializeDatabase create_users create_audio_files w))
    = fresh ++ trace w
    /\ match fst (initializeDatabase create_users create_audio_files w)
       with
       | Returned _ =>
           (failures fresh = [] /\ slept fresh = 0)
           \/ (exists e1, failures fresh = [(1, e1)] /\ slept fresh = 1000)
           \/ (exists e1 e2,
                  failures fresh = [(2, e2); (1, e1)]
                  /\ slept fresh = 3000)
       | Threw error =>
           exists e1 e2,
             failures fresh = [(3, error); (2, e2); (1, e1)]
             /\ slept fresh = 3000
       end.
Proof.
  unfold initializeDatabase.
  rewrite initializeDatabase_loop_unfold. cbn [Z.ltb Z.compare].
  destruct (create_tables_trace w) as (f1 & Ht1 & Hs1 & Hf1).
  destruct (create_tables create_users create_audio_files w)
    as [[[]|e1] w1]; cbn [fst snd] in *.
  { exists f1. split; [exact Ht1|]. left. auto. }
  cbn [Z.add Z.geb Z.compare Pos.compare Pos.compare_cont].
  rewrite initializeDatabase_loop_unfold. cbn [Z.ltb Z.compare Z.add
    Pos.compare Pos.compare_cont].
  set (w1' := snd ((log_failure 3 1 e1 ;; sleep (1000 * 1)) w1)).
  assert (Hw1 : trace w1' = Slept 1000 :: OperationFailedLogged 1 3 e1
                              :: f1 ++ trace w)
    by (subst w1'; rewrite waited_trace, Ht1; reflexivity).
  clearbody w1'.
  destruct (create_tables_trace w1') as (f2 & Ht2 & Hs2 & Hf2).
  destruct (create_tables create_users create_audio_files w1')
    as [[[]|e2] w2]; cbn [fst snd] in *.
  { exists (f2 ++ Slept 1000 :: OperationFailedLogged 1 3 e1 :: f1).
    split; [rewrite Ht2, Hw1, <- app_assoc; reflexivity|].
    right. left. exists e1.
    rewrite failures_app, slept_app, Hf2, Hs2. cbn. rewrite Hf1, Hs1.
    auto. }
  cbn [Z.add Z.geb Z.compare Pos.add Pos.succ Pos.compare Pos.compare_cont].
  rewrite initializeDatabase_loop_unfold. cbn [Z.ltb Z.compare Z.add
    Pos.add Pos.succ Pos.compare Pos.compare_cont].
  set (w2' := snd ((log_failure 3 2 e2 ;; sleep (1000 * 2)) w2)).
  assert (Hw2 : trace w2'
                = (Slept 2000 :: OperationFailedLogged 2 3 e2 :: f2
                     ++ Slept 1000 :: OperationFailedLogged 1 3 e1 :: f1)
                    ++ trace w).
  { subst w2'. rewrite waited_trace, Ht2, Hw1. cbn [app].
    rewrite <- app_assoc. reflexivity. }
  assert (Hmid : failures (Slept 2000 :: OperationFailedLogged 2 3 e2 :: f2
                   ++ Slept 1000 :: OperationFailedLogged 1 3 e1 :: f1)
                 = [(2, e2); (1, e1)]
                 /\ slept (Slept 2000 :: OperationFailedLogged 2 3 e2 :: f2
                     ++ Slept 1000 :: OperationFailedLogged 1 3 e1 :: f1)
                    = 3000).
  { cbn [failures slept]. rewrite failures_app, slept_app, Hf2, Hs2.
    cbn. rewrite Hf1, Hs1. auto. }
  set (mid := Slept 2000 :: OperationFailedLogged 2 3 e2 :: f2
                ++ Slept 1000 :: OperationFailedLogged 1 3 e1 :: f1) in *.
  clearbody w2' mid. destruct Hmid as [Hfm Hsm].
  destruct (create_tables_trace w2') as (f3 & Ht3 & Hs3 & Hf3).
  destruct (create_tables create_users create_audio_files w2')
    as [[[]|e3] w3]; cbn [fst snd] in *.
  { exists (f3 ++ mid).
    split; [rewrite Ht3, Hw2, <- app_assoc; reflexivity|].
    right. right. exists e1, e2.
    rewrite failures_app, slept_app, Hf3, Hs3, Hfm, Hsm. auto. }
  cbn [Z.add Z.geb Z.compare Pos.add Pos.succ Pos.compare Pos.compare_cont].
  cbn [fst snd]. rewrite logged_trace.
  exists (OperationFailedLogged 3 3 e3 :: f3 ++ mid).
  split; [rewrite Ht3, Hw2, app_assoc; reflexivity|].
  exists e1, e2. cbn [failures slept].
  rewrite failures_app, slept_app, Hf3, Hs3, Hfm, Hsm. auto.
Qed.

End Initialize.
End SetupFacts.

(** ** The routes *)

Module RouteFacts.
Import Pool Sql Database Spec Waiting Frame Routes RetryFacts PoolFacts.
Import DatabaseFacts RepositoryFacts UsageFacts RecordFacts.

Section Handlers.
Variable jwt_verify : option string -> option JWTPayload.
Context {J : Type}.
Variable synthesize : GenerateRequest J -> outcome Synthesis.
Variable JSON_stringify : J -> J -> J -> J -> string.

Lemma check_usage_eq (decoded : JWTPayload) (request : GenerateRequest J)
    (n : Z) (w : World) :
  check_usage decoded request n w
  = if isPreview request then (Returned None, w)
    else match canUserUseCharacters (userId decoded) n w with
         | (Returned usageCheck, w1) =>
             if canUse usageCheck then (Returned None, w1)
             else (Returned
                     (Some (mkResponse 429
                              (UsageLimitExceeded (currentUsage usageCheck)
                                 (limit usageCheck) n))), w1)
         | (Threw error, w1) => (Threw error, w1)
         end.
Proof.
  unfold check_usage. destruct (isPreview request); [reflexivity|].
  cbn [negb]. unfold bind.
  destruct (canUserUseCharacters (userId decoded) n w)
    as [[check|error] w1]; [|reflexivity].
  destruct (canUse check); reflexivity.
Qed.

Lemma synthesized_eq (decoded : JWTPayload) (request : GenerateRequest J)
    (text' : string) (n : Z) (w : World) :
  synthesized synthesize JSON_stringify decoded request text' n w
  = match synthesize request with
    | Returned result =>
        if completed result then
          match record_usage JSON_stringify decoded request text' n result w
          with
          | (Returned _, w1) =>
              match getUserWithSubscription (userId decoded) w1 with
              | (Returned user, w2) =>
                  (Returned
                     (mkResponse 200
                        (Generated true (audioData result)
                           (usage_summary user))), w2)
              | (Threw error, w2) => (Threw error, w2)
              end
          | (Threw error, w1) => (Threw error, w1)
          end
        else
          (Returned (mkResponse 500 (SynthesisFailed (errorDetails result))),
           w)
    | Threw error => (Threw error, w)
    end.
Proof.
  unfold synthesized, bind.
  destruct (synthesize request) as [result|error]; [|reflexivity].
  destruct (completed result); [|reflexivity].
  destruct (record_usage _ _ _ _ _ _ w) as [[[]|error] w1]; [|reflexivity].
  destruct (getUserWithSubscription (userId decoded) w1)
    as [[user|error] w2]; reflexivity.
Qed.

Lemma generate_eq (decoded : JWTPayload) (request : GenerateRequest J)
    (w : World) :
  generate synthesize JSON_stringify decoded (Returned request) w
  = if falsy (text request) || blank (string_or (text request) "") then
      (Returned (mkResponse 400 (GenerateError "Text is required")), w)
    else
      match check_usage decoded request
              (Z.of_nat (String.length (string_or (text request) ""))) w
      with
      | (Returned (Some response), w1) => (Returned response, w1)
      | (Returned None, w1) =>
          synthesized synthesize JSON_stringify decoded request
            (string_or (text request) "")
            (Z.of_nat (String.length (string_or (text request) ""))) w1
      | (Threw error, w1) => (Threw error, w1)
      end.
Proof.
  unfold generate, bind.
  destruct (falsy (text request) || blank (string_or (text request) ""));
    [reflexivity|].
  cbn zeta.
  destruct (check_usage decoded request _ w) as [[[response|]|error] w1];
    reflexivity.
Qed.

Lemma record_usage_preview (decoded : JWTPayload)
    (request : GenerateRequest J) (text' : string) (n : Z)
    (result : Synthesis) (w : World) :
  isPreview request = true ->
  record_usage JSON_stringify decoded request text' n result w
  = (Returned tt, w).
Proof. intros Hp. unfold record_usage. rewrite Hp. reflexivity. Qed.

(** What the synthesis step can answer, and when it leaves the rows
    alone. *)
Lemma synthesized_cases (decoded : JWTPayload) (request : GenerateRequest J)
    (text' : string) (n : Z) (w : World) :
  match fst (synthesized synthesize JSON_stringify decoded request text' n w)
  with
  | Returned response => status response = 200 \/ status response = 500
  | Threw _ => True
  end
  /\ (chargeable synthesize (Returned request) = false ->
      same_tables (env w)
        (env (snd (synthesized synthesize JSON_stringify decoded request
                     text' n w)))).
Proof.
  rewrite synthesized_eq. unfold chargeable.
  destruct (synthesize request) as [result|error];
    [|split; [exact I|intros _; apply same_tables_refl]].
  destruct (completed result);
    [|split; [right; reflexivity|intros _; apply same_tables_refl]].
  destruct (isPreview request) eqn:Hp.
  - rewrite (record_usage_preview _ _ _ _ _ _ Hp).
    pose proof (getUserWithSubscription_same_tables (userId decoded) w)
      as Hl.
    destruct (getUserWithSubscription (userId decoded) w)
      as [[user|error] w2]; cbn [fst snd] in *.
    + split; [left; reflexivity|intros _; exact Hl].
    + split; [exact I|intros _; exact Hl].
  - split; [|discriminate].
    destruct (record_usage _ _ _ _ _ _ w) as [[[]|error] w1]; [|exact I].
    destruct (getUserWithSubscription (userId decoded) w1)
      as [[user|error] w2]; [left; reflexivity|exact I].
Qed.

Lemma check_usage_cases (decoded : JWTPayload) (request : GenerateRequest J)
    (n : Z) (w : World) :
  same_tables (env w) (env (snd (check_usage decoded request n w)))
  /\ match fst (check_usage decoded request n w) with
     | Returned (Some response) => status response = 429
     | _ => True
     end.
Proof.
  rewrite check_usage_eq. destruct (isPreview request).
  - split; [apply same_tables_refl|exact I].
  - pose proof (canUserUseCharacters_same_tables (userId decoded) n w) as Hl.
    destruct (canUserUseCharacters (userId decoded) n w)
      as [[check|error] w1]; cbn [snd] in Hl.
    + destruct (canUse check); split; try exact Hl; cbn; auto.
    + split; [exact Hl|exact I].
Qed.

(** The answers of the [try] block of [POST], and when it leaves the
    rows alone. *)
Lemma generate_cases (decoded : JWTPayload)
    (json : outcome (GenerateRequest J)) (w : World) :
  match fst (generate synthesize JSON_stringify decoded json w) with
  | Returned response =>
      In (status response) [200; 400; 429; 500]
      /\ (status response = 400 \/ status response = 429 ->
          same_tables (env w)
            (env (snd (generate synthesize JSON_stringify decoded json w))))
  | Threw _ => True
  end
  /\ (chargeable synthesize json = false ->
      same_tables (env w)
        (env (snd (generate synthesize JSON_stringify decoded json w)))).
Proof.
  destruct json as [request|error];
    [|split; [exact I|intros _; apply same_tables_refl]].
  rewrite generate_eq.
  destruct (falsy (text request) || blank (string_or (text request) "")).
  { split; [split|]; intros; try apply same_tables_refl.
    right. left. reflexivity. }
  destruct (check_usage_cases decoded request
              (Z.of_nat (String.length (string_or (text request) ""))) w)
    as [Hframe Hcheck].
  destruct (check_usage decoded request _ w) as [[[response|]|error] w1];
    cbn [fst snd] in *.
  - split; [split|]; intros; try exact Hframe.
    rewrite Hcheck. right. right. left. reflexivity.
  - destruct (synthesized_cases decoded request
                (string_or (text request) "")
                (Z.of_nat (String.length (string_or (text request) ""))) w1)
      as [Hstatus Hrows].
    split.
    + destruct (fst (synthesized _ _ _ _ _ _ w1)) as [response|error];
        [|exact I].
      split.
      * destruct Hstatus as [->| ->]; cbn; auto.
      * intros [H|H]; destruct Hstatus as [H'|H']; rewrite H' in H;
          discriminate.
    + intros Hc. eapply same_tables_trans; [exact Hframe|]. apply Hrows.
      exact Hc.
  - split; [exact I|intros _; exact Hframe].
Qed.

(** X24.  Both handlers answer 401 to the requests whose [authorization]
    header is missing, does not start with [Bearer ] or carries a token
    that is rejected, and to no other; such a request leaves the world
    untouched: no pool is made, nothing is read. *)
Theorem unauthenticated_requests_touch_nothing (authHeader : option string)
    (json : outcome (GenerateRequest J)) (w : World) :
  let answered := GET jwt_verify authHeader w in
  let generated := POST jwt_verify synthesize JSON_stringify authHeader json w
  in
  match authenticate jwt_verify authHeader with
  | Authenticated _ =>
      status (fst answered) <> 401 /\ status (fst generated) <> 401
  | _ =>
      status (fst answered) = 401 /\ snd answered = w
      /\ status (fst generated) = 401 /\ snd generated = w
  end.
Proof.
  cbn zeta. unfold GET, POST.
  destruct (authenticate jwt_verify authHeader) as [| |decoded];
    [repeat split..|].
  split.
  - destruct (getUserDashboard (userId decoded) w) as [[data|error] w'];
      discriminate.
  - destruct (generate_cases decoded json w) as [Hstatus _].
    destruct (generate _ _ _ _ w) as [[response|error] w'];
      cbn [fst snd] in *; [|discriminate].
    destruct Hstatus as [[H|[H|[H|[H|[]]]]] _]; rewrite <- H; discriminate.
Qed.

(** X25.  The speech route changes rows only for a request that is not a
    preview and whose synthesis completes, and never when it answers
    400, 401 or 429: a preview, a failed synthesis and a refusal are not
    charged and leave no record. *)
Theorem POST_charges_only_generated_speech (authHeader : option string)
    (json : outcome (GenerateRequest J)) (w : World) :
  chargeable synthesize json = false
  \/ In (status (fst (POST jwt_verify synthesize JSON_stringify authHeader
                        json w))) [400; 401; 429] ->
  same_tables (env w)
    (env (snd (POST jwt_verify synthesize JSON_stringify authHeader json w))).
Proof.
  unfold POST.
  destruct (authenticate jwt_verify authHeader) as [| |decoded];
    [intros _; apply same_tables_refl..|].
  destruct (generate_cases decoded json w) as [Hstatus Hrows].
  destruct (generate _ _ _ _ w) as [[response|error] w'];
    cbn [fst snd] in *.
  - intros [Hc|[H|[H|[H|[]]]]]; [apply Hrows; exact Hc| | |].
    + apply Hstatus. left. symmetry. exact H.
    + destruct Hstatus as [[H'|[H'|[H'|[H'|[]]]]] _]; rewrite <- H' in H;
        discriminate.
    + apply Hstatus. right. symmetry. exact H.
  - intros [Hc|[H|[H|[H|[]]]]]; [apply Hrows; exact Hc| | |];
      discriminate.
Qed.

Lemma getUserDashboard_healthy (w : World) (userId' : string) :
  healthy (env w) ->
  exists d w',
    getUserDashboard userId' w = (Returned d, w')
    /\ du_id (user d)
       = option_map id (first_or_null (matching (env w) userId'))
    /\ usage d
       = usage_summary
           (option_map subscription_of
              (first_or_null (matching (env w) userId'))).
Proof.
  intros Hh.
  destruct (getUserWithSubscription_healthy w userId' Hh)
    as (w0 & Hread & Hsame).
  assert (Hh0 : healthy (env w0))
    by (apply (same_server_healthy _ _ Hsame Hh)).
  destruct (getUserAudioFiles_rows w0 userId' 5 Hh0) as (w' & Hlist & _);
    [unfold INT_MAX; lia|].
  eexists _, w'.
  unfold getUserDashboard, bind. rewrite Hread, Hlist.
  split; [reflexivity|]. split; [|reflexivity].
  cbn [user du_id]. destruct (first_or_null _); reflexivity.
Qed.

(** X26.  On a server that answers, the dashboard route answers every
    accepted token with 200 and the dashboard of the token's user; for
    a token whose user is not stored this is the dashboard of a user
    with no id on the free tier, with nothing used and 5000 remaining,
    not an error. *)
Theorem GET_answers_every_token (authHeader : option string)
    (decoded : JWTPayload) (w : World) :
  healthy (env w) ->
  authenticate jwt_verify authHeader = Authenticated decoded ->
  exists d w',
    GET jwt_verify authHeader w = (mkResponse 200 (DashboardData true d), w')
    /\ du_id (user d)
       = option_map id (first_or_null (matching (env w) (userId decoded)))
    /\ ((forall r, In r (users (env w)) ->
                   collate (env w) (id r) (userId decoded) = false) ->
        du_id (user d) = None
        /\ usage d = mkDashboardUsage 0 (Js.VNumber 5000) (Js.Num 5000)).
Proof.
  intros Hh Hauth.
  destruct (getUserDashboard_healthy w (userId decoded) Hh)
    as (d & w' & Hrun & Hid & Husage).
  exists d, w'. unfold GET. rewrite Hauth, Hrun.
  split; [reflexivity|]. split; [exact Hid|].
  intros Hno. rewrite Hid, Husage, (matching_none _ _ Hno).
  split; reflexivity.
Qed.

Lemma string_or_not_empty (s : option string) (d : string) :
  d <> EmptyString ->
  Js.string_or_null (Some (string_or s d)) = Some (string_or s d).
Proof.
  intros Hd. unfold string_or.
  destruct s as [[|c s]|]; cbn; try reflexivity;
    destruct d; try reflexivity; contradiction.
Qed.

Lemma not_blank_not_falsy (s : option string) :
  blank (string_or s "") = false -> falsy s = false.
Proof. destruct s as [[|c s]|]; cbn; congruence. Qed.

(** X27.  A request for speech that goes through is charged once and leaves
    one record: for an accepted token of a stored user, a text that is
    not blank, no preview, a usage that stays within the limit and a
    synthesis that completes, the route answers 200 with the audio; the
    user's usage is raised by the length of the text, the usage it
    reports is the raised one, with a remainder that is not negative;
    and one record is added for the user, with the text, the voice asked
    for or [en-US-JennyNeural], and the size of the audio. *)
Theorem POST_charges_generated_speech (authHeader : option string)
    (decoded : JWTPayload) (request : GenerateRequest J)
    (result : Synthesis) (r : UserRow) (u l : Z) (w : World) :
  let text' := string_or (text request) "" in
  let characterCount := Z.of_nat (String.length text') in
  let size := Z.of_nat (String.length (audioData result)) in
  healthy (env w) ->
  authenticate jwt_verify authHeader = Authenticated decoded ->
  blank text' = false ->
  isPreview request = false ->
  matching (env w) (userId decoded) = [r] ->
  monthlyUsage r = Some u ->
  0 <= u ->
  Js.or_number (Js.get limits (Js.key_of (subscriptionStatus r))) 5000
  = Js.VNumber l ->
  u + characterCount <= l ->
  synthesize request = Returned result ->
  completed result = true ->
  (forall a, In a (audio_files (env w)) ->
             collate (env w) (a_id a)
               (audio_id (Date_now (env w))
                  (Math_random (env w) (random_draws (env w)))) = false) ->
  size <= INT_MAX ->
  exists w' row,
    POST jwt_verify synthesize JSON_stringify authHeader (Returned request) w
    = (mkResponse 200
         (Generated true (audioData result)
            (mkDashboardUsage (u + characterCount) (Js.VNumber l)
               (Js.Num (l - (u + characterCount))))), w')
    /\ 0 <= l - (u + characterCount)
    /\ users (env w')
       = map (fun x => if collate (env w) (id x) (userId decoded)
                       then charged characterCount x else x)
           (users (env w))
    /\ audio_files (env w') = audio_files (env w) ++ [row]
    /\ a_userId row = userId decoded
    /\ a_text row = text'
    /\ a_voice row = Some (string_or (voice request) "en-US-JennyNeural")
    /\ a_fileSize row = Js.number_or_null (Some size).
Proof.
  intros text' n size Hh Hauth Hblank Hprev Hm Hu Hpos Hl Hle Hsyn Hdone
    Hfresh Hsize.
  assert (Hn : 0 <= n) by (subst n; lia).
  assert (Htable := userLimit_in_table _ _ Hl).
  assert (Hin : In r (users (env w))
                /\ collate (env w) (id r) (userId decoded) = true).
  { assert (Hr : In r (matching (env w) (userId decoded)))
      by (rewrite Hm; left; reflexivity).
    apply filter_In in Hr. exact Hr. }
  assert (Honly : forall x, In x (users (env w)) ->
                    collate (env w) (id x) (userId decoded) = true -> x = r).
  { intros x Hx Hc.
    assert (Hx' : In x (matching (env w) (userId decoded)))
      by (apply filter_In; auto).
    rewrite Hm in Hx'. destruct Hx' as [<-|[]]. reflexivity. }
  (* the check *)
  destruct (getUserWithSubscription_healthy w (userId decoded) Hh)
    as (w0 & Hread & k0 & ps0 & He0).
  rewrite Hm in Hread. cbn [first_or_null option_map] in Hread.
  assert (Hh0 : healthy (env w0)) by (rewrite He0; exact Hh).
  assert (Hcheck : check_usage decoded request n w = (Returned None, w0)).
  { rewrite check_usage_eq, Hprev. unfold canUserUseCharacters, bind.
    rewrite Hread.
    cbn [subscription_of s_subscriptionStatus s_monthlyUsage ret canUse].
    rewrite Hl, Hu. cbn [Js.ToNumber Js.le].
    replace (u + n <=? l) with true by (symmetry; apply Z.leb_le; lia).
    reflexivity. }
  (* the charge *)
  assert (Hfit : fits_INT n = true).
  { unfold fits_INT, INT_MIN, INT_MAX. apply andb_true_iff.
    split; apply Z.leb_le; lia. }
  destruct (updateUserUsage_healthy w0 (userId decoded) n Hh0 Hfit)
    as (k1 & ps1 & w1 & Hupd & He1).
  { rewrite He0. cbn [collate users set_pools]. intros x u0 Hx Hc Hu0.
    rewrite (Honly x Hx Hc), Hu in Hu0. injection Hu0 as <-.
    unfold fits_INT, INT_MIN, INT_MAX. apply andb_true_iff.
    split; apply Z.leb_le; lia. }
  rewrite He0 in He1. cbn [collate users set_users set_pools GETDATE] in He1.
  assert (Hh1 : healthy (env w1)) by (rewrite He1; exact Hh).
  (* the record *)
  set (audioData' :=
         {| d_userId := userId decoded;
            d_filename :=
              ("tts_" ++ Js.String_of_Z (Date_now (env w1)) ++ ".mp3")%string;
            d_text := text';
            d_voice := Some (string_or (voice request) "en-US-JennyNeural");
            d_settings :=
              Some (Js.mkAny true
                      (JSON_stringify (style request) (rate request)
                         (pitch request) (volume request)));
            d_audioUrl := None;
            d_fileSize := Some size |}).
  destruct (saveAudioFile_healthy w1 audioData' Hh1)
    as (w2 & row & Hsave & Hh2 & Hcol & Hus & Hfiles & Hview & Hrow).
  { exists (charged n r). rewrite He1.
    cbn [collate users set_users set_pools d_userId audioData'].
    split; [|apply Hin].
    apply in_map_iff. exists r. destruct Hin as [Hin ->]. auto. }
  { rewrite He1. cbn [collate audio_files set_users set_pools Date_now
                        Math_random random_draws]. exact Hfresh. }
  { cbn [d_fileSize audioData']. intros k [= <-].
    unfold fits_INT, INT_MIN. apply andb_true_iff.
    split; apply Z.leb_le; subst size; lia. }
  (* the usage reported *)
  destruct (getUserWithSubscription_healthy w2 (userId decoded) Hh2)
    as (w3 & Hread' & k3 & ps3 & He3).
  assert (Hm2 : matching (env w2) (userId decoded) = [charged n r]).
  { unfold matching in *. rewrite Hcol, Hus, He1.
    cbn [collate users set_users set_pools].
    rewrite matching_map by reflexivity. rewrite Hm. reflexivity. }
  rewrite Hm2 in Hread'. cbn [first_or_null option_map] in Hread'.
  exists w3, row. split.
  - unfold POST. rewrite Hauth, generate_eq.
    rewrite (not_blank_not_falsy _ Hblank). fold text'. rewrite Hblank.
    cbn [orb]. fold n. rewrite Hcheck, synthesized_eq, Hsyn, Hdone.
    unfold record_usage. rewrite Hprev. cbn [negb]. unfold bind at 1.
    rewrite Hupd. unfold bind at 1. unfold gets at 1. unfold bind at 1.
    fold size. fold audioData'. rewrite Hsave. unfold ret at 1.
    rewrite Hread'. unfold usage_summary.
    cbn [tier_key usage_or_0 subscription_of charged s_subscriptionStatus
           s_monthlyUsage subscriptionStatus monthlyUsage].
    rewrite Hl, Hu. cbn [plus_null Js.minus]. rewrite number_or_0.
    reflexivity.
  - split; [lia|]. rewrite He3. cbn [users audio_files set_pools].
    rewrite Hus, Hfiles, He1. cbn [users audio_files set_users set_pools].
    split; [reflexivity|]. split; [reflexivity|].
    split; [exact Hrow|].
    assert (Hv := f_equal v_text Hview).
    assert (Hvo := f_equal v_voice Hview).
    assert (Hsz := f_equal v_fileSize Hview).
    cbn [audio_view_of v_text v_voice v_fileSize audioData' d_text d_voice
           d_fileSize] in Hv, Hvo, Hsz.
    split; [exact Hv|]. split; [|exact Hsz].
    rewrite Hvo. apply string_or_not_empty. discriminate.
Qed.

End Handlers.
End RouteFacts.

(** ** The further properties on the example worlds *)

Module ScenarioChecks.
Import Pool Sql Database Spec Waiting Frame Setup Routes Examples Scenarios.
Import RetryFacts PoolFacts DatabaseFacts RepositoryFacts UsageFacts.
Import RecordFacts SetupFacts RouteFacts.

Ltac only_ada := intros ? [<-|[]]; try reflexivity.

(** A lookup on the server whose first two queries fail. *)
Lemma withRetry_bounded_witness :
  exists fresh,
    trace (snd (withRetry (select_user "u1") 2 (fresh_start flaky)))
    = fresh ++ trace (fresh_start flaky)
    /\ let k := Z.of_nat (List.length (failures fresh)) in
       match fst (withRetry (select_user "u1") 2 (fresh_start flaky)) with
       | Returned _ =>
           k <= 2 /\ 1 <= calls fresh <= k + 1
           /\ slept fresh = 250 * (k * (k + 1))
       | Threw _ =>
           k = 2 + 1 /\ 0 <= calls fresh <= k
           /\ slept fresh = 250 * (2 * (2 + 1))
       end.
Proof.
  apply (withRetry_bounded (select_user "u1") 2 (fresh_start flaky)). lia.
Defined.

(** The insert of a duplicate: the caller catches the violation the
    third attempt threw. *)
Lemma withRetry_rethrows_the_last_error_witness :
  exists w0 w1,
    attempt (insert_user duplicate) w0 = (Threw unique_key_violation, w1)
    /\ snd (withRetry (insert_user duplicate) 2 world_of_ada)
       = caught 2 (2 + 1) unique_key_violation w1.
Proof.
  apply (withRetry_rethrows_the_last_error (insert_user duplicate) 2
           world_of_ada
           (snd (withRetry (insert_user duplicate) 2 world_of_ada))
           unique_key_violation).
  - lia.
  - vm_compute. reflexivity.
Defined.

(** [ada], on the free tier at 4999 characters. *)
Lemma canUserUseCharacters_own_tier_witness :
  exists w',
    canUserUseCharacters "u1" 2 world_of_ada
    = (Returned
         {| canUse :=
              Js.ToNumber (monthlyUsage ada) + 2
                <=? Spec.tier_limit (subscriptionStatus ada);
            currentUsage := monthlyUsage ada;
            limit := Js.VNumber (Spec.tier_limit (subscriptionStatus ada)) |},
       w')
    /\ same_server (env world_of_ada) (env w').
Proof.
  apply (canUserUseCharacters_own_tier world_of_ada "u1" 2 ada []).
  - split; reflexivity.
  - reflexivity.
  - reflexivity.
Defined.

(** A record for a user that is not stored. *)
Lemma saveAudioFile_requires_a_stored_user_witness :
  let stray := mkAudioData "nobody" "tts.mp3" "hello" None None None None in
  exists w',
    saveAudioFile stray world_of_clips = (Threw foreign_key_violation, w')
    /\ same_tables (env world_of_clips) (env w')
    /\ gave_up_after 3 1500 (trace world_of_clips) (trace w').
Proof.
  intros stray.
  apply (saveAudioFile_requires_a_stored_user world_of_clips stray).
  - split; reflexivity.
  - intros r [<-|[<-|[]]]; reflexivity.
  - intros k r [<-|[<-|[<-|[<-|[]]]]]; reflexivity.
  - intros n [=].
Defined.

Lemma reads_change_no_row_witness :
  same_tables (env world_of_clips)
    (env (serve (GetUserDashboard "u1") world_of_clips)).
Proof.
  apply (reads_change_no_row (GetUserDashboard "u1") world_of_clips).
  reflexivity.
Defined.

Lemma lookups_by_id_agree_witness :
  exists found,
    fst (findUserById "u1" world_of_ada) = Returned found
    /\ fst (getUserLoginHistory "u1" world_of_ada)
       = Returned (option_map login_history_of found)
    /\ fst (getUserWithSubscription "u1" world_of_ada)
       = Returned (option_map subscription_of found)
    /\ (found = None <->
        forall r, In r (users (env world_of_ada)) ->
                  collate (env world_of_ada) (id r) "u1" = false)
    /\ (forall r, found = Some r ->
                  In r (users (env world_of_ada))
                  /\ collate (env world_of_ada) (id r) "u1" = true).
Proof.
  apply (lookups_by_id_agree world_of_ada "u1"). split; reflexivity.
Defined.

Lemma createUser_then_findUserById_witness :
  exists w1 w2 row,
    createUser eve world_of_ada = (Returned tt, w1)
    /\ findUserById (u_id eve) w1 = (Returned (Some row), w2)
    /\ id row = u_id eve /\ email row = u_email eve
    /\ name row = u_name eve /\ password row = u_password eve
    /\ subscriptionStatus row = Some "free"
    /\ monthlyUsage row = Some 0
    /\ login_count row = Some 0
    /\ last_login_at row = None
    /\ usageResetDate row = Some (GETDATE (env world_of_ada)).
Proof.
  apply (createUser_then_findUserById world_of_ada eve).
  - split; reflexivity.
  - reflexivity.
  - only_ada.
  - only_ada.
Defined.

Lemma createUser_conflict_witness :
  exists w',
    createUser duplicate world_of_ada
    = (Threw (if existsb (fun r => collate (env world_of_ada) (id r)
                                     (u_id duplicate))
                   (users (env world_of_ada))
              then primary_key_violation else unique_key_violation), w')
    /\ users (env w') = users (env world_of_ada)
    /\ gave_up_after 3 1500 (trace world_of_ada) (trace w').
Proof.
  apply (createUser_conflict world_of_ada duplicate).
  - split; reflexivity.
  - exists ada. split; [left; reflexivity|right; reflexivity].
Defined.

Lemma updateLoginTracking_counts_the_login_witness :
  exists before w0 w1 w2,
    getUserLoginHistory "u1" world_of_ada = (Returned before, w0)
    /\ updateLoginTracking "u1" w0 = (Returned tt, w1)
    /\ getUserLoginHistory "u1" w1
       = (Returned
            (option_map
               (fun h => mkLoginHistory (lh_id h) (lh_email h) (lh_name h)
                           (Some (GETDATE (env world_of_ada)))
                           (Some (ISNULL0 (lh_login_count h) + 1))
                           (lh_createdAt h))
               before), w2).
Proof.
  apply (updateLoginTracking_counts_the_login world_of_ada "u1").
  - split; reflexivity.
  - intros r [<-|[]] _. reflexivity.
Defined.

Lemma updateUserUsage_is_read_back_witness :
  exists before w0 w1 w2,
    getUserWithSubscription "u1" world_of_ada = (Returned before, w0)
    /\ updateUserUsage "u1" 120 w0 = (Returned tt, w1)
    /\ getUserWithSubscription "u1" w1
       = (Returned
            (option_map
               (fun u => mkSubscription (s_id u) (s_email u) (s_name u)
                           (s_subscriptionStatus u)
                           (plus_null (s_monthlyUsage u) 120)
                           (s_usageResetDate u) (s_last_login_at u)
                           (s_login_count u) (s_createdAt u))
               before), w2).
Proof.
  apply (updateUserUsage_is_read_back world_of_ada "u1" 120).
  - split; reflexivity.
  - reflexivity.
  - intros r u [<-|[]] _ [= <-]. reflexivity.
Defined.

Lemma updateUserUsage_adds_up_witness :
  exists w1 w2 w',
    updateUserUsage "u1" 120 world_of_ada = (Returned tt, w1)
    /\ updateUserUsage "u1" 30 w1 = (Returned tt, w2)
    /\ updateUserUsage "u1" (120 + 30) world_of_ada = (Returned tt, w')
    /\ users (env w2) = users (env w').
Proof.
  apply (updateUserUsage_adds_up world_of_ada "u1" 120 30);
    try reflexivity.
  - split; reflexivity.
  - intros r u [<-|[]] _ [= <-]. split; reflexivity.
Defined.

Lemma updates_ignore_an_unknown_user_witness :
  exists w1 w2,
    updateLoginTracking "nobody" world_of_ada = (Returned tt, w1)
    /\ users (env w1) = users (env world_of_ada)
    /\ updateUserUsage "nobody" 120 world_of_ada = (Returned tt, w2)
    /\ users (env w2) = users (env world_of_ada).
Proof.
  apply (updates_ignore_an_unknown_user world_of_ada "nobody" 120).
  - split; reflexivity.
  - reflexivity.
  - only_ada.
Defined.

(** A charge of 2^31 characters, and one that takes 4999 past the
    largest [INT]. *)
Lemma updateUserUsage_refuses_an_overflow_witness :
  (exists w',
      updateUserUsage "u1" 2147483648 world_of_ada
      = (Threw (if fits_INT 2147483648 then arithmetic_overflow
                else parameter_validation), w')
      /\ users (env w') = users (env world_of_ada))
  /\ fits_INT 2147483648 = false
  /\ (exists w',
         updateUserUsage "u1" 2147483647 world_of_ada
         = (Threw (if fits_INT 2147483647 then arithmetic_overflow
                   else parameter_validation), w')
         /\ users (env w') = users (env world_of_ada))
  /\ fits_INT 2147483647 = true.
Proof.
  split; [|split; [reflexivity|split; [|reflexivity]]].
  - apply (updateUserUsage_refuses_an_overflow world_of_ada "u1" 2147483648).
    + split; reflexivity.
    + left. reflexivity.
  - apply (updateUserUsage_refuses_an_overflow world_of_ada "u1" 2147483647).
    + split; reflexivity.
    + right. exists ada, 4999. repeat split. left. reflexivity.
Defined.

Lemma allowed_charge_stays_within_limit_witness :
  exists check w0,
    canUserUseCharacters "u1" 1 world_of_ada = (Returned check, w0)
    /\ (canUse check = true ->
        exists l w1 after w2,
          limit check = Js.VNumber l
          /\ updateUserUsage "u1" 1 w0 = (Returned tt, w1)
          /\ getUserWithSubscription "u1" w1 = (Returned (Some after), w2)
          /\ s_monthlyUsage after = plus_null (currentUsage check) 1
          /\ Js.ToNumber (s_monthlyUsage after) <= l).
Proof.
  apply (allowed_charge_stays_within_limit world_of_ada "u1" 1).
  - split; reflexivity.
  - lia.
  - apply le_n.
  - intros r u [<-|[]] [= <-]. lia.
Defined.

Lemma resetMonthlyUsage_once_a_month_witness :
  exists w',
    resetMonthlyUsage world_after_reset = (Returned tt, w')
    /\ users (env w') = users (env world_after_reset).
Proof.
  apply (resetMonthlyUsage_once_a_month world_of_ada world_after_reset).
  - split; reflexivity.
  - split; reflexivity.
  - reflexivity.
  - vm_compute. reflexivity.
Defined.

Lemma getUserAudioFiles_newest_first_witness :
  exists sorted w',
    getUserAudioFiles "u1" 2 world_of_clips
    = (Returned (map audio_view_of (firstn (Z.to_nat 2) sorted)), w')
    /\ Permutation sorted (files_of (env world_of_clips) "u1")
    /\ StronglySorted newer_first sorted
    /\ List.length (firstn (Z.to_nat 2) sorted)
       = Nat.min (Z.to_nat 2)
           (List.length (files_of (env world_of_clips) "u1")).
Proof.
  apply (getUserAudioFiles_newest_first world_of_clips "u1" 2).
  - split; reflexivity.
  - unfold INT_MAX. lia.
Defined.

Lemma getUserAudioFiles_refuses_a_bad_limit_witness :
  exists w',
    getUserAudioFiles "u1" (-1) world_of_clips
    = (Threw (if fits_INT (-1) then invalid_top else parameter_validation),
       w')
    /\ same_server (env world_of_clips) (env w')
    /\ gave_up_after 3 1500 (trace world_of_clips) (trace w').
Proof.
  apply (getUserAudioFiles_refuses_a_bad_limit world_of_clips "u1" (-1)).
  - split; reflexivity.
  - left. lia.
Defined.

Lemma saveAudioFile_then_getUserAudioFiles_witness :
  exists audioId w1 files w2 view,
    saveAudioFile silent_clip world_of_clips = (Returned audioId, w1)
    /\ getUserAudioFiles (d_userId silent_clip) 10 w1
       = (Returned files, w2)
    /\ List.length files
       = S (List.length
              (files_of (env world_of_clips) (d_userId silent_clip)))
    /\ In view files
    /\ v_id view = audioId
    /\ v_filename view = d_filename silent_clip
    /\ v_text view = d_text silent_clip
    /\ v_createdAt view = Some (GETDATE (env world_of_clips)).
Proof.
  apply (saveAudioFile_then_getUserAudioFiles world_of_clips silent_clip 10).
  - split; reflexivity.
  - exists ada. split; [left; reflexivity|reflexivity].
  - intros r [<-|[<-|[<-|[<-|[]]]]]; reflexivity.
  - intros n [= <-]. reflexivity.
  - reflexivity.
  - split; [reflexivity|discriminate].
Defined.

Lemma getUserDashboard_unknown_user_witness :
  exists files w',
    getUserDashboard "nobody" world_of_ada
    = (Returned
         {| user := mkDashboardUser None None None "free" 0 None;
            usage := mkDashboardUsage 0 (Js.VNumber 5000) (Js.Num 5000);
            recentFiles := files |}, w')
    /\ exists check w0,
         canUserUseCharacters "nobody" 0 world_of_ada = (Returned check, w0)
         /\ canUse check = false /\ limit check = Js.VNumber 0.
Proof.
  apply (getUserDashboard_unknown_user world_of_ada "nobody").
  - split; reflexivity.
  - only_ada.
Defined.

(** A preview by [ada]. *)
Lemma POST_charges_only_generated_speech_witness :
  same_tables (env world_of_ada)
    (env (snd (POST accept_ada four_bytes no_settings (Some "Bearer t0k3n")
                 (Returned preview_h) world_of_ada))).
Proof.
  apply (POST_charges_only_generated_speech accept_ada four_bytes no_settings
           (Some "Bearer t0k3n") (Returned preview_h) world_of_ada).
  left. reflexivity.
Defined.

(** The dashboard of [ada], asked for with her token. *)
Lemma GET_answers_every_token_witness :
  exists d w',
    GET accept_ada (Some "Bearer t0k3n") world_of_ada
    = (mkResponse 200 (DashboardData true d), w')
    /\ du_id (user d)
       = option_map id (first_or_null (matching (env world_of_ada) "u1"))
    /\ ((forall r, In r (users (env world_of_ada)) ->
                   collate (env world_of_ada) (id r) "u1" = false) ->
        du_id (user d) = None
        /\ usage d = mkDashboardUsage 0 (Js.VNumber 5000) (Js.Num 5000)).
Proof.
  apply (GET_answers_every_token accept_ada (Some "Bearer t0k3n")
           (mkJWTPayload "u1" "ada@example.com") world_of_ada).
  - split; reflexivity.
  - reflexivity.
Defined.

(** [ada], at 4999 of 5000 characters, has one character spoken. *)
Lemma POST_charges_generated_speech_witness :
  exists w' row,
    POST accept_ada four_bytes no_settings (Some "Bearer t0k3n")
      (Returned say_h) world_of_ada
    = (mkResponse 200
         (Generated true "ID3a"
            (mkDashboardUsage 5000 (Js.VNumber 5000) (Js.Num 0))), w')
    /\ 0 <= 5000 - (4999 + 1)
    /\ users (env w')
       = map (fun x => if collate (env world_of_ada) (id x) "u1"
                       then charged 1 x else x)
           (users (env world_of_ada))
    /\ audio_files (env w') = audio_files (env world_of_ada) ++ [row]
    /\ a_userId row = "u1"
    /\ a_text row = "h"
    /\ a_voice row = Some "en-US-JennyNeural"
    /\ a_fileSize row = Some 4.
Proof.
  apply (POST_charges_generated_speech accept_ada four_bytes no_settings
           (Some "Bearer t0k3n") (mkJWTPayload "u1" "ada@example.com")
           say_h (mkSynthesis true "ID3a" "") ada 4999 5000 world_of_ada);
    try reflexivity.
  - split; reflexivity.
  - lia.
  - intros a [].
  - unfold INT_MAX. cbn. lia.
Defined.



End ScenarioChecks.
